(** * Bus sniffer DPI capture pipeline (hw/ip/bus_sniffer/dpi/bus_sniffer_dpi.cc)

    A shallow embedding of the SPSC ring buffer, the 128-bit frame decoder,
    the sink writer and the session life cycle, with the properties of the
    design specification settled against it.

    Conventions.  A [uint32_t] / [unsigned] value is a [Z] in [0, 2^32); every
    operation that can leave that range is wrapped explicitly with [wrap32].
    Threads are interleaved at the granularity of their accesses to shared
    variables (sequentially consistent interleaving). *)

From Stdlib Require Import ZArith Lia Bool List Ascii String.
From coqutil Require Import Z.bitblast.
From stdpp Require Import base option list strings gmap.

Local Open Scope Z_scope.

(** ** Machine words *)

Module Word32.

Definition modulus : Z := 2 ^ 32.

(** Reduction of a mathematical integer to its [uint32_t] value. *)
Definition wrap32 (x : Z) : Z := x mod modulus.

(** [x >> n] on [uint32_t]. *)
Definition shr (x n : Z) : Z := Z.shiftr x n.

(** [x << n] on [uint32_t]: bits shifted past bit 31 are lost. *)
Definition shl (x n : Z) : Z := wrap32 (Z.shiftl x n).

(** [x - y] on [uint32_t]. *)
Definition sub (x y : Z) : Z := wrap32 (x - y).

(** [x + y] on [uint32_t]. *)
Definition add (x y : Z) : Z := wrap32 (x + y).

Definition is_u32 (x : Z) : Prop := 0 <= x < modulus.

End Word32.
Import Word32.

(** ** Frames and the field decoder *)

(** [struct Frame { uint32_t w[4]; }] : word 0 is the most significant. *)
Record Frame : Type := mkFrame { w0 : Z; w1 : Z; w2 : Z; w3 : Z }.

Definition wf_frame (fr : Frame) : Prop :=
  is_u32 (w0 fr) /\ is_u32 (w1 fr) /\ is_u32 (w2 fr) /\ is_u32 (w3 fr).

(** The nine output references of [decode_to_fields]. *)
Record Fields : Type := mkFields {
  src : Z; req_ts : Z; resp_ts : Z; addr : Z; data : Z;
  be : Z; we : Z; valid : Z; gnt : Z
}.

Definition decode_to_fields (fr : Frame) : Fields :=
  let w0 := w0 fr in
  let w1 := w1 fr in
  let w2 := w2 fr in
  let w3 := w3 fr in
  {| src     := Z.land (shr w0 28) 0xF;
     req_ts  := Z.lor (shl (Z.land w0 0x0FFFFFFF) 4) (shr w1 28);
     resp_ts := Z.land (shr w1 12) 0xFFFF;
     addr    := Z.lor (shl (Z.land w1 0xFFF) 20) (shr w2 12);
     data    := Z.lor (shl (Z.land w2 0xFFF) 20) (shr w3 12);
     be      := Z.land (shr w3 8) 0xF;
     we      := Z.land (shr w3 7) 0x1;
     valid   := Z.land (shr w3 6) 0x1;
     gnt     := Z.land (shr w3 5) 0x1 |}.

(** The inverse packing, written from the bit layout table of the design
    specification (section 3): each field is placed back at its source bits.
    [src] goes to w0[31:28], [req_ts] to w0[27:0] ++ w1[31:28], [resp_ts] to
    w1[27:12], [addr] to w1[11:0] ++ w2[31:12], [data] to w2[11:0] ++
    w3[31:12], [be] to w3[11:8], [we], [valid], [gnt] to w3[7], w3[6], w3[5].
    No field is assigned to w3[4:0]. *)
Definition encode_fields (f : Fields) : Frame :=
  {| w0 := Z.lor (shl (src f) 28) (shr (req_ts f) 4);
     w1 := Z.lor (Z.lor (shl (Z.land (req_ts f) 0xF) 28) (shl (resp_ts f) 12))
                 (shr (addr f) 20);
     w2 := Z.lor (shl (Z.land (addr f) 0xFFFFF) 12) (shr (data f) 20);
     w3 := Z.lor (Z.lor (Z.lor (Z.lor (shl (Z.land (data f) 0xFFFFF) 12)
                                      (shl (be f) 8))
                               (shl (we f) 7))
                        (shl (valid f) 6))
                 (shl (gnt f) 5) |}.

(** The frame with the five low bits of word 3, which no field covers,
    cleared. *)
Definition clear_pad (fr : Frame) : Frame :=
  {| w0 := w0 fr; w1 := w1 fr; w2 := w2 fr;
     w3 := Z.land (w3 fr) 0xFFFFFFE0 |}.

(** ** Ring indices *)

Definition RB_SIZE : Z := Z.shiftl 1 16.

Definition rb_used (h t : Z) : Z := Z.land (sub h t) (RB_SIZE - 1).

Definition rb_free (h t : Z) : Z := sub (RB_SIZE - 1) (rb_used h t).

(** [(i + 1) & (RB_SIZE - 1)], the successor of a ring index. *)
Definition rb_next (i : Z) : Z := Z.land (add i 1) (RB_SIZE - 1).

(** ** Output formats *)

Module Fmt.

Definition nl : string := String (ascii_of_nat 10) EmptyString.

(** Digit [d] of a base up to 16, upper case as [%X] prints it. *)
Definition digit_char (d : Z) : ascii :=
  if d <? 10 then ascii_of_nat (48 + Z.to_nat d)
  else ascii_of_nat (55 + Z.to_nat d).

(** The digits of [n] in [base], most significant first, prepended to
    [acc]; [fuel] bounds the number of digits. *)
Fixpoint digits (base : Z) (fuel : nat) (n : Z) (acc : string) : string :=
  match fuel with
  | O => acc
  | S fuel' =>
      let acc' := String (digit_char (n mod base)) acc in
      if n / base =? 0 then acc' else digits base fuel' (n / base) acc'
  end.

Fixpoint zeros (k : nat) : string :=
  match k with
  | O => EmptyString
  | S k' => String "0" (zeros k')
  end.

(** [%u] of an [unsigned]: at most ten decimal digits. *)
Definition fmt_u (n : Z) : string := digits 10 10 n EmptyString.

(** [%X] of an [unsigned]: at most eight hexadecimal digits. *)
Definition fmt_X (n : Z) : string := digits 16 8 n EmptyString.

(** [%0wX]: [%X] padded on the left with zeros to width [w]. *)
Definition fmt_0X (w : nat) (n : Z) : string :=
  let s := fmt_X n in zeros (w - String.length s) +:+ s.

(** ["src,req_ts,resp_ts,address,data,be,we,valid,gnt\n"] *)
Definition csv_header : string :=
  "src,req_ts,resp_ts,address,data,be,we,valid,gnt" +:+ nl.

(** ["%u,%u,%u,0x%08X,0x%08X,%X,%u,%u,%u\n"] *)
Definition csv_record (f : Fields) : string :=
  fmt_u (src f) +:+ "," +:+ fmt_u (req_ts f) +:+ "," +:+
  fmt_u (resp_ts f) +:+ ",0x" +:+ fmt_0X 8 (addr f) +:+ ",0x" +:+
  fmt_0X 8 (data f) +:+ "," +:+ fmt_X (be f) +:+ "," +:+
  fmt_u (we f) +:+ "," +:+ fmt_u (valid f) +:+ "," +:+ fmt_u (gnt f) +:+ nl.

(** ["src=%u ts=%08X/%04X addr=%08X data=%08X be=%X we=%u v%u g%u\n"] *)
Definition console_line (f : Fields) : string :=
  "src=" +:+ fmt_u (src f) +:+ " ts=" +:+ fmt_0X 8 (req_ts f) +:+ "/" +:+
  fmt_0X 4 (resp_ts f) +:+ " addr=" +:+ fmt_0X 8 (addr f) +:+ " data=" +:+
  fmt_0X 8 (data f) +:+ " be=" +:+ fmt_X (be f) +:+ " we=" +:+
  fmt_u (we f) +:+ " v" +:+ fmt_u (valid f) +:+ " g" +:+ fmt_u (gnt f) +:+ nl.

(** Number of newline characters, i.e. of complete lines. *)
Fixpoint count_lines (s : string) : nat :=
  match s with
  | EmptyString => O
  | String c s' =>
      if Ascii.eqb c (ascii_of_nat 10) then S (count_lines s')
      else count_lines s'
  end.

(** The four bytes of a [uint32_t] as [fwrite] finds them in memory on a
    little-endian host. *)
Definition word_bytes (w : Z) : list Z :=
  [Z.land w 0xFF; Z.land (shr w 8) 0xFF;
   Z.land (shr w 16) 0xFF; Z.land (shr w 24) 0xFF].

(** [fwrite(&fr, sizeof(Frame), 1, fbin)]: the sixteen bytes of the frame,
    word 0 first. *)
Definition frame_bytes (fr : Frame) : list Z :=
  word_bytes (w0 fr) ++ word_bytes (w1 fr) ++
  word_bytes (w2 fr) ++ word_bytes (w3 fr).

End Fmt.

(** ** Process environment *)

Module Libc.

Definition isspace (c : ascii) : bool :=
  let n := nat_of_ascii c in
  (Nat.eqb n 32 || (Nat.leb 9 n && Nat.leb n 13))%bool.

Definition isdigit (c : ascii) : bool :=
  let n := nat_of_ascii c in (Nat.leb 48 n && Nat.leb n 57)%bool.

Fixpoint skip_spaces (s : string) : string :=
  match s with
  | String c s' => if isspace c then skip_spaces s' else s
  | EmptyString => s
  end.

Fixpoint read_digits (acc : Z) (s : string) : Z :=
  match s with
  | String c s' =>
      if isdigit c
      then read_digits (10 * acc + (Z.of_nat (nat_of_ascii c) - 48)) s'
      else acc
  | EmptyString => acc
  end.

(** [atoi]: optional white space, optional sign, decimal digits.  The
    result is the mathematical value; C leaves values outside [int]
    undefined. *)
Definition atoi (s : string) : Z :=
  match skip_spaces s with
  | String "-" s' => - read_digits 0 s'
  | String "+" s' => read_digits 0 s'
  | s' => read_digits 0 s'
  end.

End Libc.

(** What the process finds around it when a session starts: the two
    environment variables read by [start_consumer], and whether [malloc] and
    the two [fopen] calls succeed. *)
Record Env : Type := mkEnv {
  SNIFFER_PRINT : option string;
  SNIFFER_PRINT_EVERY : option string;
  malloc_ok : bool;
  fopen_bin_ok : bool;
  fopen_csv_ok : bool
}.
(** ** Threads and the state of the process *)

(** Control points of the detached writer thread (the lambda of
    [start_consumer]), one per access to shared state. *)
Inductive WriterPc : Type :=
  | WCheck                 (* about to test [running] *)
  | WLoadTail              (* about to load [tail] *)
  | WLoadHead (t : Z)      (* about to load [head] *)
  | WLoop (t h : Z)        (* at the test [t != h] *)
  | WFlush                 (* [tail] stored; about to flush and sleep *)
  | WExit.                 (* the loop has ended *)

(** Control points of the simulator thread inside [sniffer_dpi_push] and
    [sniffer_dpi_close]. *)
Inductive ProducerPc : Type :=
  | PIdle
  | PushLoadTail (fr : Frame) (h : Z)   (* [head] loaded; about to load [tail] *)
  | PushCheck (fr : Frame) (h t : Z)    (* about to test [rb_free] and fill the slot *)
  | PushPublish (fr : Frame) (h : Z)    (* slot filled; about to store [head] *)
  | CloseSleep.                         (* [running] cleared; sleeping 5 ms *)

(** The globals of the translation unit, the two files, stderr, and the
    control points of the threads. *)
Record State : Type := mkState {
  ring : option (gmap Z Frame);
  head : Z;
  tail : Z;
  running : bool;
  fbin : option (list Z);
  fcsv : option string;
  print_enable : bool;
  print_every : Z;
  print_count : Z;
  env : Env;
  bin_file : option (list Z);
  csv_file : option string;
  console : list string;
  producer : ProducerPc;
  writers : list WriterPc
}.

Definition set_ring (v : option (gmap Z Frame)) (st : State) : State :=
  mkState v (head st) (tail st) (running st) (fbin st) (fcsv st) (print_enable st) (print_every st) (print_count st) (env st) (bin_file st) (csv_file st) (console st) (producer st) (writers st).

Definition set_head (v : Z) (st : State) : State :=
  mkState (ring st) v (tail st) (running st) (fbin st) (fcsv st) (print_enable st) (print_every st) (print_count st) (env st) (bin_file st) (csv_file st) (console st) (producer st) (writers st).

Definition set_tail (v : Z) (st : State) : State :=
  mkState (ring st) (head st) v (running st) (fbin st) (fcsv st) (print_enable st) (print_every st) (print_count st) (env st) (bin_file st) (csv_file st) (console st) (producer st) (writers st).

Definition set_running (v : bool) (st : State) : State :=
  mkState (ring st) (head st) (tail st) v (fbin st) (fcsv st) (print_enable st) (print_every st) (print_count st) (env st) (bin_file st) (csv_file st) (console st) (producer st) (writers st).

Definition set_fbin (v : option (list Z)) (st : State) : State :=
  mkState (ring st) (head st) (tail st) (running st) v (fcsv st) (print_enable st) (print_every st) (print_count st) (env st) (bin_file st) (csv_file st) (console st) (producer st) (writers st).

Definition set_fcsv (v : option string) (st : State) : State :=
  mkState (ring st) (head st) (tail st) (running st) (fbin st) v (print_enable st) (print_every st) (print_count st) (env st) (bin_file st) (csv_file st) (console st) (producer st) (writers st).

Definition set_print_enable (v : bool) (st : State) : State :=
  mkState (ring st) (head st) (tail st) (running st) (fbin st) (fcsv st) v (print_every st) (print_count st) (env st) (bin_file st) (csv_file st) (console st) (producer st) (writers st).

Definition set_print_every (v : Z) (st : State) : State :=
  mkState (ring st) (head st) (tail st) (running st) (fbin st) (fcsv st) (print_enable st) v (print_count st) (env st) (bin_file st) (csv_file st) (console st) (producer st) (writers st).

Definition set_print_count (v : Z) (st : State) : State :=
  mkState (ring st) (head st) (tail st) (running st) (fbin st) (fcsv st) (print_enable st) (print_every st) v (env st) (bin_file st) (csv_file st) (console st) (producer st) (writers st).

Definition set_bin_file (v : option (list Z)) (st : State) : State :=
  mkState (ring st) (head st) (tail st) (running st) (fbin st) (fcsv st) (print_enable st) (print_every st) (print_count st) (env st) v (csv_file st) (console st) (producer st) (writers st).

Definition set_csv_file (v : option string) (st : State) : State :=
  mkState (ring st) (head st) (tail st) (running st) (fbin st) (fcsv st) (print_enable st) (print_every st) (print_count st) (env st) (bin_file st) v (console st) (producer st) (writers st).

Definition set_console (v : list string) (st : State) : State :=
  mkState (ring st) (head st) (tail st) (running st) (fbin st) (fcsv st) (print_enable st) (print_every st) (print_count st) (env st) (bin_file st) (csv_file st) v (producer st) (writers st).

Definition set_producer (v : ProducerPc) (st : State) : State :=
  mkState (ring st) (head st) (tail st) (running st) (fbin st) (fcsv st) (print_enable st) (print_every st) (print_count st) (env st) (bin_file st) (csv_file st) (console st) v (writers st).

Definition set_writers (v : list WriterPc) (st : State) : State :=
  mkState (ring st) (head st) (tail st) (running st) (fbin st) (fcsv st) (print_enable st) (print_every st) (print_count st) (env st) (bin_file st) (csv_file st) (console st) (producer st) v.

(** ** The session: start, drain, push, close *)

Definition init (e : Env) : State :=
  {| ring := None; head := 0; tail := 0; running := false;
     fbin := None; fcsv := None;
     print_enable := false; print_every := 1; print_count := 0;
     env := e; bin_file := None; csv_file := None; console := [];
     producer := PIdle; writers := [] |}.

(** [getenv("SNIFFER_PRINT")]: [p && *p && p[0] != '0']. *)
Definition print_requested (e : Env) : bool :=
  match SNIFFER_PRINT e with
  | Some (String c _) => negb (Ascii.eqb c "0")
  | _ => false
  end.

(** [getenv("SNIFFER_PRINT_EVERY")]: [(unsigned)atoi(pe)], 0 when unset. *)
Definition print_every_requested (e : Env) : Z :=
  match SNIFFER_PRINT_EVERY e with
  | Some pe => wrap32 (Libc.atoi pe)
  | None => 0
  end.

(** [start_consumer], up to and including the creation of the thread.
    [None]: the process has called [abort]. *)
Definition start_consumer (st : State) : option State :=
  if running st then Some st else
  if negb (malloc_ok (env st)) then None else
  let st := set_ring (Some ∅) st in
  if negb (fopen_bin_ok (env st)) then None else
  let st := set_fbin (Some []) (set_bin_file (Some []) st) in
  if negb (fopen_csv_ok (env st)) then None else
  let st := set_fcsv (Some Fmt.csv_header) (set_csv_file (Some EmptyString) st) in
  let st := if print_requested (env st) then set_print_enable true st else st in
  let st := let v := print_every_requested (env st) in
            if v =? 0 then st else set_print_every v st in
  let st := set_running true st in
  Some (set_writers (writers st ++ [WCheck]) st).

(** Step 3 of the loop body: the sampled echo on stderr. *)
Definition console_echo (f : Fields) (st : State) : State :=
  if print_enable st then
    let st := set_print_count (add (print_count st) 1) st in
    if print_count st mod print_every st =? 0
    then set_console (console st ++ [Fmt.console_line f]) st
    else st
  else st.

(** The loop body for the frame read from [ring[t]]: binary record, CSV
    record, console.  [None]: a null [FILE*] is written to. *)
Definition drain_frame (fr : Frame) (st : State) : option State :=
  b ← fbin st;
  let st := set_fbin (Some (b ++ Fmt.frame_bytes fr)) st in
  let f := decode_to_fields fr in
  c ← fcsv st;
  let st := set_fcsv (Some (c +:+ Fmt.csv_record f)) st in
  Some (console_echo f st).

(** [fflush(fbin); fflush(fcsv);] *)
Definition flush_sinks (st : State) : option State :=
  b ← fbin st;
  c ← fcsv st;
  Some (set_csv_file (Some c) (set_bin_file (Some b) st)).

(** The three [if]s of [sniffer_dpi_close] after the sleep. *)
Definition close_release (st : State) : State :=
  let st := match fbin st with
            | Some b => set_fbin None (set_bin_file (Some b) st)
            | None => st
            end in
  let st := match fcsv st with
            | Some c => set_fcsv None (set_csv_file (Some c) st)
            | None => st
            end in
  match ring st with
  | Some _ => set_ring None st
  | None => st
  end.

(** [sniffer_dpi_close] run without interruption. *)
Definition sniffer_dpi_close (st : State) : State :=
  close_release (set_running false st).

(** [ring[h].w[0..3] = w0..w3]. [None]: [ring] is null. *)
Definition store_frame (h : Z) (fr : Frame) (st : State) : option State :=
  r ← ring st;
  Some (set_ring (Some (<[h := fr]> r)) st).

(** [sniffer_dpi_push] run without interruption; the result is the new
    state and the returned [int]. *)
Definition sniffer_dpi_push (st : State) (stream_id nwords : Z)
    (w0 w1 w2 w3 : Z) : option (State * Z) :=
  if negb (nwords =? 4) then Some (st, 0) else
  st ← (match ring st with None => start_consumer st | Some _ => Some st end);
  let h := head st in
  let t := tail st in
  if rb_free h t =? 0 then Some (st, 0) else
  st ← store_frame h (mkFrame w0 w1 w2 w3) st;
  Some (set_head (rb_next h) st, 1).

(** ** Interleaved execution *)

(** What a step lets the outside observe. *)
Inductive Label : Type :=
  | PushRet (fr : Frame) (ret : Z)   (* [sniffer_dpi_push] returned [ret] for [fr] *)
  | CloseRet                         (* [sniffer_dpi_close] returned *)
  | Drained (fr : Frame).            (* the writer ran its loop body on [fr] *)

(** What the scheduler may pick. *)
Inductive Action : Type :=
  | CallPush (stream_id nwords w0 w1 w2 w3 : Z)
  | CallClose
  | Producer           (* the simulator thread goes on inside its call *)
  | Writer (i : nat).  (* the [i]-th writer thread takes a step *)

(** Entry of [sniffer_dpi_push] up to the load of [head]. *)
Definition call_push (st : State) (nwords : Z) (fr : Frame)
    : option (State * list Label) :=
  match producer st with
  | PIdle =>
      if negb (nwords =? 4) then Some (st, [PushRet fr 0]) else
      st ← (match ring st with None => start_consumer st | Some _ => Some st end);
      Some (set_producer (PushLoadTail fr (head st)) st, [])
  | _ => None
  end.

(** Entry of [sniffer_dpi_close] up to the sleep. *)
Definition call_close (st : State) : option (State * list Label) :=
  match producer st with
  | PIdle => Some (set_producer CloseSleep (set_running false st), [])
  | _ => None
  end.

Definition producer_step (st : State) : option (State * list Label) :=
  match producer st with
  | PIdle => None
  | PushLoadTail fr h =>
      Some (set_producer (PushCheck fr h (tail st)) st, [])
  | PushCheck fr h t =>
      if rb_free h t =? 0 then Some (set_producer PIdle st, [PushRet fr 0]) else
      st ← store_frame h fr st;
      Some (set_producer (PushPublish fr h) st, [])
  | PushPublish fr h =>
      Some (set_producer PIdle (set_head (rb_next h) st), [PushRet fr 1])
  | CloseSleep =>
      Some (set_producer PIdle (close_release st), [CloseRet])
  end.

(** One step of a writer thread standing at [pc]. [None]: the thread has
    ended, or its step has no defined behaviour (null or freed [ring], slot
    never written, null [FILE*]). *)
Definition writer_step (st : State) (pc : WriterPc)
    : option (State * WriterPc * list Label) :=
  match pc with
  | WCheck => Some (st, if running st then WLoadTail else WExit, [])
  | WLoadTail => Some (st, WLoadHead (tail st), [])
  | WLoadHead t => Some (st, WLoop t (head st), [])
  | WLoop t h =>
      if t =? h then Some (set_tail t st, WFlush, []) else
      r ← ring st;
      fr ← r !! t;
      st ← drain_frame fr st;
      Some (st, WLoop (rb_next t) h, [Drained fr])
  | WFlush => st ← flush_sinks st; Some (st, WCheck, [])
  | WExit => None
  end.

Definition step (st : State) (a : Action) : option (State * list Label) :=
  match a with
  | CallPush _ nwords w0 w1 w2 w3 => call_push st nwords (mkFrame w0 w1 w2 w3)
  | CallClose => call_close st
  | Producer => producer_step st
  | Writer i =>
      pc ← writers st !! i;
      r ← writer_step st pc;
      Some (set_writers (<[i := r.1.2]> (writers r.1.1)) r.1.1, r.2)
  end.

(** Run a schedule; the labels come out in the order they were emitted. *)
Fixpoint exec (sched : list Action) (st : State) : option (State * list Label) :=
  match sched with
  | [] => Some (st, [])
  | a :: sched' =>
      r ← step st a;
      r' ← exec sched' r.1;
      Some (r'.1, r.2 ++ r'.2)
  end.

(** The frames whose push returned 1, and the frames the writer has put
    through its loop body, both oldest first. *)
Definition accepted (labs : list Label) : list Frame :=
  omap (λ l, match l with PushRet fr 1 => Some fr | _ => None end) labs.

Definition drained (labs : list Label) : list Frame :=
  omap (λ l, match l with Drained fr => Some fr | _ => None end) labs.

Definition is_close (a : Action) : bool :=
  match a with CallClose => true | _ => false end.

(** A schedule inside one session: [sniffer_dpi_close] is not called. *)
Definition no_close (sched : list Action) : bool :=
  forallb (λ a, negb (is_close a)) sched.

(** The frames whose index (counted from 1) is a multiple of [p]. *)
Definition sampled (p : Z) (frames : list Frame) : list Frame :=
  omap (λ x, if (Z.of_nat (S x.1)) mod p =? 0 then Some x.2 else None)
       (imap (λ i fr, (i, fr)) frames).

(** Schedules used as running examples: two frames pushed and drained one
    after the other. *)
Definition example_env : Env :=
  mkEnv (Some "1"%string) (Some "2"%string) true true true.

Definition example_schedule : list Action :=
  [CallPush 0 4 0xA0000000 0 0 0xE0; Producer; Producer; Producer;
   Writer 0; Writer 0; Writer 0; Writer 0; Writer 0;
   CallPush 0 4 1 2 3 4; Producer; Writer 0; Producer; Producer;
   Writer 0; Writer 0; Writer 0; Writer 0; Writer 0].

(** The session a first push starts when SNIFFER_PRINT=1 and
    SNIFFER_PRINT_EVERY=3. *)
Definition every_third_env : Env :=
  mkEnv (Some "1"%string) (Some "3"%string) true true true.

(** ** Vocabulary of the session properties *)

(** The ring index of the [n]-th accepted frame, counted from 0. *)
Definition slot (n : nat) : Z := Z.of_nat n mod 65536.

(** The CSV records of a sequence of frames, one line each. *)
Fixpoint csv_text (frames : list Frame) : string :=
  match frames with
  | [] => EmptyString
  | fr :: frames' => Fmt.csv_record (decode_to_fields fr) +:+ csv_text frames'
  end.

(** The binary records of a sequence of frames. *)
Definition bin_bytes (frames : list Frame) : list Z :=
  concat (map Fmt.frame_bytes frames).

(** The console lines of a sequence of frames. *)
Definition console_lines (frames : list Frame) : list string :=
  map (λ fr, Fmt.console_line (decode_to_fields fr)) frames.

(** The loop body run on [n] copies of [fr], for counts beyond what a
    schedule can list. *)
Definition drain_many (n : N) (fr : Frame) (st : State) : option State :=
  N.iter n (λ o, o ≫= drain_frame fr) (Some st).

(** No session yet: the state [init] leaves behind. *)
Definition idle_inv (st : State) (A D : list Frame) : Prop :=
  ring st = None /\ writers st = [] /\ producer st = PIdle /\
  A = [] /\ D = [] /\ fbin st = None /\ fcsv st = None /\
  running st = false /\ head st = 0 /\ tail st = 0 /\
  print_count st = 0 /\ console st = [] /\ print_every st = 1 /\
  print_enable st = false.

(** Where the writer stands, against the number [nt] of frames its stored
    [tail] accounts for, the number [nd] it has drained, and the number [np]
    of frames accepted. *)
Definition writer_inv (st : State) (pc : WriterPc) (nt nd np : nat) : Prop :=
  match pc with
  | WCheck | WLoadTail | WFlush => nt = nd
  | WLoadHead t => nt = nd /\ t = tail st
  | WLoop t h => t = slot nd /\ exists nh, h = slot nh /\ (nd <= nh <= np)%nat
  | WExit => False
  end.

(** Where the producer stands: the [tail] it has loaded may be stale but is
    never ahead, and a filled slot is one the writer is not reading. *)
Definition producer_inv (st : State) (r : gmap Z Frame) (nt np : nat) : Prop :=
  match producer st with
  | PIdle => True
  | PushLoadTail _ h => h = head st
  | PushCheck _ h t =>
      h = head st /\ exists n0, t = slot n0 /\ (n0 <= nt)%nat /\
      Z.of_nat np <= Z.of_nat n0 + 65535
  | PushPublish fr h =>
      h = head st /\ Z.of_nat np < Z.of_nat nt + 65535 /\ r !! h = Some fr
  | CloseSleep => False
  end.

Definition sinks_inv (st : State) (D : list Frame) : Prop :=
  fbin st = Some (bin_bytes D) /\
  fcsv st = Some (Fmt.csv_header +:+ csv_text D).

Definition console_inv (st : State) (D : list Frame) : Prop :=
  1 <= print_every st /\
  (print_enable st = true ->
   print_count st = wrap32 (Z.of_nat (length D)) /\
   (Z.of_nat (length D) < modulus ->
    console st = console_lines (sampled (print_every st) D))).

(** A running session in which [A] has been accepted and [D] drained. *)
Definition session_inv (st : State) (A D : list Frame) : Prop :=
  exists r pc nt,
    ring st = Some r /\ writers st = [pc] /\ running st = true /\
    head st = slot (length A) /\ tail st = slot nt /\
    (nt <= length D <= length A)%nat /\
    Z.of_nat (length A) <= Z.of_nat nt + 65535 /\
    D = take (length D) A /\
    (forall i, (length D <= i < length A)%nat -> r !! slot i = A !! i) /\
    writer_inv st pc nt (length D) (length A) /\
    producer_inv st r nt (length A) /\
    sinks_inv st D /\ console_inv st D.

Definition Inv (st : State) (A D : list Frame) : Prop :=
  idle_inv st A D \/ session_inv st A D.

(** The control point a writer step leads to. *)
Definition next_pc (st : State) (pc : WriterPc) : WriterPc :=
  match pc with
  | WCheck => if running st then WLoadTail else WExit
  | WLoadTail => WLoadHead (tail st)
  | WLoadHead t => WLoop t (head st)
  | WLoop t h => if t =? h then WFlush else WLoop (rb_next t) h
  | WFlush => WCheck
  | WExit => WExit
  end.

(** The loop body and the flush touch the sinks and the console only. *)
Definition same_shared (st st1 : State) : Prop :=
  ring st1 = ring st /\ head st1 = head st /\ tail st1 = tail st /\
  running st1 = running st /\ producer st1 = producer st /\
  writers st1 = writers st /\ print_enable st1 = print_enable st /\
  print_every st1 = print_every st /\ env st1 = env st.

(** [k] steps of the writer alone take [st], with [D] drained, to [st'] with
    [D'] drained, without a push being accepted meanwhile. *)
Definition quiet (A : list Frame) (st : State) (D : list Frame) (k : nat)
    (st' : State) (D' : list Frame) : Prop :=
  exists labs,
    exec (replicate k (Writer 0)) st = Some (st', labs) /\
    accepted labs = [] /\ D' = D ++ drained labs /\
    session_inv st' A D' /\ head st' = head st /\ producer st' = producer st.

(** ** Vocabulary of the further properties *)

(** Field values within the widths the frame layout gives them. *)
Definition wf_fields (f : Fields) : Prop :=
  0 <= src f < 16 /\ is_u32 (req_ts f) /\ 0 <= resp_ts f < 65536 /\
  is_u32 (addr f) /\ is_u32 (data f) /\ 0 <= be f < 16 /\
  0 <= we f < 2 /\ 0 <= valid f < 2 /\ 0 <= gnt f < 2.

(** A valid ring index. *)
Definition idx (i : Z) : Prop := 0 <= i < RB_SIZE.

(** Number of occurrences of a character. *)
Fixpoint count_char (c : ascii) (s : string) : nat :=
  match s with
  | EmptyString => O
  | String a s' => if Ascii.eqb a c then S (count_char c s') else count_char c s'
  end.

(** [sniffer_dpi_push] called on each frame of a list in turn, nothing
    running in between; the returned values come out in order. *)
Fixpoint push_all (frames : list Frame) (st : State) : option (State * list Z) :=
  match frames with
  | [] => Some (st, [])
  | fr :: frames' =>
      r ← sniffer_dpi_push st 0 4 (w0 fr) (w1 fr) (w2 fr) (w3 fr);
      r' ← push_all frames' r.1;
      Some (r'.1, r.2 :: r'.2)
  end.

Definition writer_pc_ok (pc : WriterPc) : Prop :=
  match pc with
  | WLoadHead t => idx t
  | WLoop t h => idx t /\ idx h
  | _ => True
  end.

Definition producer_pc_ok (pc : ProducerPc) : Prop :=
  match pc with
  | PushLoadTail _ h => idx h
  | PushCheck _ h t => idx h /\ idx t
  | PushPublish _ h => idx h
  | _ => True
  end.

(** What holds of the indices and of the print counters in every state,
    whatever is called and however the threads are scheduled. *)
Definition bounds_inv (st : State) : Prop :=
  idx (head st) /\ idx (tail st) /\
  1 <= print_every st < modulus /\ 0 <= print_count st < modulus /\
  producer_pc_ok (producer st) /\ Forall writer_pc_ok (writers st) /\
  (forall r i fr, ring st = Some r -> r !! i = Some fr -> idx i).

(** A second push caught between its load of [tail] and its store, while
    the writer is inside a pass. *)
Definition mid_push_schedule : list Action :=
  [CallPush 0 4 1 0 0 0; Producer; Producer; Producer;
   Writer 0; Writer 0; Writer 0;
   CallPush 0 4 2 0 0 0; Producer].

(** A session that is started, drained, closed and started again. *)
Definition restart_schedule : list Action :=
  [CallPush 0 4 0xA0000000 0 0 0xE0; Producer; Producer; Producer;
   Writer 0; Writer 0; Writer 0; Writer 0; Writer 0; Writer 0;
   CallClose; Writer 0; Producer;
   CallPush 0 4 1 2 3 4; Producer; Producer; Producer;
   Writer 1; Writer 1; Writer 1; Writer 1].

(** Two frames pushed while the writer sleeps at the top of its loop. *)
Definition undrained_schedule : list Action :=
  [CallPush 0 4 1 0 0 0; Producer; Producer; Producer;
   CallPush 0 4 2 0 0 0; Producer; Producer; Producer].

(** One frame pushed, and the writer stopped inside its pass just before the
    loop body. *)
Definition mid_pass_schedule : list Action :=
  [CallPush 0 4 1 0 0 0; Producer; Producer; Producer;
   Writer 0; Writer 0; Writer 0].

(** One frame pushed and drained, and the writer stopped at the end of its
    pass, before the two [fflush] calls. *)
Definition pass_end_schedule : list Action :=
  [CallPush 0 4 1 0 0 0; Producer; Producer; Producer;
   Writer 0; Writer 0; Writer 0; Writer 0; Writer 0].

(** Reading a printed number back: the value of a digit as [%u] and [%X]
    print it, and the value of a digit string in [base], most significant
    digit first, continuing from [v]. *)
Definition digit_val (c : ascii) : Z :=
  let k := Z.of_nat (nat_of_ascii c) in
  if k <? 58 then k - 48 else k - 55.

Fixpoint str_val (base v : Z) (s : string) : Z :=
  match s with
  | EmptyString => v
  | String c s' => str_val base (v * base + digit_val c) s'
  end.

(** ** The earlier variant of the same unit (hw/ip/bus_sniffer/rtl/bus_sniffer_dpi.cc)

    One binary sink [fout], no CSV, no console, and no check of [malloc] or
    [fopen].  The ring indices, [rb_used], [rb_free] and the frame layout are
    those of the unit above and are shared. *)

Module Rtl.

(** The globals [ring], [head], [tail], [running], [fout]; the file
    sniffer_frames.bin as of the last flush; the control points of the
    threads. *)
Record State : Type := mkState {
  ring : option (gmap Z Frame);
  head : Z;
  tail : Z;
  running : bool;
  fout : option (list Z);
  env : Env;
  out_file : option (list Z);
  producer : ProducerPc;
  writers : list WriterPc
}.

Definition set_ring (v : option (gmap Z Frame)) (st : State) : State :=
  mkState v (head st) (tail st) (running st) (fout st) (env st) (out_file st) (producer st) (writers st).

Definition set_head (v : Z) (st : State) : State :=
  mkState (ring st) v (tail st) (running st) (fout st) (env st) (out_file st) (producer st) (writers st).

Definition set_tail (v : Z) (st : State) : State :=
  mkState (ring st) (head st) v (running st) (fout st) (env st) (out_file st) (producer st) (writers st).

Definition set_running (v : bool) (st : State) : State :=
  mkState (ring st) (head st) (tail st) v (fout st) (env st) (out_file st) (producer st) (writers st).

Definition set_fout (v : option (list Z)) (st : State) : State :=
  mkState (ring st) (head st) (tail st) (running st) v (env st) (out_file st) (producer st) (writers st).

Definition set_out_file (v : option (list Z)) (st : State) : State :=
  mkState (ring st) (head st) (tail st) (running st) (fout st) (env st) v (producer st) (writers st).

Definition set_producer (v : ProducerPc) (st : State) : State :=
  mkState (ring st) (head st) (tail st) (running st) (fout st) (env st) (out_file st) v (writers st).

Definition set_writers (v : list WriterPc) (st : State) : State :=
  mkState (ring st) (head st) (tail st) (running st) (fout st) (env st) (out_file st) (producer st) v.

Definition init (e : Env) : State :=
  {| ring := None; head := 0; tail := 0; running := false;
     fout := None; env := e; out_file := None;
     producer := PIdle; writers := [] |}.

(** [start_consumer]: the results of [malloc] and [fopen] are stored as they
    come, null included. *)
Definition start_consumer (st : State) : State :=
  if running st then st else
  let st := set_ring (if malloc_ok (env st) then Some ∅ else None) st in
  let st := if fopen_bin_ok (env st)
            then set_fout (Some []) (set_out_file (Some []) st)
            else set_fout None st in
  let st := set_running true st in
  set_writers (writers st ++ [WCheck]) st.

(** The loop body: [fwrite(&ring[t], sizeof(Frame), 1, fout)]. *)
Definition drain_frame (fr : Frame) (st : State) : option State :=
  b ← fout st;
  Some (set_fout (Some (b ++ Fmt.frame_bytes fr)) st).

(** [fflush(fout)] *)
Definition flush_sinks (st : State) : option State :=
  b ← fout st;
  Some (set_out_file (Some b) st).

Definition close_release (st : State) : State :=
  let st := match fout st with
            | Some b => set_fout None (set_out_file (Some b) st)
            | None => st
            end in
  match ring st with
  | Some _ => set_ring None st
  | None => st
  end.

Definition sniffer_dpi_close (st : State) : State :=
  close_release (set_running false st).

Definition store_frame (h : Z) (fr : Frame) (st : State) : option State :=
  r ← ring st;
  Some (set_ring (Some (<[h := fr]> r)) st).

Definition sniffer_dpi_push (st : State) (stream_id nwords : Z)
    (w0 w1 w2 w3 : Z) : option (State * Z) :=
  if negb (nwords =? 4) then Some (st, 0) else
  let st := match ring st with None => start_consumer st | Some _ => st end in
  let h := head st in
  let t := tail st in
  if rb_free h t =? 0 then Some (st, 0) else
  st ← store_frame h (mkFrame w0 w1 w2 w3) st;
  Some (set_head (rb_next h) st, 1).

Definition call_push (st : State) (nwords : Z) (fr : Frame)
    : option (State * list Label) :=
  match producer st with
  | PIdle =>
      if negb (nwords =? 4) then Some (st, [PushRet fr 0]) else
      let st := match ring st with None => start_consumer st | Some _ => st end in
      Some (set_producer (PushLoadTail fr (head st)) st, [])
  | _ => None
  end.

Definition call_close (st : State) : option (State * list Label) :=
  match producer st with
  | PIdle => Some (set_producer CloseSleep (set_running false st), [])
  | _ => None
  end.

Definition producer_step (st : State) : option (State * list Label) :=
  match producer st with
  | PIdle => None
  | PushLoadTail fr h =>
      Some (set_producer (PushCheck fr h (tail st)) st, [])
  | PushCheck fr h t =>
      if rb_free h t =? 0 then Some (set_producer PIdle st, [PushRet fr 0]) else
      st ← store_frame h fr st;
      Some (set_producer (PushPublish fr h) st, [])
  | PushPublish fr h =>
      Some (set_producer PIdle (set_head (rb_next h) st), [PushRet fr 1])
  | CloseSleep =>
      Some (set_producer PIdle (close_release st), [CloseRet])
  end.

Definition writer_step (st : State) (pc : WriterPc)
    : option (State * WriterPc * list Label) :=
  match pc with
  | WCheck => Some (st, if running st then WLoadTail else WExit, [])
  | WLoadTail => Some (st, WLoadHead (tail st), [])
  | WLoadHead t => Some (st, WLoop t (head st), [])
  | WLoop t h =>
      if t =? h then Some (set_tail t st, WFlush, []) else
      r ← ring st;
      fr ← r !! t;
      st ← drain_frame fr st;
      Some (st, WLoop (rb_next t) h, [Drained fr])
  | WFlush => st ← flush_sinks st; Some (st, WCheck, [])
  | WExit => None
  end.

Definition step (st : State) (a : Action) : option (State * list Label) :=
  match a with
  | CallPush _ nwords w0 w1 w2 w3 => call_push st nwords (mkFrame w0 w1 w2 w3)
  | CallClose => call_close st
  | Producer => producer_step st
  | Writer i =>
      pc ← writers st !! i;
      r ← writer_step st pc;
      Some (set_writers (<[i := r.1.2]> (writers r.1.1)) r.1.1, r.2)
  end.

Fixpoint exec (sched : list Action) (st : State) : option (State * list Label) :=
  match sched with
  | [] => Some (st, [])
  | a :: sched' =>
      r ← step st a;
      r' ← exec sched' r.1;
      Some (r'.1, r.2 ++ r'.2)
  end.

End Rtl.

(** The state of the later unit seen through the globals the earlier one
    has: the [FILE*] of the binary sink for [fout]. *)
Definition same_binary_path (st : State) (rt : Rtl.State) : Prop :=
  ring st = Rtl.ring rt /\ head st = Rtl.head rt /\ tail st = Rtl.tail rt /\
  running st = Rtl.running rt /\ fbin st = Rtl.fout rt /\
  bin_file st = Rtl.out_file rt /\ env st = Rtl.env rt /\
  producer st = Rtl.producer rt /\ writers st = Rtl.writers rt /\
  (fbin st = None <-> fcsv st = None).

(** Two runs that end alike: both undefined or aborted, or both in states
    that agree on the binary path, with the same observations. *)
Definition same_outcome (o : option (State * list Label))
    (ro : option (Rtl.State * list Label)) : Prop :=
  match o, ro with
  | Some (st, labs), Some (rt, rlabs) => same_binary_path st rt /\ labs = rlabs
  | None, None => True
  | _, _ => False
  end.

(** [malloc] and both [fopen] calls succeed. *)
Definition resources_ok (e : Env) : Prop :=
  malloc_ok e = true /\ fopen_bin_ok e = true /\ fopen_csv_ok e = true.
Example decode_example :
  decode_to_fields (mkFrame 0x12345678 0x9ABCDEF0 0x0FEDCBA9 0x87654321)
  = mkFields 0x1 0x23456789 0xABCD 0xEF00FEDC 0xBA987654 0x3 0 0 1.
Proof. reflexivity. Qed.

Section DecoderBits.

Lemma wrap32_land x : wrap32 x = Z.land x (Z.ones 32).
Proof. unfold wrap32, modulus. now rewrite Z.land_ones by lia. Qed.

Lemma is_u32_bits x : is_u32 x -> x = Z.land x (Z.ones 32).
Proof.
  unfold is_u32, modulus. intros H.
  rewrite Z.land_ones by lia. now rewrite Z.mod_small.
Qed.

Lemma land_ones_range x n : 0 <= n -> 0 <= Z.land x (Z.ones n) < 2 ^ n.
Proof. intros Hn. rewrite Z.land_ones by lia. apply Z.mod_pos_bound. lia. Qed.

End DecoderBits.

(** ** Properties of the decoder *)

Section DecoderProperties.

Lemma wf_frame_u32 fr :
  wf_frame fr ->
  w0 fr = Z.land (w0 fr) (Z.ones 32) /\ w1 fr = Z.land (w1 fr) (Z.ones 32) /\
  w2 fr = Z.land (w2 fr) (Z.ones 32) /\ w3 fr = Z.land (w3 fr) (Z.ones 32).
Proof. intros (H0 & H1 & H2 & H3). auto using is_u32_bits. Qed.

(** Masks of the decoder and of the packing as runs of ones. *)
Ltac masks_as_ones :=
  change 0xFFFFFFE0 with (Z.shiftl (Z.ones 27) 5);
  change 0x0FFFFFFF with (Z.ones 28);
  change 0xFFFFF with (Z.ones 20);
  change 0xFFFF with (Z.ones 16);
  change 0xFFF with (Z.ones 12);
  change 0xF with (Z.ones 4);
  change (Z.land ?x 0x1) with (Z.land x (Z.ones 1)).

Ltac word_bits :=
  unfold shl, shr; rewrite ?wrap32_land; masks_as_ones;
  Z.bitblast; repeat Z.bitblast_core.

Lemma fits_u32 x : x = Z.land x (Z.ones 32) -> is_u32 x.
Proof. intros ->. apply (land_ones_range x 32). lia. Qed.

Lemma splice4_u32 a b :
  is_u32 (Z.lor (shl a 4) (shr (Z.land b (Z.ones 32)) 28)).
Proof. apply fits_u32. word_bits. Qed.

Lemma splice20_u32 a b :
  is_u32 (Z.lor (shl a 20) (shr (Z.land b (Z.ones 32)) 12)).
Proof. apply fits_u32. word_bits. Qed.

Lemma decode_ranges fr :
  wf_frame fr ->
  is_u32 (req_ts (decode_to_fields fr)) /\
  is_u32 (addr (decode_to_fields fr)) /\
  is_u32 (data (decode_to_fields fr)).
Proof.
  intros Hwf. destruct (wf_frame_u32 fr Hwf) as (_ & E1 & E2 & E3).
  unfold decode_to_fields; cbn [req_ts addr data].
  rewrite E1 at 1. rewrite E2 at 1. rewrite E3 at 1.
  split; [|split].
  - apply splice4_u32.
  - apply splice20_u32.
  - apply splice20_u32.
Qed.

Lemma mask_range x n m : 0 <= n -> m = 2 ^ n -> 0 <= Z.land x (m - 1) < m.
Proof.
  intros Hn ->. replace (2 ^ n - 1) with (Z.ones n).
  - now apply land_ones_range.
  - rewrite Z.ones_equiv. lia.
Qed.

Lemma flag_range x : Z.land x 1 = 0 \/ Z.land x 1 = 1.
Proof. pose proof (mask_range x 1 2). change (2 - 1) with 1 in H. lia. Qed.

Ltac u32_inputs :=
  repeat match goal with
         | H : is_u32 ?x |- _ => rewrite (is_u32_bits x H); clear H
         end.

Lemma pack_w0 a b :
  is_u32 a -> is_u32 b ->
  Z.lor (shl (Z.land (shr a 28) 0xF) 28)
        (shr (Z.lor (shl (Z.land a 0x0FFFFFFF) 4) (shr b 28)) 4) = a.
Proof. intros Ha Hb. u32_inputs. word_bits. Qed.

Lemma pack_w1 a b c :
  is_u32 a -> is_u32 b -> is_u32 c ->
  Z.lor (Z.lor (shl (Z.land (Z.lor (shl (Z.land a 0x0FFFFFFF) 4) (shr b 28)) 0xF) 28)
               (shl (Z.land (shr b 12) 0xFFFF) 12))
        (shr (Z.lor (shl (Z.land b 0xFFF) 20) (shr c 12)) 20) = b.
Proof. intros Ha Hb Hc. u32_inputs. word_bits. Qed.

Lemma pack_w2 b c d :
  is_u32 b -> is_u32 c -> is_u32 d ->
  Z.lor (shl (Z.land (Z.lor (shl (Z.land b 0xFFF) 20) (shr c 12)) 0xFFFFF) 12)
        (shr (Z.lor (shl (Z.land c 0xFFF) 20) (shr d 12)) 20) = c.
Proof. intros Hb Hc Hd. u32_inputs. word_bits. Qed.

Lemma pack_w3 c d :
  is_u32 c -> is_u32 d ->
  Z.lor (Z.lor (Z.lor (Z.lor
    (shl (Z.land (Z.lor (shl (Z.land c 0xFFF) 20) (shr d 12)) 0xFFFFF) 12)
    (shl (Z.land (shr d 8) 0xF) 8))
    (shl (Z.land (shr d 7) 0x1) 7))
    (shl (Z.land (shr d 6) 0x1) 6))
    (shl (Z.land (shr d 5) 0x1) 5)
  = Z.land d 0xFFFFFFE0.
Proof. intros Hc Hd. u32_inputs. word_bits. Qed.

Lemma encode_decode_clear_pad fr :
  wf_frame fr -> encode_fields (decode_to_fields fr) = clear_pad fr.
Proof.
  destruct fr as [a b c d]. intros (H0 & H1 & H2 & H3).
  cbn [w0 w1 w2 w3] in H0, H1, H2, H3.
  unfold encode_fields, clear_pad, decode_to_fields.
  cbn [w0 w1 w2 w3 src req_ts resp_ts addr data be we valid gnt].
  rewrite (pack_w0 a b H0 H1), (pack_w1 a b c H0 H1 H2),
          (pack_w2 b c d H1 H2 H3), (pack_w3 c d H2 H3).
  reflexivity.
Qed.

Lemma pad_sum x : is_u32 x -> Z.land x 0xFFFFFFE0 + Z.land x 0x1F = x.
Proof.
  intros Hx. rewrite <- Z.or_to_plus.
  - rewrite (is_u32_bits x Hx).
    change 0x1F with (Z.ones 5). change 0xFFFFFFE0 with (Z.shiftl (Z.ones 27) 5).
    Z.bitblast; repeat Z.bitblast_core.
  - change 0x1F with (Z.ones 5). change 0xFFFFFFE0 with (Z.shiftl (Z.ones 27) 5).
    Z.bitblast; repeat Z.bitblast_core.
Qed.

Lemma clear_pad_fixed fr :
  wf_frame fr -> (clear_pad fr = fr <-> Z.land (w3 fr) 0x1F = 0).
Proof.
  destruct fr as [a b c d]. intros (_ & _ & _ & H3); cbn [w3] in H3.
  unfold clear_pad; cbn [w0 w1 w2 w3]. pose proof (pad_sum d H3) as Hs.
  split.
  - intros E. injection E as E. lia.
  - intros E. f_equal. lia.
Qed.

Lemma decode_bounds fr :
  wf_frame fr ->
  let f := decode_to_fields fr in
  0 <= src f < 16 /\ 0 <= resp_ts f < 65536 /\ 0 <= be f < 16 /\
  (we f = 0 \/ we f = 1) /\ (valid f = 0 \/ valid f = 1) /\
  (gnt f = 0 \/ gnt f = 1) /\
  is_u32 (req_ts f) /\ is_u32 (addr f) /\ is_u32 (data f).
Proof.
  intros Hwf f. pose proof (decode_ranges fr Hwf) as (Hr & Ha & Hd).
  subst f. unfold decode_to_fields in *.
  cbn [src req_ts resp_ts addr data be we valid gnt] in *.
  split; [apply (mask_range _ 4 16); [lia | reflexivity] |].
  split; [apply (mask_range _ 16 65536); [lia | reflexivity] |].
  split; [apply (mask_range _ 4 16); [lia | reflexivity] |].
  do 3 (split; [apply flag_range |]).
  auto.
Qed.

End DecoderProperties.

Example decode_not_injective :
  decode_to_fields (mkFrame 0 0 0 1) = decode_to_fields (mkFrame 0 0 0 0).
Proof. reflexivity. Qed.

(** C10. Every decoded field stays within its declared width: source id
    below 16, response timestamp below 65536, byte enable below 16, the
    three flags 0 or 1; request timestamp, address and data are 32-bit
    values. *)
Theorem decoded_fields_respect_widths (fr : Frame) :
  wf_frame fr ->
  0 <= src (decode_to_fields fr) < 16 /\
  0 <= resp_ts (decode_to_fields fr) < 65536 /\
  0 <= be (decode_to_fields fr) < 16 /\
  (we (decode_to_fields fr) = 0 \/ we (decode_to_fields fr) = 1) /\
  (valid (decode_to_fields fr) = 0 \/ valid (decode_to_fields fr) = 1) /\
  (gnt (decode_to_fields fr) = 0 \/ gnt (decode_to_fields fr) = 1) /\
  is_u32 (req_ts (decode_to_fields fr)) /\
  is_u32 (addr (decode_to_fields fr)) /\
  is_u32 (data (decode_to_fields fr)).
Proof. intros Hwf. exact (decode_bounds fr Hwf). Qed.

Lemma decoded_fields_respect_widths_witness :
  wf_frame (mkFrame 0xFFFFFFFF 0x9ABCDEF0 0x0FEDCBA9 0xFFFFFFFF) /\
  0 <= src (decode_to_fields (mkFrame 0xFFFFFFFF 0x9ABCDEF0 0x0FEDCBA9 0xFFFFFFFF)) < 16.
Proof.
  assert (Hwf : wf_frame (mkFrame 0xFFFFFFFF 0x9ABCDEF0 0x0FEDCBA9 0xFFFFFFFF))
    by (unfold wf_frame, is_u32, modulus; cbn; lia).
  split; [exact Hwf |].
  exact (proj1 (decoded_fields_respect_widths _ Hwf)).
Defined.

(** C3 as stated fails: the frame whose only set bit is bit 0 of word 3 is
    not reproduced by packing its decoded fields. *)
Lemma roundtrip_loses_low_bits_of_w3 :
  wf_frame (mkFrame 0 0 0 1) /\
  encode_fields (decode_to_fields (mkFrame 0 0 0 1)) <> mkFrame 0 0 0 1.
Proof.
  split.
  - unfold wf_frame, is_u32, modulus; cbn; lia.
  - vm_compute. discriminate.
Qed.

(** C3, amended. Decoding is a total function of the frame, and packing the
    nine decoded fields back at their bit positions reproduces the frame with
    bits 4..0 of word 3 cleared; it reproduces the frame itself exactly when
    those five bits are zero. *)
Theorem encode_decode_roundtrip (fr : Frame) :
  wf_frame fr ->
  encode_fields (decode_to_fields fr) = clear_pad fr /\
  (encode_fields (decode_to_fields fr) = fr <-> Z.land (w3 fr) 0x1F = 0).
Proof.
  intros Hwf. rewrite (encode_decode_clear_pad fr Hwf).
  split; [reflexivity | exact (clear_pad_fixed fr Hwf)].
Qed.

Lemma encode_decode_roundtrip_witness :
  wf_frame (mkFrame 0x12345678 0x9ABCDEF0 0x0FEDCBA9 0x87654321) /\
  encode_fields (decode_to_fields (mkFrame 0x12345678 0x9ABCDEF0 0x0FEDCBA9 0x87654321))
  = mkFrame 0x12345678 0x9ABCDEF0 0x0FEDCBA9 0x87654320.
Proof.
  assert (Hwf : wf_frame (mkFrame 0x12345678 0x9ABCDEF0 0x0FEDCBA9 0x87654321))
    by (unfold wf_frame, is_u32, modulus; cbn; lia).
  split; [exact Hwf |].
  exact (proj1 (encode_decode_roundtrip _ Hwf)).
Defined.

(** C4 as stated fails: 0xE0 has bits 7, 6 and 5 set, so the grant flag of
    the scenario frame is 1. *)
Lemma scenario_grant_flag_is_set :
  ~ (src (decode_to_fields (mkFrame 0xA0000000 0 0 0xE0)) = 0xA /\
     we (decode_to_fields (mkFrame 0xA0000000 0 0 0xE0)) = 1 /\
     valid (decode_to_fields (mkFrame 0xA0000000 0 0 0xE0)) = 1 /\
     gnt (decode_to_fields (mkFrame 0xA0000000 0 0 0xE0)) = 0).
Proof. vm_compute. intros (_ & _ & _ & H). discriminate H. Qed.

(** C4, amended. The frame 0xA0000000, 0, 0, 0x000000E0 decodes to source id
    0xA, write flag 1, valid flag 1 and grant flag 1. *)
Theorem scenario_frame_decodes :
  src (decode_to_fields (mkFrame 0xA0000000 0 0 0xE0)) = 0xA /\
  we (decode_to_fields (mkFrame 0xA0000000 0 0 0xE0)) = 1 /\
  valid (decode_to_fields (mkFrame 0xA0000000 0 0 0xE0)) = 1 /\
  gnt (decode_to_fields (mkFrame 0xA0000000 0 0 0xE0)) = 1.
Proof. repeat split. Qed.

(** ** Ring index arithmetic *)

Section RingArith.

Lemma RB_SIZE_val : RB_SIZE = 65536.
Proof. reflexivity. Qed.

Lemma land_mask16 x : Z.land x (RB_SIZE - 1) = x mod 65536.
Proof.
  change (RB_SIZE - 1) with (Z.ones 16).
  rewrite Z.land_ones by lia. reflexivity.
Qed.

Lemma wrap32_mod16 x : (wrap32 x) mod 65536 = x mod 65536.
Proof.
  unfold wrap32, modulus. change (2 ^ 32) with 4294967296.
  Z.div_mod_to_equations. lia.
Qed.

Lemma rb_used_mod h t : rb_used h t = (h - t) mod 65536.
Proof. unfold rb_used, sub. rewrite land_mask16. apply wrap32_mod16. Qed.

Lemma rb_next_mod i : rb_next i = (i + 1) mod 65536.
Proof. unfold rb_next, add. rewrite land_mask16. apply wrap32_mod16. Qed.

Lemma rb_used_range h t : 0 <= rb_used h t < 65536.
Proof. rewrite rb_used_mod. apply Z.mod_pos_bound. lia. Qed.

Lemma rb_free_val h t : rb_free h t = 65535 - rb_used h t.
Proof.
  unfold rb_free, sub, wrap32, modulus. pose proof (rb_used_range h t).
  rewrite RB_SIZE_val. rewrite Z.mod_small; lia.
Qed.

(** The buffer is full exactly when it holds [RB_SIZE - 1] frames. *)
Lemma rb_free_zero h t : rb_free h t = 0 <-> rb_used h t = RB_SIZE - 1.
Proof. rewrite rb_free_val, RB_SIZE_val. lia. Qed.

Lemma rb_next_range i : 0 <= rb_next i < 65536.
Proof. rewrite rb_next_mod. apply Z.mod_pos_bound. lia. Qed.

End RingArith.

(** ** The calls run without interruption *)

Section Sequential.

Lemma set_running_false_id st : running st = false -> set_running false st = st.
Proof. destruct st; cbn. now intros ->. Qed.

Lemma close_release_released st :
  ring st = None -> fbin st = None -> fcsv st = None -> close_release st = st.
Proof.
  destruct st as [r h t ru fb fc pe pv pc e bf cf co pr ws]; cbn.
  now intros -> -> ->.
Qed.

Lemma close_release_spec st :
  ring (close_release st) = None /\ fbin (close_release st) = None /\
  fcsv (close_release st) = None /\
  running (close_release st) = running st /\
  head (close_release st) = head st /\ tail (close_release st) = tail st /\
  writers (close_release st) = writers st /\
  print_count (close_release st) = print_count st /\
  env (close_release st) = env st.
Proof.
  unfold close_release.
  destruct st as [r h t ru fb fc pe pv pc e bf cf co pr ws]; cbn.
  destruct fb, fc, r; cbn; repeat split; reflexivity.
Qed.

Lemma start_consumer_spec st :
  running st = false ->
  malloc_ok (env st) = true -> fopen_bin_ok (env st) = true ->
  fopen_csv_ok (env st) = true ->
  exists st', start_consumer st = Some st' /\
    ring st' = Some ∅ /\ fbin st' = Some [] /\ fcsv st' = Some Fmt.csv_header /\
    bin_file st' = Some [] /\ csv_file st' = Some EmptyString /\
    running st' = true /\ writers st' = writers st ++ [WCheck] /\
    head st' = head st /\ tail st' = tail st /\
    print_count st' = print_count st /\ console st' = console st /\
    producer st' = producer st /\ env st' = env st.
Proof.
  intros Hr Hm Hb Hc. unfold start_consumer. rewrite Hr.
  destruct st as [r h t ru fb fc pe pv pc e bf cf co pr ws]; cbn in *.
  rewrite Hm, Hb, Hc; cbn.
  eexists; split; [reflexivity |].
  destruct (print_requested e); cbn;
    destruct (print_every_requested e =? 0); cbn; repeat split; reflexivity.
Qed.

Lemma start_consumer_producer st st' :
  start_consumer st = Some st' -> producer st' = producer st.
Proof.
  unfold start_consumer.
  destruct st as [r h t ru fb fc pe pv pc e bf cf co pr ws]; cbn.
  destruct ru; [now intros [= <-] |].
  destruct (malloc_ok e); cbn; [| discriminate].
  destruct (fopen_bin_ok e); cbn; [| discriminate].
  destruct (fopen_csv_ok e); cbn; [| discriminate].
  destruct (print_requested e); cbn;
    destruct (print_every_requested e =? 0); cbn; now intros [= <-].
Qed.

Lemma set_producer_idle st pc1 pc2 :
  producer st = PIdle ->
  set_producer PIdle (set_producer pc1 (set_producer pc2 st)) = st.
Proof. destruct st; cbn. now intros ->. Qed.

Lemma exec_cons st a sched st1 l1 :
  step st a = Some (st1, l1) ->
  exec (a :: sched) st = r ← exec sched st1; Some (r.1, l1 ++ r.2).
Proof. intros H. cbn [exec]. rewrite H. reflexivity. Qed.

(** A call of [sniffer_dpi_push] that nothing interrupts is the entry step
    followed by at most three steps of the producer, and returns what these
    steps report. *)
Lemma push_steps_refine st sid nwords w0 w1 w2 w3 st' ret :
  producer st = PIdle ->
  sniffer_dpi_push st sid nwords w0 w1 w2 w3 = Some (st', ret) ->
  exists k, (k <= 3)%nat /\
    exec (CallPush sid nwords w0 w1 w2 w3 :: replicate k Producer) st
    = Some (st', [PushRet (mkFrame w0 w1 w2 w3) ret]).
Proof.
  intros Hp. unfold sniffer_dpi_push. set (fr := mkFrame w0 w1 w2 w3).
  destruct (nwords =? 4) eqn:En; cbn [negb].
  - set (o := match ring st with None => start_consumer st | Some _ => Some st end).
    assert (Ho : forall st1, o = Some st1 -> producer st1 = PIdle).
    { intros st1. subst o. destruct (ring st).
      - now intros [= <-].
      - intros H. now rewrite (start_consumer_producer _ _ H). }
    destruct o as [st1 |] eqn:Eo; cbn [mbind option_bind]; [| discriminate].
    specialize (Ho st1 eq_refl).
    set (sA := set_producer (PushLoadTail fr (head st1)) st1).
    set (sB := set_producer (PushCheck fr (head st1) (tail st1)) sA).
    assert (S1 : step st (CallPush sid nwords w0 w1 w2 w3) = Some (sA, [])).
    { cbn [step]. unfold call_push. rewrite Hp, En. cbn [negb].
      fold o. rewrite Eo. reflexivity. }
    assert (S2 : step sA Producer = Some (sB, [])) by reflexivity.
    destruct (rb_free (head st1) (tail st1) =? 0) eqn:Ef.
    + intros [= <- <-]. exists 2%nat. split; [lia |].
      assert (S3 : step sB Producer = Some (st1, [PushRet fr 0])).
      { cbn [step]. unfold producer_step. subst sB. cbn [producer set_producer].
        rewrite Ef. subst sA. now rewrite set_producer_idle. }
      cbn [replicate]. rewrite (exec_cons _ _ _ _ _ S1), (exec_cons _ _ _ _ _ S2),
        (exec_cons _ _ _ _ _ S3). reflexivity.
    + unfold store_frame. destruct (ring st1) as [r |] eqn:Er;
        cbn [mbind option_bind]; [| discriminate].
      intros [= <- <-]. exists 3%nat. split; [lia |].
      set (sC := set_producer (PushPublish fr (head st1))
                   (set_ring (Some (<[head st1 := fr]> r)) sB)).
      assert (S3 : step sB Producer = Some (sC, [])).
      { cbn [step]. unfold producer_step. subst sB. cbn [producer set_producer].
        rewrite Ef. unfold store_frame. cbn [ring set_producer].
        subst sA. cbn [ring set_producer]. rewrite Er. reflexivity. }
      assert (S4 : step sC Producer
                   = Some (set_head (rb_next (head st1))
                             (set_ring (Some (<[head st1 := fr]> r)) st1),
                           [PushRet fr 1])).
      { cbn [step]. unfold producer_step. subst sC. cbn [producer set_producer].
        do 2 f_equal. subst sB sA. destruct st1; cbn in *. now subst. }
      cbn [replicate]. rewrite (exec_cons _ _ _ _ _ S1), (exec_cons _ _ _ _ _ S2),
        (exec_cons _ _ _ _ _ S3), (exec_cons _ _ _ _ _ S4). reflexivity.
  - intros [= <- <-]. exists 0%nat. split; [lia |].
    cbn [replicate exec step]. unfold call_push. rewrite Hp, En. reflexivity.
Qed.

(** A push that finds room in a running session is accepted: it fills the
    slot at [head] and advances [head]. *)
Lemma push_accepted_when_room st sid w0 w1 w2 w3 r :
  ring st = Some r ->
  rb_free (head st) (tail st) <> 0 ->
  sniffer_dpi_push st sid 4 w0 w1 w2 w3
  = Some (set_head (rb_next (head st))
            (set_ring (Some (<[head st := mkFrame w0 w1 w2 w3]> r)) st), 1).
Proof.
  intros Hr Hf. unfold sniffer_dpi_push. cbn [Z.eqb Pos.eqb negb].
  rewrite Hr. cbn [mbind option_bind].
  apply Z.eqb_neq in Hf. rewrite Hf. unfold store_frame. rewrite Hr. reflexivity.
Qed.

(** Whatever the state, a push that reads full indices returns 0 and moves
    neither index. *)
Lemma push_when_full_returns_0 st sid nwords w0 w1 w2 w3 st' ret :
  rb_free (head st) (tail st) = 0 ->
  sniffer_dpi_push st sid nwords w0 w1 w2 w3 = Some (st', ret) ->
  ret = 0 /\ head st' = head st /\ tail st' = tail st.
Proof.
  intros Hf. unfold sniffer_dpi_push.
  destruct (nwords =? 4); cbn [negb]; [| now intros [= <- <-]].
  destruct (ring st) eqn:Er; cbn [mbind option_bind].
  - rewrite Hf. cbn. now intros [= <- <-].
  - destruct (start_consumer st) as [st1 |] eqn:Hs; cbn [mbind option_bind];
      [| discriminate].
    assert (Hht : head st1 = head st /\ tail st1 = tail st).
    { revert Hs. unfold start_consumer.
      destruct st as [r h t ru fb fc pe pv pc e bf cf co pr ws]; cbn.
      destruct ru; [now intros [= <-] |].
      destruct (malloc_ok e); cbn; [| discriminate].
      destruct (fopen_bin_ok e); cbn; [| discriminate].
      destruct (fopen_csv_ok e); cbn; [| discriminate].
      destruct (print_requested e); cbn;
        destruct (print_every_requested e =? 0); cbn; now intros [= <-]. }
    destruct Hht as (Hh & Ht). rewrite Hh, Ht, Hf. cbn.
    now intros [= <- <-].
Qed.

(** The same rejection inside an interleaved call: the producer, having
    loaded indices that leave no room, returns 0 and only leaves the call. *)
Lemma push_check_full_rejects st fr h t :
  producer st = PushCheck fr h t -> rb_free h t = 0 ->
  step st Producer = Some (set_producer PIdle st, [PushRet fr 0]).
Proof.
  intros Hp Hf. cbn [step]. unfold producer_step. rewrite Hp, Hf. reflexivity.
Qed.

(** A call of [sniffer_dpi_close] that nothing interrupts is its two steps. *)
Lemma close_steps_refine st :
  producer st = PIdle ->
  exec [CallClose; Producer] st = Some (sniffer_dpi_close st, [CloseRet]).
Proof.
  intros Hp. unfold sniffer_dpi_close.
  assert (S1 : step st CallClose
               = Some (set_producer CloseSleep (set_running false st), [])).
  { cbn [step]. unfold call_close. now rewrite Hp. }
  assert (S2 : step (set_producer CloseSleep (set_running false st)) Producer
               = Some (close_release (set_running false st), [CloseRet])).
  { cbn [step]. unfold producer_step. cbn [producer set_producer].
    do 2 f_equal. unfold close_release.
    destruct st as [r h t ru fb fc pe pv pc e bf cf co pr ws]; cbn in *.
    subst pr. destruct fb, fc, r; reflexivity. }
  rewrite (exec_cons _ _ _ _ _ S1), (exec_cons _ _ _ _ _ S2). reflexivity.
Qed.

End Sequential.

(** C6. A push whose word count is not 4 returns 0 and changes nothing: the
    whole state, ring, indices and session included, is the one before the
    call, whether or not a session has been started.  The same holds for the
    entry step of the interleaved execution. *)
Theorem push_wrong_word_count_rejected
    (st : State) (stream_id nwords w0 w1 w2 w3 : Z) :
  nwords <> 4 ->
  sniffer_dpi_push st stream_id nwords w0 w1 w2 w3 = Some (st, 0) /\
  (producer st = PIdle ->
   step st (CallPush stream_id nwords w0 w1 w2 w3)
   = Some (st, [PushRet (mkFrame w0 w1 w2 w3) 0])).
Proof.
  intros Hn. assert (E : (nwords =? 4) = false) by now apply Z.eqb_neq.
  split.
  - unfold sniffer_dpi_push. now rewrite E.
  - intros Hp. cbn. unfold call_push. now rewrite Hp, E.
Qed.

Lemma push_wrong_word_count_rejected_witness :
  3 <> 4 /\
  sniffer_dpi_push (init (mkEnv None None true true true)) 0 3 1 2 3 4
  = Some (init (mkEnv None None true true true), 0).
Proof.
  assert (H : 3 <> 4) by lia.
  split; [exact H |].
  exact (proj1 (push_wrong_word_count_rejected
                  (init (mkEnv None None true true true)) 0 3 1 2 3 4 H)).
Defined.

(** C5. A push attempted while the ring buffer holds [RB_SIZE - 1] frames
    ([rb_free (head, tail) = 0]) returns 0 and leaves the state, every slot,
    [head] and [tail] included, as it was. *)
Theorem push_when_full_rejected
    (st : State) (stream_id nwords w0 w1 w2 w3 : Z) :
  ring st <> None ->
  rb_free (head st) (tail st) = 0 ->
  sniffer_dpi_push st stream_id nwords w0 w1 w2 w3 = Some (st, 0).
Proof.
  intros Hring Hfull. unfold sniffer_dpi_push.
  destruct (nwords =? 4); cbn; [| reflexivity].
  destruct (ring st) eqn:Er; [| contradiction].
  cbn. now rewrite Hfull.
Qed.

Lemma push_when_full_rejected_witness :
  let st := set_head 65535 (set_ring (Some ∅) (init (mkEnv None None true true true))) in
  ring st <> None /\ rb_free (head st) (tail st) = 0 /\
  sniffer_dpi_push st 0 4 1 2 3 4 = Some (st, 0).
Proof.
  intros st.
  assert (Hr : ring st <> None) by (subst st; cbn; discriminate).
  assert (Hf : rb_free (head st) (tail st) = 0) by reflexivity.
  split; [exact Hr |]. split; [exact Hf |].
  exact (push_when_full_rejected st 0 4 1 2 3 4 Hr Hf).
Defined.

(** C9. Closing a session that was never started changes nothing and creates
    no file; after any close the ring and both sink handles are null, and a
    second close changes nothing. *)
Theorem close_is_idempotent :
  (forall e, sniffer_dpi_close (init e) = init e /\
             bin_file (init e) = None /\ csv_file (init e) = None) /\
  (forall st,
     ring (sniffer_dpi_close st) = None /\
     fbin (sniffer_dpi_close st) = None /\
     fcsv (sniffer_dpi_close st) = None /\
     running (sniffer_dpi_close st) = false /\
     sniffer_dpi_close (sniffer_dpi_close st) = sniffer_dpi_close st).
Proof.
  split.
  - intros e. repeat split.
  - intros st. unfold sniffer_dpi_close.
    destruct (close_release_spec (set_running false st))
      as (Hr & Hb & Hc & Hrun & _).
    cbn in Hrun. repeat split; try assumption.
    rewrite set_running_false_id by assumption.
    now apply close_release_released.
Qed.

(** A session is started, drained, closed (the writer sees the cleared flag
    and ends), and then one more frame is pushed. *)
Example push_after_close_schedule :
  exec [CallPush 0 4 0xA0000000 0 0 0xE0; Producer; Producer; Producer;
        Writer 0%nat; Writer 0%nat; Writer 0%nat; Writer 0%nat; Writer 0%nat;
        Writer 0%nat; CallClose; Writer 0%nat; Producer;
        CallPush 0 4 1 2 3 4; Producer; Producer; Producer]
       (init (mkEnv None None true true true))
  = Some ({| ring := Some {[ 1 := mkFrame 1 2 3 4 ]};
             head := 2; tail := 1; running := true;
             fbin := Some []; fcsv := Some Fmt.csv_header;
             print_enable := false; print_every := 1; print_count := 0;
             env := mkEnv None None true true true;
             bin_file := Some []; csv_file := Some EmptyString;
             console := []; producer := PIdle;
             writers := [WExit; WCheck] |},
          [PushRet (mkFrame 0xA0000000 0 0 0xE0) 1;
           Drained (mkFrame 0xA0000000 0 0 0xE0);
           CloseRet;
           PushRet (mkFrame 1 2 3 4) 1]).
Proof. vm_compute. reflexivity. Qed.

(** C2 as stated fails: after one push and a close, the ring, both sink
    handles and the running flag are cleared; one more push with four words
    brings all of them back and adds a second writer thread. *)
Lemma push_after_close_restarts_session :
  let e := mkEnv None None true true true in
  exists st1 st2 r1 r2,
    sniffer_dpi_push (init e) 0 4 0xA0000000 0 0 0xE0 = Some (st1, r1) /\
    ring (sniffer_dpi_close st1) = None /\
    fbin (sniffer_dpi_close st1) = None /\
    fcsv (sniffer_dpi_close st1) = None /\
    running (sniffer_dpi_close st1) = false /\
    length (writers (sniffer_dpi_close st1)) = 1%nat /\
    sniffer_dpi_push (sniffer_dpi_close st1) 0 4 1 2 3 4 = Some (st2, r2) /\
    ring st2 <> None /\ fbin st2 <> None /\ fcsv st2 <> None /\
    running st2 = true /\ length (writers st2) = 2%nat.
Proof.
  intros e. subst e. do 4 eexists.
  split; [vm_compute; reflexivity |].
  do 5 (split; [reflexivity |]).
  split; [vm_compute; reflexivity |].
  cbn. repeat split; discriminate.
Qed.

(** C2, amended. The session goes Uninitialized, Running, Stopped, and
    Stopped is not terminal: a push with four words after a close starts the
    session again as a first push does.  The ring is allocated afresh, both
    sinks are reopened (and truncated, the header written again), a new writer
    thread is created and the running flag set; [tail] and the print counter
    keep their values. *)
Theorem push_after_close_restarts
    (st : State) (stream_id w0 w1 w2 w3 : Z) :
  malloc_ok (env st) = true ->
  fopen_bin_ok (env st) = true ->
  fopen_csv_ok (env st) = true ->
  exists st' ret r,
    sniffer_dpi_push (sniffer_dpi_close st) stream_id 4 w0 w1 w2 w3
    = Some (st', ret) /\
    ring st' = Some r /\ (forall i, i <> head st -> r !! i = None) /\
    fbin st' = Some [] /\ fcsv st' = Some Fmt.csv_header /\
    bin_file st' = Some [] /\ csv_file st' = Some EmptyString /\
    running st' = true /\
    writers st' = writers st ++ [WCheck] /\
    tail st' = tail st /\ print_count st' = print_count st.
Proof.
  intros Hm Hb Hc. unfold sniffer_dpi_close.
  destruct (close_release_spec (set_running false st))
    as (Hr & _ & _ & Hrun & Hh & Ht & Hw & Hpc & He).
  cbn in Hrun, Hh, Ht, Hw, Hpc, He.
  set (st1 := close_release (set_running false st)) in *.
  destruct (start_consumer_spec st1 Hrun) as (st2 & Hstart & S);
    try (rewrite He; assumption).
  destruct S as (Sr & Sb & Sc & Sbf & Scf & Srun & Sw & Sh & St & Spc & _).
  unfold sniffer_dpi_push. cbn. rewrite Hr, Hstart. cbn.
  destruct (rb_free (head st2) (tail st2) =? 0).
  - exists st2, 0, ∅. rewrite Sw, St, Spc, Hw, Ht, Hpc. repeat split; auto.
  - unfold store_frame. rewrite Sr. cbn.
    eexists _, 1, _. split; [reflexivity |].
    destruct st2; cbn in *. subst. rewrite Hw, Ht, Hpc.
    repeat split; auto.
    intros i Hi. rewrite lookup_insert_ne by congruence. apply lookup_empty.
Qed.

Lemma push_after_close_restarts_witness :
  let st := init (mkEnv None None true true true) in
  malloc_ok (env st) = true /\
  exists st' ret r,
    sniffer_dpi_push (sniffer_dpi_close st) 0 4 1 2 3 4 = Some (st', ret) /\
    ring st' = Some r /\ (forall i, i <> head st -> r !! i = None) /\
    fbin st' = Some [] /\ fcsv st' = Some Fmt.csv_header /\
    bin_file st' = Some [] /\ csv_file st' = Some EmptyString /\
    running st' = true /\
    writers st' = writers st ++ [WCheck] /\
    tail st' = tail st /\ print_count st' = print_count st.
Proof.
  intros st. split; [reflexivity |].
  apply (push_after_close_restarts st 0 1 2 3 4); reflexivity.
Defined.

(** ** The session invariant *)

Section SlotArith.

Lemma slot_range n : 0 <= slot n < 65536.
Proof. unfold slot. apply Z.mod_pos_bound. lia. Qed.

Lemma rb_next_slot n : rb_next (slot n) = slot (S n).
Proof.
  rewrite rb_next_mod. unfold slot.
  rewrite Nat2Z.inj_succ. unfold Z.succ.
  Z.div_mod_to_equations. lia.
Qed.

Lemma rb_used_slot a b :
  (b <= a)%nat -> Z.of_nat a - Z.of_nat b <= 65535 ->
  rb_used (slot a) (slot b) = Z.of_nat a - Z.of_nat b.
Proof.
  intros Hle Hd. rewrite rb_used_mod. unfold slot.
  Z.div_mod_to_equations. lia.
Qed.

Lemma slot_inj a b :
  (b <= a)%nat -> Z.of_nat a - Z.of_nat b <= 65535 -> slot a = slot b -> a = b.
Proof.
  unfold slot. intros Hle Hd E.
  Z.div_mod_to_equations. lia.
Qed.

Lemma slot_0 : slot 0 = 0.
Proof. reflexivity. Qed.

End SlotArith.

Section Labels.

Lemma accepted_app l1 l2 : accepted (l1 ++ l2) = accepted l1 ++ accepted l2.
Proof. apply omap_app. Qed.

Lemma drained_app l1 l2 : drained (l1 ++ l2) = drained l1 ++ drained l2.
Proof. apply omap_app. Qed.

Lemma prefix_snoc (A D : list Frame) fr :
  D = take (length D) A -> A !! length D = Some fr ->
  D ++ [fr] = take (length (D ++ [fr])) A.
Proof.
  intros HD Hfr. rewrite length_app; cbn.
  rewrite Nat.add_1_r. rewrite (take_S_r _ _ _ Hfr). now rewrite <- HD.
Qed.

Lemma prefix_grow (A D : list Frame) fr :
  (length D <= length A)%nat ->
  D = take (length D) A -> D = take (length D) (A ++ [fr]).
Proof. intros Hle HD. rewrite take_app_le by lia. exact HD. Qed.

End Labels.

Section Text.

Lemma str_app_cons a (s t : string) : String a s +:+ t = String a (s +:+ t).
Proof. reflexivity. Qed.

Lemma str_app_nil_l (s : string) : EmptyString +:+ s = s.
Proof. reflexivity. Qed.

Lemma str_app_nil_r (s : string) : s +:+ EmptyString = s.
Proof. induction s as [| a s IH]; [reflexivity |]. now rewrite str_app_cons, IH. Qed.

Lemma str_app_assoc (s t u : string) : (s +:+ t) +:+ u = s +:+ (t +:+ u).
Proof.
  induction s as [| a s IH]; [reflexivity |].
  now rewrite !str_app_cons, IH.
Qed.

Lemma count_lines_app (s t : string) :
  Fmt.count_lines (s +:+ t) = (Fmt.count_lines s + Fmt.count_lines t)%nat.
Proof.
  induction s as [| a s IH]; [reflexivity |].
  rewrite str_app_cons. cbn [Fmt.count_lines].
  destruct (Ascii.eqb a (ascii_of_nat 10)); rewrite IH; reflexivity.
Qed.

Lemma digit_char_not_nl d : 0 <= d < 16 -> Fmt.digit_char d <> ascii_of_nat 10.
Proof.
  intros Hd. unfold Fmt.digit_char.
  assert (C : d = 0 \/ d = 1 \/ d = 2 \/ d = 3 \/ d = 4 \/ d = 5 \/ d = 6 \/ d = 7 \/
              d = 8 \/ d = 9 \/ d = 10 \/ d = 11 \/ d = 12 \/ d = 13 \/ d = 14 \/
              d = 15) by lia.
  repeat (destruct C as [-> | C]; [vm_compute; discriminate |]).
  subst d. vm_compute. discriminate.
Qed.

Lemma count_lines_digits base fuel n acc :
  2 <= base <= 16 ->
  Fmt.count_lines (Fmt.digits base fuel n acc) = Fmt.count_lines acc.
Proof.
  intros Hb. revert n acc.
  induction fuel as [| fuel IH]; intros n acc; [reflexivity |].
  cbn [Fmt.digits].
  assert (Hd : Fmt.count_lines (String (Fmt.digit_char (n mod base)) acc)
               = Fmt.count_lines acc).
  { cbn [Fmt.count_lines].
    destruct (Ascii.eqb_spec (Fmt.digit_char (n mod base)) (ascii_of_nat 10)) as [E | _];
      [| reflexivity].
    exfalso. revert E. apply digit_char_not_nl.
    pose proof (Z.mod_pos_bound n base). lia. }
  destruct (n / base =? 0); [exact Hd |].
  rewrite IH. exact Hd.
Qed.

Lemma count_lines_fmt_u n : Fmt.count_lines (Fmt.fmt_u n) = O.
Proof. unfold Fmt.fmt_u. rewrite count_lines_digits by lia. reflexivity. Qed.

Lemma count_lines_fmt_X n : Fmt.count_lines (Fmt.fmt_X n) = O.
Proof. unfold Fmt.fmt_X. rewrite count_lines_digits by lia. reflexivity. Qed.

Lemma count_lines_zeros k : Fmt.count_lines (Fmt.zeros k) = O.
Proof. induction k as [| k IH]; [reflexivity |]. cbn. exact IH. Qed.

Lemma count_lines_fmt_0X w n : Fmt.count_lines (Fmt.fmt_0X w n) = O.
Proof.
  unfold Fmt.fmt_0X. rewrite count_lines_app, count_lines_zeros, count_lines_fmt_X.
  reflexivity.
Qed.

(** A CSV record is one line. *)
Lemma count_lines_csv_record f : Fmt.count_lines (Fmt.csv_record f) = 1%nat.
Proof.
  unfold Fmt.csv_record.
  rewrite !count_lines_app, !count_lines_fmt_u, !count_lines_fmt_0X,
    count_lines_fmt_X.
  reflexivity.
Qed.

(** A console line is one line. *)
Lemma count_lines_console_line f : Fmt.count_lines (Fmt.console_line f) = 1%nat.
Proof.
  unfold Fmt.console_line.
  rewrite !count_lines_app, !count_lines_fmt_u, !count_lines_fmt_0X,
    count_lines_fmt_X.
  reflexivity.
Qed.

Lemma csv_text_snoc D fr :
  csv_text (D ++ [fr]) = csv_text D +:+ Fmt.csv_record (decode_to_fields fr).
Proof.
  induction D as [| x D IH]; cbn [csv_text app].
  - now rewrite str_app_nil_r.
  - now rewrite IH, str_app_assoc.
Qed.

Lemma count_lines_csv_text D : Fmt.count_lines (csv_text D) = length D.
Proof.
  induction D as [| x D IH]; [reflexivity |].
  cbn [csv_text length]. now rewrite count_lines_app, count_lines_csv_record, IH.
Qed.

Lemma length_frame_bytes fr : length (Fmt.frame_bytes fr) = 16%nat.
Proof. reflexivity. Qed.

Lemma bin_bytes_snoc D fr : bin_bytes (D ++ [fr]) = bin_bytes D ++ Fmt.frame_bytes fr.
Proof.
  unfold bin_bytes. rewrite map_app, concat_app. cbn [map concat].
  now rewrite app_nil_r.
Qed.

Lemma length_bin_bytes D : length (bin_bytes D) = (16 * length D)%nat.
Proof.
  induction D as [| x D IH]; [reflexivity |].
  unfold bin_bytes in *. cbn [map concat length].
  rewrite length_app, IH, length_frame_bytes. lia.
Qed.

(** Every byte of a record is a byte. *)
Lemma bin_bytes_range D b : In b (bin_bytes D) -> 0 <= b < 256.
Proof.
  unfold bin_bytes. intros Hin. apply in_concat in Hin as (l & Hl & Hb).
  apply in_map_iff in Hl as (fr & <- & _).
  unfold Fmt.frame_bytes, Fmt.word_bytes in Hb. cbn in Hb.
  repeat (destruct Hb as [<- | Hb];
          [change 255 with (Z.ones 8); rewrite Z.land_ones by lia;
           apply Z.mod_pos_bound; lia |]).
  contradiction.
Qed.

End Text.

Section Sampling.

Lemma sampled_snoc p D fr :
  sampled p (D ++ [fr])
  = sampled p D ++ (if Z.of_nat (S (length D)) mod p =? 0 then [fr] else []).
Proof.
  unfold sampled. rewrite imap_app, omap_app. f_equal.
  cbn. rewrite Nat.add_0_r. destruct (_ =? 0); reflexivity.
Qed.

Lemma div_succ_step n p :
  0 <= n -> 1 <= p ->
  (n + 1) / p = n / p + (if (n + 1) mod p =? 0 then 1 else 0).
Proof.
  intros Hn Hp. destruct ((n + 1) mod p =? 0) eqn:E.
  - apply Z.eqb_eq in E. Z.div_mod_to_equations. nia.
  - apply Z.eqb_neq in E. Z.div_mod_to_equations. nia.
Qed.

(** One frame in [p] is sampled. *)
Lemma length_sampled p D :
  1 <= p -> Z.of_nat (length (sampled p D)) = Z.of_nat (length D) / p.
Proof.
  intros Hp. induction D as [| fr D IH] using rev_ind.
  - cbn. now rewrite Z.div_0_l by lia.
  - rewrite sampled_snoc, !length_app, !Nat2Z.inj_add, IH. cbn [length].
    replace (Z.of_nat (S (length D))) with (Z.of_nat (length D) + 1) by lia.
    change (Z.of_nat 1) with 1.
    rewrite (div_succ_step (Z.of_nat (length D)) p) by lia.
    destruct (_ =? 0); cbn [length]; lia.
Qed.

End Sampling.

Section LoopBody.

Lemma wrap32_succ n : wrap32 (wrap32 n + 1) = wrap32 (n + 1).
Proof.
  unfold wrap32, modulus. change (2 ^ 32) with 4294967296.
  Z.div_mod_to_equations. lia.
Qed.

Lemma wrap32_small n : 0 <= n < modulus -> wrap32 n = n.
Proof. intros H. unfold wrap32. now apply Z.mod_small. Qed.

Lemma console_echo_inv st D fr :
  console_inv st D ->
  console_inv (console_echo (decode_to_fields fr) st) (D ++ [fr]) /\
  same_shared st (console_echo (decode_to_fields fr) st) /\
  fbin (console_echo (decode_to_fields fr) st) = fbin st /\
  fcsv (console_echo (decode_to_fields fr) st) = fcsv st.
Proof.
  intros (Hp & Hc). unfold console_echo, console_inv, same_shared.
  destruct st as [r h t ru fb fc pe pv pc e bf cf co pr ws]; cbn in *.
  destruct pe; cbn.
  - destruct (Hc eq_refl) as (Hcount & Hlines). subst pc. unfold add.
    rewrite wrap32_succ.
    assert (Hlen : Z.of_nat (length (D ++ [fr])) = Z.of_nat (length D) + 1)
      by (rewrite length_app; cbn; lia).
    assert (Hnext :
      Z.of_nat (length (D ++ [fr])) < modulus ->
      wrap32 (Z.of_nat (length D) + 1) = Z.of_nat (S (length D)) /\
      co = console_lines (sampled pv D)).
    { intros Hlt. split.
      - rewrite wrap32_small by lia. lia.
      - apply Hlines. lia. }
    destruct (wrap32 (Z.of_nat (length D) + 1) mod pv =? 0) eqn:E; cbn;
      (split; [split; [exact Hp |]; intros _; rewrite Hlen; split; [reflexivity |]
              | repeat split]).
    + intros Hlt. rewrite <- Hlen in Hlt. destruct (Hnext Hlt) as (Hw & ->).
      rewrite sampled_snoc. rewrite Hw in E. rewrite E.
      unfold console_lines. now rewrite map_app.
    + intros Hlt. rewrite <- Hlen in Hlt. destruct (Hnext Hlt) as (Hw & ->).
      rewrite sampled_snoc. rewrite Hw in E. rewrite E.
      now rewrite app_nil_r.
  - split; [| repeat split]. split; [exact Hp |]. intros Hpe; discriminate Hpe.
Qed.

Lemma drain_frame_inv st D fr :
  sinks_inv st D -> console_inv st D ->
  exists st1, drain_frame fr st = Some st1 /\
    sinks_inv st1 (D ++ [fr]) /\ console_inv st1 (D ++ [fr]) /\
    same_shared st st1.
Proof.
  intros (Hb & Hc) Hcon. unfold drain_frame.
  destruct st as [r h t ru fb fc pe pv pc e bf cf co pr ws]; cbn in Hb, Hc |- *.
  subst fb fc. cbn.
  eexists; split; [reflexivity |].
  match goal with |- context [console_echo _ ?s] => set (st0 := s) end.
  assert (Hcon0 : console_inv st0 D) by exact Hcon.
  destruct (console_echo_inv st0 D fr Hcon0) as (Hcon1 & Hsame & Hfb & Hfc).
  split; [| split; [exact Hcon1 | exact Hsame]].
  split.
  - rewrite Hfb. subst st0; cbn. now rewrite bin_bytes_snoc.
  - rewrite Hfc. subst st0; cbn. now rewrite csv_text_snoc, str_app_assoc.
Qed.

Lemma flush_sinks_inv st D :
  sinks_inv st D ->
  exists st1, flush_sinks st = Some st1 /\
    sinks_inv st1 D /\ same_shared st st1 /\
    print_count st1 = print_count st /\ console st1 = console st /\
    bin_file st1 = fbin st /\ csv_file st1 = fcsv st.
Proof.
  intros (Hb & Hc). unfold flush_sinks. rewrite Hb, Hc. cbn.
  eexists; split; [reflexivity |].
  destruct st; cbn in *. subst. repeat split.
Qed.

End LoopBody.

Ltac st_simpl :=
  cbn [ring head tail running fbin fcsv print_enable print_every print_count
       env bin_file csv_file console producer writers
       set_ring set_head set_tail set_running set_fbin set_fcsv
       set_print_enable set_print_every set_print_count set_bin_file
       set_csv_file set_console set_producer set_writers] in *.

Ltac open_inv :=
  unfold producer_inv, sinks_inv, console_inv, writer_inv, same_shared in *;
  st_simpl.

Section WriterSteps.

Lemma producer_inv_same st st1 r nt np :
  producer st1 = producer st -> head st1 = head st ->
  producer_inv st r nt np -> producer_inv st1 r nt np.
Proof. unfold producer_inv. now intros -> ->. Qed.

Lemma producer_inv_tail st r nt nt' np :
  (nt <= nt')%nat -> producer_inv st r nt np -> producer_inv st r nt' np.
Proof.
  unfold producer_inv. intros Hle. destruct (producer st); try tauto.
  - intros (Hh & n0 & Ht & Hn & Hc). split; [exact Hh |].
    exists n0. repeat split; try assumption. lia.
  - intros (Hh & Hc & Hr). repeat split; try assumption. lia.
Qed.

(** Under the invariant of a running session the writer can always take
    its next step, and the step keeps the invariant. *)
Lemma writer_step_session st A D :
  session_inv st A D ->
  exists pc st1 l1,
    writers st = [pc] /\ step st (Writer 0) = Some (st1, l1) /\
    accepted l1 = [] /\ writers st1 = [next_pc st pc] /\
    head st1 = head st /\ producer st1 = producer st /\
    session_inv st1 A (D ++ drained l1).
Proof.
  intros (r & pc & nt & Hring & Hw & Hrun & Hh & Ht & Hord & Hcap & Hpre &
          Hslots & Hwi & Hpi & Hs & Hc).
  exists pc. unfold step. rewrite Hw. cbn [lookup list_lookup mbind option_bind].
  destruct pc as [| | t | t h | |]; cbn [writer_step writer_inv next_pc] in *.
  - (* WCheck *)
    rewrite Hrun. cbn [mbind option_bind fst snd]. st_simpl. rewrite Hw. do 2 eexists.
    cbn [insert list_insert accepted drained omap list_omap].
    repeat (split; [reflexivity |]). rewrite app_nil_r.
    exists r, WLoadTail, nt. open_inv. tauto.
  - (* WLoadTail *)
    cbn [mbind option_bind fst snd]. st_simpl. rewrite Hw. do 2 eexists.
    cbn [insert list_insert accepted drained omap list_omap].
    repeat (split; [reflexivity |]). rewrite app_nil_r.
    exists r, (WLoadHead (tail st)), nt. open_inv. tauto.
  - (* WLoadHead *)
    destruct Hwi as (-> & ->).
    cbn [mbind option_bind fst snd]. st_simpl. rewrite Hw. do 2 eexists.
    cbn [insert list_insert accepted drained omap list_omap].
    repeat (split; [reflexivity |]). rewrite app_nil_r.
    exists r, (WLoop (tail st) (head st)), (length D). open_inv.
    repeat split; try tauto.
    exists (length A). split; [assumption | lia].
  - (* WLoop *)
    destruct Hwi as (-> & nh & -> & Hnh).
    destruct (slot (length D) =? slot nh) eqn:E.
    + apply Z.eqb_eq in E. apply eq_sym, slot_inj in E; [| lia | lia].
      subst nh. cbn [mbind option_bind fst snd]. st_simpl. rewrite Hw.
      do 2 eexists.
      cbn [insert list_insert accepted drained omap list_omap].
      st_simpl.
      repeat (split; [reflexivity |]). rewrite app_nil_r.
      exists r, WFlush, (length D).
      pose proof (producer_inv_tail _ _ nt (length D) _ (proj1 Hord) Hpi) as Hpi'.
      open_inv. repeat split; try tauto; try lia.
    + apply Z.eqb_neq in E.
      assert (Hne : length D <> nh) by (intros Heq; apply E; now rewrite Heq).
      assert (Hlt : (length D < length A)%nat) by lia.
      destruct (lookup_lt_is_Some_2 A (length D) Hlt) as (fr & Hfr).
      rewrite Hring. cbn [mbind option_bind].
      rewrite (Hslots (length D)) by lia. rewrite Hfr. cbn [mbind option_bind].
      destruct (drain_frame_inv st D fr Hs Hc) as (st1 & Hdr & Hs1 & Hc1 & Hsame).
      rewrite Hdr. cbn [mbind option_bind fst snd].
      destruct Hsame as (Sr & Sh & St & Srun & Sp & Sw & _).
      rewrite Sw, Hw. do 2 eexists.
      cbn [insert list_insert accepted drained omap list_omap].
      st_simpl.
      repeat (split; [first [reflexivity | assumption] |]).
      change (drained [Drained fr]) with [fr].
      exists r, (WLoop (rb_next (slot (length D))) (slot nh)), nt.
      pose proof (prefix_snoc A D fr Hpre Hfr) as Hpre'.
      assert (Hlen : length (D ++ [fr]) = S (length D))
        by (rewrite length_app; cbn; lia).
      open_inv. rewrite Hlen in Hc1, Hpre'. rewrite Sr, Sh, St, Srun, Sp, Hlen.
      repeat split; try tauto; try lia; try (apply Hc1; assumption).
      * intros i Hi. apply Hslots. lia.
      * apply rb_next_slot.
      * exists nh. split; [reflexivity | lia].
  - (* WFlush *)
    destruct (flush_sinks_inv st D Hs) as (st1 & Hfl & Hs1 & Hsame & Hpc & Hco & _).
    rewrite Hfl. cbn [mbind option_bind fst snd].
    destruct Hsame as (Sr & Sh & St & Srun & Sp & Sw & Spe & Spv & _).
    rewrite Sw, Hw. do 2 eexists.
    cbn [insert list_insert accepted drained omap list_omap].
    st_simpl.
    repeat (split; [first [reflexivity | assumption] |]). rewrite app_nil_r.
    exists r, WCheck, nt.
    open_inv. rewrite Sr, Sh, St, Srun, Sp, Spe, Spv, Hpc, Hco.
    repeat split; try tauto; try lia.
  - contradiction.
Qed.

End WriterSteps.

Section ProducerSteps.

Lemma writer_inv_same st st1 pc nt nd np :
  tail st1 = tail st -> writer_inv st pc nt nd np -> writer_inv st1 pc nt nd np.
Proof. unfold writer_inv. now intros ->. Qed.

Lemma writer_inv_more st pc nt nd np :
  writer_inv st pc nt nd np -> writer_inv st pc nt nd (S np).
Proof.
  unfold writer_inv. destruct pc; try tauto.
  intros (Ht & nh & Hh & Hnh). split; [exact Ht |]. exists nh. split; [exact Hh | lia].
Qed.

(** The producer's steps inside a call keep the invariant. *)
Lemma producer_step_session st A D st1 l1 :
  session_inv st A D ->
  step st Producer = Some (st1, l1) ->
  drained l1 = [] /\ session_inv st1 (A ++ accepted l1) D.
Proof.
  intros (r & pc & nt & Hring & Hw & Hrun & Hh & Ht & Hord & Hcap & Hpre &
          Hslots & Hwi & Hpi & Hs & Hc).
  cbn [step]. unfold producer_step.
  unfold producer_inv in Hpi.
  destruct (producer st) as [| fr h | fr h t | fr h |] eqn:Hp.
  - discriminate.
  - (* PushLoadTail *)
    intros [= <- <-]. split; [reflexivity |]. rewrite app_nil_r.
    exists r, pc, nt. open_inv. try rewrite Hp in *.
    repeat split; try tauto; try lia.
    exists nt. repeat split; try tauto; lia.
  - (* PushCheck *)
    destruct Hpi as (-> & n0 & -> & Hn0 & Hc0).
    destruct (rb_free (head st) (slot n0) =? 0) eqn:E.
    + intros [= <- <-]. split; [reflexivity |].
      change (accepted [PushRet fr 0]) with (@nil Frame). rewrite app_nil_r.
      exists r, pc, nt. open_inv. tauto.
    + apply Z.eqb_neq in E. unfold store_frame. rewrite Hring.
      cbn [mbind option_bind]. intros [= <- <-]. split; [reflexivity |].
      rewrite app_nil_r.
      rewrite Hh, rb_free_val, rb_used_slot in E by lia.
      exists (<[head st := fr]> r), pc, nt. open_inv. try rewrite Hp in *.
      repeat split; try tauto; try lia.
      * intros i Hi. rewrite lookup_insert_ne; [now apply Hslots |].
        rewrite Hh. intros Heq. apply slot_inj in Heq; lia.
      * apply lookup_insert_eq.
  - (* PushPublish *)
    destruct Hpi as (-> & Hroom & Hfr).
    intros [= <- <-]. split; [reflexivity |].
    change (accepted [PushRet fr 1]) with [fr].
    assert (Hlen : length (A ++ [fr]) = S (length A))
      by (rewrite length_app; cbn; lia).
    exists r, pc, nt. apply (writer_inv_more _ _ _ _ _) in Hwi.
    open_inv. rewrite Hlen.
    repeat split; try tauto; try lia.
    + rewrite Hh. apply rb_next_slot.
    + now apply prefix_grow.
    + intros i Hi. destruct (Nat.eq_dec i (length A)) as [-> | Hne].
      * rewrite <- Hh, Hfr. symmetry. apply list_lookup_middle. reflexivity.
      * rewrite lookup_app_l by lia. apply Hslots. lia.
  - contradiction.
Qed.

Lemma start_consumer_session st :
  idle_inv st [] [] ->
  forall st1, start_consumer st = Some st1 ->
  ring st1 = Some ∅ /\ writers st1 = [WCheck] /\ running st1 = true /\
  head st1 = 0 /\ tail st1 = 0 /\ producer st1 = PIdle /\
  sinks_inv st1 [] /\ console_inv st1 [].
Proof.
  intros (Hr & Hw & Hp & _ & _ & Hb & Hc & Hrun & Hh & Ht & Hpc & Hco & Hpv & Hpe)
         st1.
  unfold start_consumer. rewrite Hrun.
  destruct st as [r h t ru fb fc pe pv pc e bf cf co pr ws]; cbn in *. subst.
  destruct (malloc_ok e); cbn; [| discriminate].
  destruct (fopen_bin_ok e); cbn; [| discriminate].
  destruct (fopen_csv_ok e); cbn; [| discriminate].
  unfold sinks_inv, console_inv.
  destruct (print_requested e); cbn;
    destruct (print_every_requested e =? 0) eqn:E; cbn;
    intros [= <-]; cbn; rewrite ?str_app_nil_r; repeat split; try lia;
    try discriminate.
  all: unfold print_every_requested, wrap32, modulus in *;
       apply Z.eqb_neq in E; destruct (SNIFFER_PRINT_EVERY e); try lia;
       pose proof (Z.mod_pos_bound (Libc.atoi s) (2 ^ 32)); lia.
Qed.

(** Entering [sniffer_dpi_push] keeps the invariant, and starts the session
    when there is none. *)
Lemma call_push_inv st A D sid nwords w0 w1 w2 w3 st1 l1 :
  Inv st A D ->
  step st (CallPush sid nwords w0 w1 w2 w3) = Some (st1, l1) ->
  drained l1 = [] /\ Inv st1 (A ++ accepted l1) D.
Proof.
  intros HI. cbn [step]. unfold call_push.
  destruct (producer st) eqn:Hp; try discriminate.
  destruct (nwords =? 4); cbn [negb].
  - destruct HI as [HI | HI].
    + pose proof HI as (Hr & _ & _ & -> & -> & _).
      rewrite Hr. destruct (start_consumer st) as [st2 |] eqn:Hst;
        cbn [mbind option_bind]; [| discriminate].
      intros [= <- <-]. split; [reflexivity |]. right.
      destruct (start_consumer_session st HI st2 Hst)
        as (Sr & Sw & Srun & Sh & St & Sp & Ss & Sc).
      change ([] ++ accepted []) with (@nil Frame).
      exists ∅, WCheck, O. open_inv. rewrite Sh, St. cbn [length].
      repeat split; try tauto; try lia.
    + destruct HI as (r & pc & nt & Hring & Hw & Hrun & Hh & Ht & Hord & Hcap & Hpre &
          Hslots & Hwi & Hpi & Hs & Hc).
      rewrite Hring. cbn [mbind option_bind].
      intros [= <- <-]. split; [reflexivity |]. right. rewrite app_nil_r.
      exists r, pc, nt. open_inv. try rewrite Hp in *. tauto.
  - intros [= <- <-]. split; [reflexivity |].
    change (accepted [PushRet (mkFrame w0 w1 w2 w3) 0]) with (@nil Frame).
    now rewrite app_nil_r.
Qed.

End ProducerSteps.

Section Executions.

Lemma init_inv e : Inv (init e) [] [].
Proof. left. unfold idle_inv. cbn. repeat split. Qed.

Lemma step_inv st A D a st1 l1 :
  Inv st A D -> is_close a = false -> step st a = Some (st1, l1) ->
  Inv st1 (A ++ accepted l1) (D ++ drained l1).
Proof.
  intros HI Hnc Hstep. destruct a as [sid nwords w0 w1 w2 w3 | | | i].
  - destruct (call_push_inv _ _ _ _ _ _ _ _ _ _ _ HI Hstep) as (-> & HI').
    now rewrite app_nil_r.
  - discriminate.
  - destruct HI as [HI | HI].
    + destruct HI as (_ & _ & Hp & _). cbn in Hstep. unfold producer_step in Hstep.
      rewrite Hp in Hstep. discriminate.
    + destruct (producer_step_session _ _ _ _ _ HI Hstep) as (-> & HI').
      right. now rewrite app_nil_r.
  - destruct HI as [HI | HI].
    + destruct HI as (_ & Hw & _). cbn in Hstep. rewrite Hw in Hstep. discriminate.
    + destruct (writer_step_session _ _ _ HI)
        as (pc & st2 & l2 & Hw & Hstep2 & Hacc & _ & _ & _ & HI').
      destruct i as [| i].
      * rewrite Hstep2 in Hstep. injection Hstep as <- <-.
        right. now rewrite Hacc, app_nil_r.
      * cbn in Hstep. rewrite Hw in Hstep. discriminate.
Qed.

Lemma exec_app s1 s2 st :
  exec (s1 ++ s2) st
  = r ← exec s1 st; r' ← exec s2 r.1; Some (r'.1, r.2 ++ r'.2).
Proof.
  revert st. induction s1 as [| a s1 IH]; intros st; cbn [exec app].
  - cbn. destruct (exec s2 st) as [[st' l'] |]; reflexivity.
  - destruct (step st a) as [[st1 l1] |]; cbn; [| reflexivity].
    rewrite IH. destruct (exec s1 st1) as [[st2 l2] |]; cbn; [| reflexivity].
    destruct (exec s2 st2) as [[st3 l3] |]; cbn; [| reflexivity].
    now rewrite app_assoc.
Qed.

(** The invariant holds along every schedule that does not close. *)
Lemma exec_inv sched :
  forall st A D st' labs,
    Inv st A D -> no_close sched = true -> exec sched st = Some (st', labs) ->
    Inv st' (A ++ accepted labs) (D ++ drained labs).
Proof.
  induction sched as [| a sched IH]; intros st A D st' labs HI Hnc Hex.
  - injection Hex as <- <-. cbn. now rewrite !app_nil_r.
  - cbn in Hnc. apply andb_true_iff in Hnc as (Ha & Hnc).
    apply negb_true_iff in Ha.
    cbn [exec] in Hex.
    destruct (step st a) as [[st1 l1] |] eqn:Hstep; cbn in Hex; [| discriminate].
    destruct (exec sched st1) as [[st2 l2] |] eqn:Hrest; cbn in Hex; [| discriminate].
    injection Hex as <- <-.
    rewrite accepted_app, drained_app, !app_assoc.
    apply (IH st1); [| assumption | assumption].
    now apply (step_inv st A D a).
Qed.

Lemma reachable_inv e sched st labs :
  no_close sched = true -> exec sched (init e) = Some (st, labs) ->
  Inv st (accepted labs) (drained labs).
Proof.
  intros Hnc Hex.
  exact (exec_inv sched (init e) [] [] st labs (init_inv e) Hnc Hex).
Qed.

End Executions.

Section Liveness.

Variable A : list Frame.

Lemma quiet_refl st D : session_inv st A D -> quiet A st D 0 st D.
Proof.
  intros HI. exists []. cbn. rewrite app_nil_r. repeat split. exact HI.
Qed.

Lemma quiet_step st D pc :
  session_inv st A D -> writers st = [pc] ->
  exists st1 D1, quiet A st D 1 st1 D1 /\ writers st1 = [next_pc st pc].
Proof.
  intros HI Hw.
  destruct (writer_step_session st A D HI)
    as (pc' & st1 & l1 & Hw' & Hstep & Hacc & Hw1 & Hh & Hp & HI1).
  rewrite Hw in Hw'. injection Hw' as <-.
  exists st1, (D ++ drained l1). split; [| exact Hw1].
  exists l1. cbn [replicate exec]. rewrite Hstep. cbn.
  rewrite app_nil_r. repeat split; assumption.
Qed.

Lemma quiet_trans st D k1 st1 D1 k2 st2 D2 :
  quiet A st D k1 st1 D1 -> quiet A st1 D1 k2 st2 D2 ->
  quiet A st D (k1 + k2) st2 D2.
Proof.
  intros (l1 & Hex1 & Hacc1 & -> & _ & Hh1 & Hp1)
         (l2 & Hex2 & Hacc2 & -> & HI2 & Hh2 & Hp2).
  exists (l1 ++ l2). rewrite replicate_add, exec_app, Hex1. cbn. rewrite Hex2. cbn.
  rewrite accepted_app, drained_app, Hacc1, Hacc2, app_assoc.
  repeat split; try assumption; congruence.
Qed.

(** The inner loop runs to its bound. *)
Lemma loop_catch_up n :
  forall st D t h,
    session_inv st A D -> writers st = [WLoop t h] ->
    rb_used h t = Z.of_nat n ->
    exists st' D', quiet A st D n st' D' /\ writers st' = [WLoop h h].
Proof.
  induction n as [| n IH]; intros st D t h HI Hw Hu.
  - exists st, D. split; [now apply quiet_refl |].
    destruct HI as (r & pc & nt & _ & Hw' & _ & _ & _ & _ & _ & _ & _ & Hwi & _).
    rewrite Hw in Hw'. injection Hw' as <-.
    destruct Hwi as (-> & nh & -> & _).
    rewrite Hw. do 2 f_equal.
    pose proof (slot_range (length D)). pose proof (slot_range nh).
    rewrite rb_used_mod in Hu. revert Hu. Z.div_mod_to_equations. lia.
  - destruct (quiet_step st D _ HI Hw) as (st1 & D1 & Hq1 & Hw1).
    cbn [next_pc] in Hw1.
    assert (Hne : (t =? h) = false).
    { apply Z.eqb_neq. intros ->. rewrite rb_used_mod, Z.sub_diag in Hu.
      change (0 mod 65536) with 0 in Hu. lia. }
    rewrite Hne in Hw1.
    assert (HI1 : session_inv st1 A D1)
      by (destruct Hq1 as (? & _ & _ & _ & HI1 & _); exact HI1).
    destruct (IH st1 D1 (rb_next t) h HI1 Hw1) as (st2 & D2 & Hq2 & Hw2).
    + destruct HI as (r & pc & nt & _ & Hw' & _ & _ & _ & _ & _ & _ & _ & Hwi & _).
      rewrite Hw in Hw'. injection Hw' as <-.
      destruct Hwi as (-> & nh & -> & _).
      pose proof (slot_range (length D)). pose proof (slot_range nh).
      rewrite rb_used_mod in Hu |- *. rewrite rb_next_mod.
      rewrite Nat2Z.inj_succ in Hu. revert Hu.
      Z.div_mod_to_equations. lia.
    + exists st2, D2. split; [| exact Hw2].
      exact (quiet_trans _ _ 1 _ _ n _ _ Hq1 Hq2).
Qed.

Lemma quiet_inv st D k st' D' : quiet A st D k st' D' -> session_inv st' A D'.
Proof. intros (? & _ & _ & _ & HI & _). exact HI. Qed.

Lemma quiet_head st D k st' D' : quiet A st D k st' D' -> head st' = head st.
Proof. intros (? & _ & _ & _ & _ & Hh & _). exact Hh. Qed.

Lemma session_running st D : session_inv st A D -> running st = true.
Proof. intros (r & pc & nt & _ & _ & Hrun & _). exact Hrun. Qed.

Lemma from_load_head st D t :
  session_inv st A D -> writers st = [WLoadHead t] ->
  exists k st' D' t', quiet A st D k st' D' /\ writers st' = [WLoop t' (head st')].
Proof.
  intros HI Hw. destruct (quiet_step st D _ HI Hw) as (st1 & D1 & Hq & Hw1).
  exists 1%nat, st1, D1, t. split; [exact Hq |].
  cbn [next_pc] in Hw1. now rewrite (quiet_head _ _ _ _ _ Hq).
Qed.

Lemma from_load_tail st D :
  session_inv st A D -> writers st = [WLoadTail] ->
  exists k st' D' t', quiet A st D k st' D' /\ writers st' = [WLoop t' (head st')].
Proof.
  intros HI Hw. destruct (quiet_step st D _ HI Hw) as (st1 & D1 & Hq & Hw1).
  cbn [next_pc] in Hw1.
  destruct (from_load_head st1 D1 _ (quiet_inv _ _ _ _ _ Hq) Hw1)
    as (k & st2 & D2 & t' & Hq2 & Hw2).
  exists (1 + k)%nat, st2, D2, t'. split; [| exact Hw2].
  exact (quiet_trans _ _ _ _ _ _ _ _ Hq Hq2).
Qed.

Lemma from_check st D :
  session_inv st A D -> writers st = [WCheck] ->
  exists k st' D' t', quiet A st D k st' D' /\ writers st' = [WLoop t' (head st')].
Proof.
  intros HI Hw. destruct (quiet_step st D _ HI Hw) as (st1 & D1 & Hq & Hw1).
  cbn [next_pc] in Hw1. rewrite (session_running _ _ HI) in Hw1.
  destruct (from_load_tail st1 D1 (quiet_inv _ _ _ _ _ Hq) Hw1)
    as (k & st2 & D2 & t' & Hq2 & Hw2).
  exists (1 + k)%nat, st2, D2, t'. split; [| exact Hw2].
  exact (quiet_trans _ _ _ _ _ _ _ _ Hq Hq2).
Qed.

Lemma from_flush st D :
  session_inv st A D -> writers st = [WFlush] ->
  exists k st' D' t', quiet A st D k st' D' /\ writers st' = [WLoop t' (head st')].
Proof.
  intros HI Hw. destruct (quiet_step st D _ HI Hw) as (st1 & D1 & Hq & Hw1).
  cbn [next_pc] in Hw1.
  destruct (from_check st1 D1 (quiet_inv _ _ _ _ _ Hq) Hw1)
    as (k & st2 & D2 & t' & Hq2 & Hw2).
  exists (1 + k)%nat, st2, D2, t'. split; [| exact Hw2].
  exact (quiet_trans _ _ _ _ _ _ _ _ Hq Hq2).
Qed.

Lemma from_loop st D t h :
  session_inv st A D -> writers st = [WLoop t h] ->
  exists k st' D' t', quiet A st D k st' D' /\ writers st' = [WLoop t' (head st')].
Proof.
  intros HI Hw.
  destruct (loop_catch_up (Z.to_nat (rb_used h t)) st D t h HI Hw)
    as (st1 & D1 & Hq1 & Hw1).
  { pose proof (rb_used_range h t). lia. }
  destruct (quiet_step st1 D1 _ (quiet_inv _ _ _ _ _ Hq1) Hw1)
    as (st2 & D2 & Hq2 & Hw2).
  cbn [next_pc] in Hw2. rewrite Z.eqb_refl in Hw2.
  destruct (from_flush st2 D2 (quiet_inv _ _ _ _ _ Hq2) Hw2)
    as (k & st3 & D3 & t' & Hq3 & Hw3).
  exists (Z.to_nat (rb_used h t) + (1 + k))%nat, st3, D3, t'.
  split; [| exact Hw3].
  exact (quiet_trans _ _ _ _ _ _ _ _ Hq1 (quiet_trans _ _ _ _ _ _ _ _ Hq2 Hq3)).
Qed.

(** From anywhere in its loop the writer reaches the start of a pass that
    has read the current [head]. *)
Lemma to_fresh_pass st D :
  session_inv st A D ->
  exists k st' D' t', quiet A st D k st' D' /\ writers st' = [WLoop t' (head st')].
Proof.
  intros HI. pose proof HI as (r & pc & nt & _ & Hw & _ & _ & _ & _ & _ & _ & _ & Hwi & _).
  destruct pc as [| | t | t h | |].
  - now apply from_check.
  - now apply from_load_tail.
  - now apply (from_load_head st D t).
  - now apply (from_loop st D t h).
  - now apply from_flush.
  - contradiction.
Qed.

(** Left alone, the writer drains every accepted frame. *)
Lemma writer_catches_up st D :
  session_inv st A D -> exists k st' D', quiet A st D k st' D' /\ D' = A.
Proof.
  intros HI.
  destruct (to_fresh_pass st D HI) as (k1 & st1 & D1 & t & Hq1 & Hw1).
  destruct (loop_catch_up (Z.to_nat (rb_used (head st1) t)) st1 D1 t (head st1)
              (quiet_inv _ _ _ _ _ Hq1) Hw1)
    as (st2 & D2 & Hq2 & Hw2).
  { pose proof (rb_used_range (head st1) t). lia. }
  exists (k1 + Z.to_nat (rb_used (head st1) t))%nat, st2, D2.
  split; [exact (quiet_trans _ _ _ _ _ _ _ _ Hq1 Hq2) |].
  pose proof (quiet_head _ _ _ _ _ Hq2) as Hh2.
  destruct (quiet_inv _ _ _ _ _ Hq2)
    as (r & pc & nt & _ & Hw & _ & Hh & _ & Hord & Hcap & Hpre & _ & Hwi & _).
  rewrite Hw2 in Hw. injection Hw as <-.
  destruct Hwi as (Ht & _).
  rewrite <- Hh2, Hh in Ht. apply slot_inj in Ht; [| lia | lia].
  rewrite Hpre, <- Ht. apply firstn_all.
Qed.

End Liveness.

(** Whatever has been accepted so far is drained once the writer has run
    long enough on its own. *)
Lemma eventually_drained st A D :
  Inv st A D ->
  exists k st' labs,
    exec (replicate k (Writer 0)) st = Some (st', labs) /\
    accepted labs = [] /\ D ++ drained labs = A.
Proof.
  intros [HI | HI].
  - destruct HI as (_ & _ & _ & -> & -> & _). exists O, st, []. repeat split.
  - destruct (writer_catches_up A st D HI) as (k & st' & D' & Hq & HD).
    destruct Hq as (labs & Hex & Hacc & -> & _).
    exists k, st', labs. repeat split; assumption.
Qed.

(** ** The session properties *)

Lemma inflight_bound st A D :
  Inv st A D ->
  exists inflight, A = D ++ inflight /\ Z.of_nat (length inflight) <= RB_SIZE - 1.
Proof.
  intros [HI | HI].
  - destruct HI as (_ & _ & _ & -> & -> & _). exists []. split; [reflexivity |].
    cbn. rewrite RB_SIZE_val. lia.
  - destruct HI as (r & pc & nt & _ & _ & _ & _ & _ & Hord & Hcap & Hpre & _).
    exists (drop (length D) A). split.
    + rewrite Hpre at 1. symmetry. apply take_drop.
    + rewrite length_drop, RB_SIZE_val. lia.
Qed.

(** The slot the producer is about to fill, or has filled and not yet
    published, is never the slot the writer is about to read. *)
Lemma writer_reads_published_slots e sched st labs fr h t h' :
  no_close sched = true ->
  exec sched (init e) = Some (st, labs) ->
  (producer st = PushPublish fr h \/ exists t0, producer st = PushCheck fr h t0) ->
  writers st = [WLoop t h'] -> t <> h' -> t <> h.
Proof.
  intros Hnc Hex Hp Hw Hne.
  destruct (reachable_inv e sched st labs Hnc Hex) as [HI | HI].
  - destruct HI as (_ & Hw0 & _). congruence.
  - destruct HI as (r & pc & nt & _ & Hw' & _ & Hh & _ & Hord & Hcap & _ & _ &
                    Hwi & Hpi & _).
    rewrite Hw in Hw'. injection Hw' as <-.
    destruct Hwi as (-> & nh & -> & Hnh).
    assert (Hlt : (length (drained labs) < length (accepted labs))%nat).
    { assert (length (drained labs) <> nh) by (intros E; apply Hne; now rewrite E).
      lia. }
    assert (Hhead : h = slot (length (accepted labs))).
    { unfold producer_inv in Hpi. destruct Hp as [Hp | (t0 & Hp)];
        rewrite Hp in Hpi; destruct Hpi as (-> & _); exact Hh. }
    subst h. intros E. symmetry in E. apply slot_inj in E; lia.
Qed.

(** C1. Along every execution of a session, whatever the interleaving of the
    producer's and the writer's steps, the frames drained so far are an
    initial segment of the frames accepted so far, in the same order, and at
    most [RB_SIZE - 1] accepted frames are still in flight; and from every
    state so reached the writer, running on, drains exactly the accepted
    frames: each one once, in the order of acceptance, none lost. *)
Theorem accepted_frames_drained_in_order
    (e : Env) (sched : list Action) (st : State) (labs : list Label) :
  no_close sched = true ->
  exec sched (init e) = Some (st, labs) ->
  (exists inflight,
     accepted labs = drained labs ++ inflight /\
     Z.of_nat (length inflight) <= RB_SIZE - 1) /\
  (exists k st' labs',
     exec (replicate k (Writer 0)) st = Some (st', labs') /\
     accepted (labs ++ labs') = accepted labs /\
     drained (labs ++ labs') = accepted labs).
Proof.
  intros Hnc Hex. pose proof (reachable_inv e sched st labs Hnc Hex) as HI.
  split; [exact (inflight_bound _ _ _ HI) |].
  destruct (eventually_drained _ _ _ HI) as (k & st' & labs' & Hex' & Hacc & Hdr).
  exists k, st', labs'. split; [exact Hex' |].
  rewrite accepted_app, drained_app, Hacc, app_nil_r. split; [reflexivity | exact Hdr].
Qed.

Lemma accepted_frames_drained_in_order_witness :
  no_close example_schedule = true /\
  exists st labs,
    exec example_schedule (init example_env) = Some (st, labs) /\
    (exists inflight,
       accepted labs = drained labs ++ inflight /\
       Z.of_nat (length inflight) <= RB_SIZE - 1) /\
    (exists k st' labs',
       exec (replicate k (Writer 0)) st = Some (st', labs') /\
       accepted (labs ++ labs') = accepted labs /\
       drained (labs ++ labs') = accepted labs).
Proof.
  split; [reflexivity |].
  destruct (exec example_schedule (init example_env)) as [[st labs] |] eqn:Hex;
    [| vm_compute in Hex; discriminate Hex].
  exists st, labs. split; [reflexivity |].
  exact (accepted_frames_drained_in_order example_env example_schedule st labs
           eq_refl Hex).
Defined.


(** C7, amended. With console echo enabled and sampling period [P] (at least
    1), after the writer has drained [N] accepted frames, [N] below [2^32],
    exactly [N / P] console lines have been emitted, and they are the lines
    of the frames whose index, counted from 1, is a multiple of [P]. *)
Theorem console_echo_sampling
    (e : Env) (sched : list Action) (st : State) (labs : list Label) :
  no_close sched = true ->
  exec sched (init e) = Some (st, labs) ->
  print_enable st = true ->
  Z.of_nat (length (drained labs)) < modulus ->
  1 <= print_every st /\
  console st = console_lines (sampled (print_every st) (drained labs)) /\
  Z.of_nat (length (console st))
  = Z.of_nat (length (drained labs)) / print_every st.
Proof.
  intros Hnc Hex Hpe Hn.
  destruct (reachable_inv e sched st labs Hnc Hex) as [HI | HI].
  - destruct HI as (_ & _ & _ & _ & _ & _ & _ & _ & _ & _ & _ & _ & _ & Hoff).
    congruence.
  - destruct HI as (r & pc & nt & _ & _ & _ & _ & _ & _ & _ & _ & _ & _ & _ &
                    _ & (Hp & Hc)).
    destruct (Hc Hpe) as (_ & Hlines). specialize (Hlines Hn).
    split; [exact Hp |]. split; [exact Hlines |].
    rewrite Hlines. unfold console_lines. rewrite length_map.
    now apply length_sampled.
Qed.

Lemma console_echo_sampling_witness :
  no_close example_schedule = true /\
  exists st labs,
    exec example_schedule (init example_env) = Some (st, labs) /\
    print_enable st = true /\ print_every st = 2 /\
    length (drained labs) = 2%nat /\
    Z.of_nat (length (console st))
    = Z.of_nat (length (drained labs)) / print_every st.
Proof.
  split; [reflexivity |].
  destruct (exec example_schedule (init example_env)) as [[st labs] |] eqn:Hex;
    [| vm_compute in Hex; discriminate Hex].
  exists st, labs. split; [reflexivity |].
  assert (Hst : print_enable st = true /\ print_every st = 2 /\
                length (drained labs) = 2%nat).
  { vm_compute in Hex. injection Hex as <- <-. repeat split. }
  destruct Hst as (Hpe & Hpv & Hlen).
  split; [exact Hpe |]. split; [exact Hpv |]. split; [exact Hlen |].
  assert (Hn : Z.of_nat (length (drained labs)) < modulus)
    by (rewrite Hlen; reflexivity).
  exact (proj2 (proj2 (console_echo_sampling example_env example_schedule st labs
                         eq_refl Hex Hpe Hn))).
Defined.

(** ** The print counter past [2^32] frames *)

Section CounterWrap.

Lemma drain_many_succ n fr st :
  drain_many (N.succ n) fr st = drain_many n fr st ≫= drain_frame fr.
Proof. unfold drain_many. now rewrite N.iter_succ. Qed.

(** [drain_many] is the loop body run on [n] frames: it keeps what the
    invariant says of the sinks and of the console. *)
Lemma drain_many_inv fr st :
  sinks_inv st [] -> console_inv st [] ->
  forall n, exists st',
    drain_many n fr st = Some st' /\
    sinks_inv st' (replicate (N.to_nat n) fr) /\
    console_inv st' (replicate (N.to_nat n) fr) /\
    print_enable st' = print_enable st /\ print_every st' = print_every st.
Proof.
  intros Hs Hc n. induction n as [| n IH] using N.peano_ind.
  - exists st. split; [reflexivity |]. split; [exact Hs |]. split; [exact Hc |].
    split; reflexivity.
  - destruct IH as (st1 & Hrun & Hs1 & Hc1 & Hpe & Hpv).
    destruct (drain_frame_inv st1 _ fr Hs1 Hc1) as (st2 & Hd & Hs2 & Hc2 & Hsame).
    exists st2. rewrite drain_many_succ, Hrun. cbn [mbind option_bind].
    rewrite N2Nat.inj_succ, replicate_S_end.
    destruct Hsame as (_ & _ & _ & _ & _ & _ & Spe & Spv & _).
    split; [exact Hd |]. split; [exact Hs2 |]. split; [exact Hc2 |].
    split; congruence.
Qed.

Lemma drain_frame_console fr st st1 :
  drain_frame fr st = Some st1 ->
  print_enable st = true ->
  add (print_count st) 1 mod print_every st = 0 ->
  console st1 = console st ++ [Fmt.console_line (decode_to_fields fr)] /\
  print_every st1 = print_every st.
Proof.
  unfold drain_frame. intros Hd Hpe Hz.
  destruct st as [r h t ru fb fc pe pv pc e bf cf co pr ws]; cbn in *.
  destruct fb; cbn in Hd; [| discriminate].
  destruct fc; cbn in Hd; [| discriminate].
  injection Hd as <-. subst pe. unfold console_echo; cbn.
  rewrite Hz. cbn. split; reflexivity.
Qed.

End CounterWrap.

(** C7 as stated fails: with the period 3, the loop body run on [2^32]
    frames has printed 1431655766 lines, one more than [2^32 / 3]: the
    32-bit counter wraps to 0 at frame [2^32], and 0 is a multiple of 3. *)
Lemma console_count_wraps_at_2_32 :
  exists st0 st,
    start_consumer (init every_third_env) = Some st0 /\
    print_enable st0 = true /\ print_every st0 = 3 /\
    drain_many (2 ^ 32) (mkFrame 0 0 0 0) st0 = Some st /\
    Z.of_nat (length (console st)) = 1431655766 /\
    Z.of_N (2 ^ 32) / print_every st = 1431655765.
Proof.
  destruct (start_consumer (init every_third_env)) as [st0 |] eqn:Hst;
    [| vm_compute in Hst; discriminate Hst].
  assert (H0 : sinks_inv st0 [] /\ console_inv st0 [] /\
               print_enable st0 = true /\ print_every st0 = 3).
  { vm_compute in Hst. injection Hst as <-.
    unfold sinks_inv, console_inv. cbn. repeat split; try lia. }
  destruct H0 as (Hs & Hc & Hpe & Hpv).
  destruct (drain_many_inv (mkFrame 0 0 0 0) st0 Hs Hc 4294967295)
    as (st1 & Hrun & _ & (_ & Hc1) & Hpe1 & Hpv1).
  rewrite Hpe in Hpe1. rewrite Hpv in Hpv1.
  destruct (Hc1 Hpe1) as (Hcount & Hlines).
  rewrite length_replicate, N_nat_Z in Hcount, Hlines.
  change (wrap32 (Z.of_N 4294967295)) with 4294967295 in Hcount.
  specialize (Hlines eq_refl).
  destruct (drain_frame (mkFrame 0 0 0 0) st1) as [st2 |] eqn:Hd.
  - destruct (drain_frame_console _ _ _ Hd Hpe1) as (Hcon & Hpv2).
    { rewrite Hcount, Hpv1. reflexivity. }
    exists st0, st2. split; [reflexivity |]. split; [exact Hpe |].
    split; [exact Hpv |].
    change (2 ^ 32)%N with (N.succ 4294967295).
    rewrite drain_many_succ, Hrun. cbn [mbind option_bind].
    split; [exact Hd |].
    rewrite Hpv2, Hpv1. split; [| reflexivity].
    rewrite Hcon, length_app, Nat2Z.inj_add, Hlines.
    unfold console_lines. rewrite length_map, length_sampled by (rewrite Hpv1; lia).
    rewrite Hpv1, length_replicate, N_nat_Z. reflexivity.
  - exfalso.
    destruct (drain_many_inv (mkFrame 0 0 0 0) st0 Hs Hc (N.succ 4294967295))
      as (st2 & Hrun2 & _).
    rewrite drain_many_succ, Hrun in Hrun2. cbn [mbind option_bind] in Hrun2.
    congruence.
Qed.

(** ** Formats and parsing on concrete values *)

Example fmt_u_max : Fmt.fmt_u 4294967295 = "4294967295"%string.
Proof. reflexivity. Qed.

Example fmt_X_max : Fmt.fmt_X 4294967295 = "FFFFFFFF"%string.
Proof. reflexivity. Qed.

Example fmt_0X_pads : Fmt.fmt_0X 8 0xBEEF = "0000BEEF"%string.
Proof. reflexivity. Qed.

Example csv_record_scenario :
  Fmt.csv_record (decode_to_fields (mkFrame 0xA0000000 0 0 0xE0))
  = ("10,0,0,0x00000000,0x00000000,0,1,1,1" +:+ Fmt.nl)%string.
Proof. reflexivity. Qed.

Example console_line_scenario :
  Fmt.console_line (decode_to_fields (mkFrame 0xA0000000 0 0 0xE0))
  = ("src=10 ts=00000000/0000 addr=00000000 data=00000000 be=0 we=1 v1 g1"
     +:+ Fmt.nl)%string.
Proof. reflexivity. Qed.

Example frame_bytes_scenario :
  Fmt.frame_bytes (mkFrame 0xA0000000 0 0 0xE0)
  = [0; 0; 0; 0xA0; 0; 0; 0; 0; 0; 0; 0; 0; 0xE0; 0; 0; 0].
Proof. reflexivity. Qed.

Example atoi_signed : Libc.atoi "  -12x"%string = -12.
Proof. reflexivity. Qed.

Example atoi_empty : Libc.atoi ""%string = 0.
Proof. reflexivity. Qed.

Example sampled_every_second :
  sampled 2 [mkFrame 1 0 0 0; mkFrame 2 0 0 0; mkFrame 3 0 0 0; mkFrame 4 0 0 0]
  = [mkFrame 2 0 0 0; mkFrame 4 0 0 0].
Proof. reflexivity. Qed.

(** The scenario of the specification: one frame pushed, one pass of the
    writer; one binary record and one text record follow the header. *)
Example scenario_one_frame :
  exec [CallPush 0 4 0xA0000000 0 0 0xE0; Producer; Producer; Producer;
        Writer 0; Writer 0; Writer 0; Writer 0; Writer 0; Writer 0]
       (init (mkEnv None None true true true))
  = Some ({| ring := Some {[ 0 := mkFrame 0xA0000000 0 0 0xE0 ]};
             head := 1; tail := 1; running := true;
             fbin := Some [0; 0; 0; 0xA0; 0; 0; 0; 0; 0; 0; 0; 0; 0xE0; 0; 0; 0];
             fcsv := Some (Fmt.csv_header +:+
                           "10,0,0,0x00000000,0x00000000,0,1,1,1" +:+ Fmt.nl)%string;
             print_enable := false; print_every := 1; print_count := 0;
             env := mkEnv None None true true true;
             bin_file := Some [0; 0; 0; 0xA0; 0; 0; 0; 0; 0; 0; 0; 0; 0xE0; 0; 0; 0];
             csv_file := Some (Fmt.csv_header +:+
                               "10,0,0,0x00000000,0x00000000,0,1,1,1" +:+ Fmt.nl)%string;
             console := []; producer := PIdle; writers := [WCheck] |},
          [PushRet (mkFrame 0xA0000000 0 0 0xE0) 1;
           Drained (mkFrame 0xA0000000 0 0 0xE0)]).
Proof. vm_compute. reflexivity. Qed.

(** ** Further properties of the decoder and of the binary record *)

Section BitsAsArithmetic.

(** Two bit ranges that do not overlap are or-ed by adding them. *)
Lemma lor_add a b k :
  0 <= k -> a mod 2 ^ k = 0 -> 0 <= b < 2 ^ k -> Z.lor a b = a + b.
Proof.
  intros Hk Ha Hb. apply Z.or_to_plus. apply Z.bits_inj'. intros i Hi.
  rewrite Z.land_spec, Z.bits_0.
  destruct (Z.ltb_spec i k) as [Hlt | Hge].
  - rewrite <- (Z.mod_pow2_bits_low a k i) by lia. rewrite Ha, Z.bits_0. reflexivity.
  - rewrite <- (Z.mod_small b (2 ^ k)) by lia.
    rewrite Z.mod_pow2_bits_high by lia. apply andb_false_r.
Qed.

Lemma shr_div x n : 0 <= n -> shr x n = x / 2 ^ n.
Proof. intros Hn. unfold shr. now apply Z.shiftr_div_pow2. Qed.

Lemma shl_mul x n : 0 <= n -> shl x n = (x * 2 ^ n) mod 2 ^ 32.
Proof. intros Hn. unfold shl, wrap32, modulus. now rewrite Z.shiftl_mul_pow2. Qed.

Lemma land_mod x k m : 0 <= k -> m = 2 ^ k - 1 -> Z.land x m = x mod 2 ^ k.
Proof.
  intros Hk ->. replace (2 ^ k - 1) with (Z.ones k) by (rewrite Z.ones_equiv; lia).
  now apply Z.land_ones.
Qed.

End BitsAsArithmetic.

(** Shifts and masks by the constants of the layout, as arithmetic. *)
Ltac to_arith :=
  rewrite ?shr_div, ?shl_mul by lia;
  rewrite ?(land_mod _ 28 0x0FFFFFFF), ?(land_mod _ 20 0xFFFFF),
    ?(land_mod _ 16 0xFFFF), ?(land_mod _ 12 0xFFF), ?(land_mod _ 8 0xFF),
    ?(land_mod _ 4 0xF), ?(land_mod _ 1 0x1) by (try reflexivity; lia);
  change (2 ^ 32) with 4294967296 in *; change (2 ^ 28) with 268435456 in *;
  change (2 ^ 24) with 16777216 in *;
  change (2 ^ 20) with 1048576 in *; change (2 ^ 16) with 65536 in *;
  change (2 ^ 12) with 4096 in *; change (2 ^ 8) with 256 in *;
  change (2 ^ 7) with 128 in *; change (2 ^ 6) with 64 in *;
  change (2 ^ 5) with 32 in *; change (2 ^ 4) with 16 in *;
  change (2 ^ 1) with 2 in *.

Ltac dm := Z.div_mod_to_equations; lia.

Section DecodeArithmetic.

(** A field spliced from the low bits of one word and the high bits of the
    next. *)
Lemma splice_arith x y k m :
  0 <= x < 4294967296 -> 0 <= y < 4294967296 ->
  0 < k < 32 -> m = 2 ^ (32 - k) - 1 ->
  Z.lor (shl (Z.land x m) k) (shr y (32 - k))
  = (x mod 2 ^ (32 - k)) * 2 ^ k + y / 2 ^ (32 - k).
Proof.
  intros Hx Hy Hk ->.
  rewrite (land_mod x (32 - k)) by (try reflexivity; lia).
  rewrite shr_div, shl_mul by lia.
  assert (P : 2 ^ 32 = 2 ^ (32 - k) * 2 ^ k)
    by (rewrite <- Z.pow_add_r by lia; f_equal; lia).
  assert (0 < 2 ^ k) by (apply Z.pow_pos_nonneg; lia).
  assert (0 < 2 ^ (32 - k)) by (apply Z.pow_pos_nonneg; lia).
  pose proof (Z.mod_pos_bound x (2 ^ (32 - k)) ltac:(lia)).
  rewrite (Z.mod_small (x mod 2 ^ (32 - k) * 2 ^ k)) by nia.
  apply (lor_add _ _ k); [lia | apply Z.mod_mul; lia |].
  split; [apply Z.div_pos; lia |].
  apply Z.div_lt_upper_bound; [lia |]. change 4294967296 with (2 ^ 32) in Hy. nia.
Qed.

(** The decoder in terms of division and remainder. *)
Lemma decode_arith fr :
  wf_frame fr ->
  decode_to_fields fr
  = {| src := w0 fr / 268435456;
       req_ts := (w0 fr mod 268435456) * 16 + w1 fr / 268435456;
       resp_ts := (w1 fr / 4096) mod 65536;
       addr := (w1 fr mod 4096) * 1048576 + w2 fr / 4096;
       data := (w2 fr mod 4096) * 1048576 + w3 fr / 4096;
       be := (w3 fr / 256) mod 16;
       we := (w3 fr / 128) mod 2;
       valid := (w3 fr / 64) mod 2;
       gnt := (w3 fr / 32) mod 2 |}.
Proof.
  destruct fr as [a b c d]. unfold wf_frame, is_u32, modulus; cbn [w0 w1 w2 w3].
  change (2 ^ 32) with 4294967296. intros (Ha & Hb & Hc & Hd).
  unfold decode_to_fields; cbn [w0 w1 w2 w3].
  rewrite (splice_arith a b 4), (splice_arith b c 20), (splice_arith c d 20)
    by (try reflexivity; lia).
  to_arith. f_equal. dm.
Qed.

(** The packing in terms of multiples of powers of two. *)
Lemma encode_arith f :
  wf_fields f ->
  encode_fields f
  = {| w0 := src f * 268435456 + req_ts f / 16;
       w1 := (req_ts f mod 16) * 268435456 + resp_ts f * 4096 + addr f / 1048576;
       w2 := (addr f mod 1048576) * 4096 + data f / 1048576;
       w3 := (data f mod 1048576) * 4096 + be f * 256 + we f * 128
             + valid f * 64 + gnt f * 32 |}.
Proof.
  destruct f as [s q p a d b e v g].
  unfold wf_fields, is_u32, modulus;
    cbn [src req_ts resp_ts addr data be we valid gnt].
  change (2 ^ 32) with 4294967296.
  intros (Hs & Hq & Hp & Ha & Hd & Hb & He & Hv & Hg).
  unfold encode_fields; cbn [src req_ts resp_ts addr data be we valid gnt].
  to_arith. f_equal.
  - rewrite (lor_add _ _ 28); to_arith; dm.
  - rewrite (lor_add _ (p * 4096 mod 4294967296) 28); to_arith; try dm.
    rewrite (lor_add _ _ 12); to_arith; dm.
  - rewrite (lor_add _ _ 12); to_arith; dm.
  - rewrite (lor_add _ (b * 256 mod 4294967296) 12); to_arith; try dm.
    rewrite (lor_add _ (e * 128 mod 4294967296) 8); to_arith; try dm.
    rewrite (lor_add _ (v * 64 mod 4294967296) 7); to_arith; try dm.
    rewrite (lor_add _ (g * 32 mod 4294967296) 6); to_arith; dm.
Qed.

End DecodeArithmetic.

(** X1. The decoder is onto the field values of the layout: packing any nine
    values that fit their widths gives a 128-bit frame that decodes to exactly
    these values. *)
Theorem decode_encode_fields (f : Fields) :
  wf_fields f ->
  wf_frame (encode_fields f) /\ decode_to_fields (encode_fields f) = f.
Proof.
  intros Hf. pose proof (encode_arith f Hf) as E.
  destruct f as [s q p a d b e v g].
  unfold wf_fields, is_u32, modulus in Hf;
    cbn [src req_ts resp_ts addr data be we valid gnt] in *.
  change (2 ^ 32) with 4294967296 in Hf.
  destruct Hf as (Hs & Hq & Hp & Ha & Hd & Hb & He & Hv & Hg).
  assert (Hwf : wf_frame (encode_fields (mkFields s q p a d b e v g))).
  { rewrite E. unfold wf_frame, is_u32, modulus; cbn [w0 w1 w2 w3].
    change (2 ^ 32) with 4294967296. repeat split; dm. }
  split; [exact Hwf |].
  rewrite (decode_arith _ Hwf), E; cbn [w0 w1 w2 w3]. f_equal; dm.
Qed.

Lemma decode_encode_fields_witness :
  wf_fields (mkFields 0xA 0x23456789 0xABCD 0xEF00FEDC 0xBA987654 0x3 1 0 1) /\
  decode_to_fields
    (encode_fields (mkFields 0xA 0x23456789 0xABCD 0xEF00FEDC 0xBA987654 0x3 1 0 1))
  = mkFields 0xA 0x23456789 0xABCD 0xEF00FEDC 0xBA987654 0x3 1 0 1.
Proof.
  assert (H : wf_fields (mkFields 0xA 0x23456789 0xABCD 0xEF00FEDC 0xBA987654 0x3 1 0 1))
    by (unfold wf_fields, is_u32, modulus; cbn; lia).
  split; [exact H |].
  exact (proj2 (decode_encode_fields _ H)).
Defined.

Lemma clear_pad_arith fr :
  wf_frame fr ->
  wf_frame (clear_pad fr) /\ w3 (clear_pad fr) = w3 fr - w3 fr mod 32.
Proof.
  destruct fr as [a b c d]. unfold wf_frame, is_u32, modulus, clear_pad;
    cbn [w0 w1 w2 w3].
  change (2 ^ 32) with 4294967296. intros (Ha & Hb & Hc & Hd).
  assert (E : Z.land d 0xFFFFFFE0 = d - d mod 32).
  { assert (Hu : is_u32 d) by (unfold is_u32, modulus; change (2 ^ 32) with 4294967296; lia).
    pose proof (pad_sum d Hu) as Hs.
    rewrite (land_mod d 5 0x1F) in Hs by (try reflexivity; lia).
    change (2 ^ 5) with 32 in Hs. lia. }
  rewrite E. repeat split; try lia; dm.
Qed.

Lemma decode_clear_pad fr :
  wf_frame fr -> decode_to_fields (clear_pad fr) = decode_to_fields fr.
Proof.
  intros Hwf. destruct (clear_pad_arith fr Hwf) as (Hwf' & E).
  rewrite (decode_arith _ Hwf'), (decode_arith _ Hwf), E.
  destruct fr as [a b c d]; cbn [w0 w1 w2 w3 clear_pad] in *.
  f_equal; dm.
Qed.

(** X2. Two frames decode to the same nine fields exactly when they agree on
    every bit except bits 4..0 of word 3: these five bits are all that the
    decoded record, and with it the CSV sink, leaves out. *)
Theorem decode_eq_iff (fr1 fr2 : Frame) :
  wf_frame fr1 -> wf_frame fr2 ->
  (decode_to_fields fr1 = decode_to_fields fr2 <-> clear_pad fr1 = clear_pad fr2).
Proof.
  intros H1 H2. split; intros E.
  - rewrite <- (encode_decode_clear_pad fr1 H1), <- (encode_decode_clear_pad fr2 H2).
    now rewrite E.
  - rewrite <- (decode_clear_pad fr1 H1), <- (decode_clear_pad fr2 H2).
    now rewrite E.
Qed.

Lemma decode_eq_iff_witness :
  wf_frame (mkFrame 1 2 3 0x87654321) /\ wf_frame (mkFrame 1 2 3 0x8765433F) /\
  decode_to_fields (mkFrame 1 2 3 0x87654321)
  = decode_to_fields (mkFrame 1 2 3 0x8765433F).
Proof.
  assert (H1 : wf_frame (mkFrame 1 2 3 0x87654321))
    by (unfold wf_frame, is_u32, modulus; cbn; lia).
  assert (H2 : wf_frame (mkFrame 1 2 3 0x8765433F))
    by (unfold wf_frame, is_u32, modulus; cbn; lia).
  split; [exact H1 |]. split; [exact H2 |].
  apply (proj2 (decode_eq_iff _ _ H1 H2)). reflexivity.
Defined.

Lemma word_bytes_arith w :
  Fmt.word_bytes w
  = [w mod 256; (w / 256) mod 256; (w / 65536) mod 256; (w / 16777216) mod 256].
Proof. unfold Fmt.word_bytes. to_arith. reflexivity. Qed.

Lemma word_bytes_inj w w' :
  is_u32 w -> is_u32 w' -> Fmt.word_bytes w = Fmt.word_bytes w' -> w = w'.
Proof.
  unfold is_u32, modulus. change (2 ^ 32) with 4294967296. intros Hw Hw'.
  rewrite !word_bytes_arith. intros [= E0 E1 E2 E3]. dm.
Qed.

(** X3. The 16-byte binary record determines the frame: two frames with the
    same record are the same frame, so the binary sink, unlike the CSV sink,
    loses no bit. *)
Theorem frame_bytes_inj (fr1 fr2 : Frame) :
  wf_frame fr1 -> wf_frame fr2 ->
  Fmt.frame_bytes fr1 = Fmt.frame_bytes fr2 -> fr1 = fr2.
Proof.
  destruct fr1 as [a b c d], fr2 as [a' b' c' d'].
  intros (Ha & Hb & Hc & Hd) (Ha' & Hb' & Hc' & Hd'); cbn [w0 w1 w2 w3] in *.
  unfold Fmt.frame_bytes; cbn [w0 w1 w2 w3]. intros E.
  assert (Ea : Fmt.word_bytes a = Fmt.word_bytes a' /\
               Fmt.word_bytes b = Fmt.word_bytes b' /\
               Fmt.word_bytes c = Fmt.word_bytes c' /\
               Fmt.word_bytes d = Fmt.word_bytes d').
  { unfold Fmt.word_bytes in *. cbn [app] in E.
    injection E as E1 E2 E3 E4 E5 E6 E7 E8 E9 E10 E11 E12 E13 E14 E15 E16.
    repeat split; congruence. }
  destruct Ea as (Ea & Eb & Ec & Ed).
  f_equal; now apply word_bytes_inj.
Qed.

Lemma frame_bytes_inj_witness :
  wf_frame (mkFrame 0xA0000000 0 0 0xE0) /\
  wf_frame (mkFrame (0x50000000 + 0x50000000) 0 0 (0xFF - 0x1F)) /\
  Fmt.frame_bytes (mkFrame 0xA0000000 0 0 0xE0)
  = Fmt.frame_bytes (mkFrame (0x50000000 + 0x50000000) 0 0 (0xFF - 0x1F)) /\
  mkFrame 0xA0000000 0 0 0xE0 = mkFrame (0x50000000 + 0x50000000) 0 0 (0xFF - 0x1F).
Proof.
  assert (H1 : wf_frame (mkFrame 0xA0000000 0 0 0xE0))
    by (unfold wf_frame, is_u32, modulus; cbn; lia).
  assert (H2 : wf_frame (mkFrame (0x50000000 + 0x50000000) 0 0 (0xFF - 0x1F)))
    by (unfold wf_frame, is_u32, modulus; cbn; lia).
  assert (E : Fmt.frame_bytes (mkFrame 0xA0000000 0 0 0xE0)
              = Fmt.frame_bytes (mkFrame (0x50000000 + 0x50000000) 0 0 (0xFF - 0x1F)))
    by reflexivity.
  split; [exact H1 |]. split; [exact H2 |]. split; [exact E |].
  exact (frame_bytes_inj _ _ H1 H2 E).
Defined.

(** ** Further properties of the ring indices and of a push *)

Lemma idx_range i : idx i <-> 0 <= i < 65536.
Proof. unfold idx. rewrite RB_SIZE_val. reflexivity. Qed.

(** X4. Whatever the two indices, the used and the free count are between 0
    and [RB_SIZE - 1] and add up to [RB_SIZE - 1]: one slot is never counted
    as free. *)
Theorem rb_used_free_partition (h t : Z) :
  rb_used h t + rb_free h t = RB_SIZE - 1 /\
  0 <= rb_used h t <= RB_SIZE - 1 /\ 0 <= rb_free h t <= RB_SIZE - 1.
Proof.
  rewrite rb_free_val, RB_SIZE_val. pose proof (rb_used_range h t). lia.
Qed.

(** X5. For indices inside the ring, the buffer counts as empty exactly when
    [head] equals [tail], and as full exactly when [head] is one slot behind
    [tail]; the two cases never coincide. *)
Theorem ring_empty_full_iff (h t : Z) :
  idx h -> idx t ->
  (rb_used h t = 0 <-> h = t) /\
  (rb_free h t = 0 <-> rb_next h = t) /\
  ~ (rb_used h t = 0 /\ rb_free h t = 0).
Proof.
  rewrite !idx_range. intros Hh Ht.
  rewrite rb_free_val, rb_used_mod, rb_next_mod.
  repeat split; try (intros H; revert H); dm.
Qed.

Lemma ring_empty_full_iff_witness :
  idx 65535 /\ idx 0 /\ (rb_free 65535 0 = 0 <-> rb_next 65535 = 0).
Proof.
  assert (H1 : idx 65535) by (apply idx_range; lia).
  assert (H2 : idx 0) by (apply idx_range; lia).
  split; [exact H1 |]. split; [exact H2 |].
  exact (proj1 (proj2 (ring_empty_full_iff 65535 0 H1 H2))).
Defined.

(** X6. Advancing [head] past a slot that was free raises the used count by
    one, and advancing [tail] past a slot that was used lowers it by one,
    also across the wrap from [RB_SIZE - 1] to 0. *)
Theorem rb_used_advance (h t : Z) :
  (rb_free h t <> 0 -> rb_used (rb_next h) t = rb_used h t + 1) /\
  (rb_used h t <> 0 -> rb_used h (rb_next t) = rb_used h t - 1).
Proof.
  rewrite rb_free_val, !rb_used_mod, !rb_next_mod.
  split; intros H; revert H; dm.
Qed.

Lemma rb_used_advance_witness :
  rb_free 65535 3 <> 0 /\ rb_used (rb_next 65535) 3 = rb_used 65535 3 + 1.
Proof.
  assert (H : rb_free 65535 3 <> 0) by (vm_compute; discriminate).
  split; [exact H |]. exact (proj1 (rb_used_advance 65535 3) H).
Defined.

(** X7. With the ring allocated, a push returns 1 exactly when it has four
    words and finds a free slot. A push that returns 0 leaves the state as it
    was; a push that returns 1 has stored the frame in the slot at [head],
    moved [head] to the next slot and changed nothing else, so that one more
    slot is used. *)
Theorem push_accepts_iff_room
    (st : State) (stream_id nwords w0 w1 w2 w3 : Z) (r : gmap Z Frame) :
  ring st = Some r ->
  exists st' ret,
    sniffer_dpi_push st stream_id nwords w0 w1 w2 w3 = Some (st', ret) /\
    (ret = 1 <-> nwords = 4 /\ rb_free (head st) (tail st) <> 0) /\
    (ret <> 1 -> ret = 0 /\ st' = st) /\
    (ret = 1 ->
     st' = set_head (rb_next (head st))
             (set_ring (Some (<[head st := mkFrame w0 w1 w2 w3]> r)) st) /\
     rb_used (head st') (tail st') = rb_used (head st) (tail st) + 1).
Proof.
  intros Hr. unfold sniffer_dpi_push.
  destruct (Z.eqb_spec nwords 4) as [-> | Hn]; cbn [negb].
  - rewrite Hr. cbn [mbind option_bind].
    destruct (Z.eqb_spec (rb_free (head st) (tail st)) 0) as [Hf | Hf].
    + exists st, 0. split; [reflexivity |].
      split; [split; [discriminate | tauto] |].
      split; [tauto | discriminate].
    + unfold store_frame. rewrite Hr. cbn [mbind option_bind].
      eexists _, 1. split; [reflexivity |].
      split; [tauto |]. split; [congruence |]. intros _.
      split; [reflexivity |].
      destruct st; cbn in *. now apply rb_used_advance.
  - exists st, 0. split; [reflexivity |].
    split; [split; [discriminate | tauto] |].
    split; [tauto | discriminate].
Qed.

Lemma push_accepts_iff_room_witness :
  let st := set_ring (Some ∅) (init example_env) in
  ring st = Some ∅ /\
  sniffer_dpi_push st 0 4 1 2 3 4
  = Some (set_head 1 (set_ring (Some {[ 0 := mkFrame 1 2 3 4 ]}) st), 1).
Proof.
  intros st. assert (Hr : ring st = Some ∅) by reflexivity.
  split; [exact Hr |].
  destruct (push_accepts_iff_room st 0 4 1 2 3 4 ∅ Hr)
    as (st' & ret & Hpush & Hiff & _ & Hone).
  assert (Hret : ret = 1)
    by (apply Hiff; split; [reflexivity | vm_compute; discriminate]).
  rewrite Hpush. destruct (Hone Hret) as (-> & _). now rewrite Hret.
Defined.

Section Capacity.

Lemma push_all_room frames :
  forall st r,
    ring st = Some r ->
    exists st' r',
      push_all frames st
      = Some (st',
              replicate (Nat.min (length frames)
                           (Z.to_nat (rb_free (head st) (tail st)))) 1
              ++ replicate (length frames
                            - Nat.min (length frames)
                                (Z.to_nat (rb_free (head st) (tail st)))) 0) /\
      ring st' = Some r' /\ tail st' = tail st /\
      rb_used (head st') (tail st')
      = rb_used (head st) (tail st)
        + Z.of_nat (Nat.min (length frames)
                      (Z.to_nat (rb_free (head st) (tail st)))).
Proof.
  induction frames as [| fr frames IH]; intros st r Hr.
  - exists st, r. cbn. rewrite Z.add_0_r. repeat split; assumption.
  - cbn [push_all length].
    destruct (push_accepts_iff_room st 0 4 (w0 fr) (w1 fr) (w2 fr) (w3 fr) r Hr)
      as (st1 & ret & Hpush & Hiff & Hzero & Hone).
    rewrite Hpush. cbn [mbind option_bind fst snd].
    pose proof (rb_used_free_partition (head st) (tail st)) as (Hsum & Hu & Hf).
    destruct (Z.eq_dec ret 1) as [-> | Hret].
    + destruct (Hone eq_refl) as (Est1 & Hused).
      destruct (proj1 Hiff eq_refl) as (_ & Hroom).
      assert (Hr1 : ring st1
                    = Some (<[head st := mkFrame (w0 fr) (w1 fr) (w2 fr) (w3 fr)]> r))
        by (rewrite Est1; reflexivity).
      assert (Ht1 : tail st1 = tail st) by (rewrite Est1; reflexivity).
      destruct (IH _ _ Hr1) as (st2 & r2 & Hall & Hr2 & Ht2 & Hu2).
      rewrite Hall. cbn [mbind option_bind fst snd].
      pose proof (rb_used_free_partition (head st1) (tail st1))
        as (Hsum' & _ & _).
      assert (Hfree' : rb_free (head st1) (tail st1)
                       = rb_free (head st) (tail st) - 1) by lia.
      rewrite Hfree' in *.
      assert (Hmin : Nat.min (S (length frames))
                       (Z.to_nat (rb_free (head st) (tail st)))
                     = S (Nat.min (length frames)
                            (Z.to_nat (rb_free (head st) (tail st) - 1))))
        by lia.
      exists st2, r2. rewrite Hmin. cbn [replicate app Nat.sub].
      repeat split; try assumption; try congruence; lia.
    + destruct (Hzero Hret) as (-> & ->).
      assert (Hfull : rb_free (head st) (tail st) = 0).
      { destruct (Z.eq_dec (rb_free (head st) (tail st)) 0) as [E | E];
          [exact E |]. exfalso. apply Hret. apply Hiff. split; [reflexivity | exact E]. }
      destruct (IH st r Hr) as (st2 & r2 & Hall & Hr2 & Ht2 & Hu2).
      rewrite Hall. cbn [mbind option_bind fst snd].
      rewrite Hfull in *. change (Z.to_nat 0) with O in *.
      rewrite Nat.min_0_r in *. cbn [replicate app] in *.
      rewrite Nat.sub_0_r in *. exists st2, r2. repeat split; assumption.
Qed.

End Capacity.

(** X8. Capacity. Of a burst of pushes into a running session during which
    the writer does not get to run, exactly the first [rb_free (head, tail)]
    are accepted and all later ones are refused: starting from an empty ring
    that is [RB_SIZE - 1] frames, never [RB_SIZE]. *)
Theorem burst_fills_free_slots
    (frames : list Frame) (st : State) (r : gmap Z Frame) :
  ring st = Some r ->
  exists st',
    push_all frames st
    = Some (st',
            replicate (Nat.min (length frames)
                         (Z.to_nat (rb_free (head st) (tail st)))) 1
            ++ replicate (length frames
                          - Nat.min (length frames)
                              (Z.to_nat (rb_free (head st) (tail st)))) 0) /\
    rb_used (head st') (tail st')
    = rb_used (head st) (tail st)
      + Z.of_nat (Nat.min (length frames)
                    (Z.to_nat (rb_free (head st) (tail st)))).
Proof.
  intros Hr. destruct (push_all_room frames st r Hr) as (st' & r' & H & _ & _ & Hu).
  exists st'. split; assumption.
Qed.

Lemma burst_fills_free_slots_witness :
  let st := set_head 65534 (set_ring (Some ∅) (init example_env)) in
  ring st = Some ∅ /\
  exists st',
    push_all [mkFrame 1 0 0 0; mkFrame 2 0 0 0; mkFrame 3 0 0 0] st
    = Some (st', [1; 0; 0]) /\
    rb_used (head st') (tail st') = 65535.
Proof.
  intros st. assert (Hr : ring st = Some ∅) by reflexivity.
  split; [exact Hr |].
  destruct (burst_fills_free_slots
              [mkFrame 1 0 0 0; mkFrame 2 0 0 0; mkFrame 3 0 0 0] st ∅ Hr)
    as (st' & Hall & Hu).
  exists st'. split; [exact Hall | exact Hu].
Defined.

(** ** What holds in every state, closes and restarts included *)

Ltac csplit := repeat match goal with |- _ /\ _ => split end.

Ltac bnd :=
  unfold bounds_inv, modulus in *; cbn in *; csplit; try assumption; try lia.

Section Bounds.

Lemma idx_next i : idx (rb_next i).
Proof. apply idx_range. apply rb_next_range. Qed.

Lemma print_every_requested_range e :
  0 <= print_every_requested e < modulus.
Proof.
  unfold print_every_requested. destruct (SNIFFER_PRINT_EVERY e).
  - unfold wrap32. apply Z.mod_pos_bound. reflexivity.
  - unfold modulus. lia.
Qed.

Lemma bounds_init e : bounds_inv (init e).
Proof.
  unfold bounds_inv, idx, modulus. cbn. rewrite RB_SIZE_val.
  csplit; try lia; try constructor; discriminate.
Qed.

Lemma bounds_start_consumer st st' :
  bounds_inv st -> start_consumer st = Some st' -> bounds_inv st'.
Proof.
  intros (Hh & Ht & Hpv & Hpc & Hp & Hw & Hr). unfold start_consumer.
  destruct st as [r h t ru fb fc pe pv pc e bf cf co pr ws]; cbn in *.
  destruct ru; [intros [= <-]; bnd |].
  destruct (malloc_ok e); cbn; [| discriminate].
  destruct (fopen_bin_ok e); cbn; [| discriminate].
  destruct (fopen_csv_ok e); cbn; [| discriminate].
  pose proof (print_every_requested_range e) as Hreq.
  assert (Hws : Forall writer_pc_ok (ws ++ [WCheck]))
    by (apply Forall_app; split; [assumption | repeat constructor]).
  assert (Hempty : forall (r0 : gmap Z Frame) i fr,
             Some (∅ : gmap Z Frame) = Some r0 -> r0 !! i = Some fr -> idx i).
  { intros r0 i fr [= <-] H. rewrite lookup_empty in H. discriminate H. }
  destruct (print_requested e); cbn;
    destruct (Z.eqb_spec (print_every_requested e) 0); cbn;
    intros [= <-]; bnd.
Qed.

Lemma bounds_close_release st : bounds_inv st -> bounds_inv (close_release st).
Proof.
  intros (Hh & Ht & Hpv & Hpc & Hp & Hw & Hr). unfold close_release.
  destruct st as [r h t ru fb fc pe pv pc e bf cf co pr ws]; cbn in *.
  destruct fb, fc, r; cbn; bnd; intros r0 i fr H; try discriminate H;
    now apply Hr.
Qed.

Lemma bounds_drain_frame fr st st' :
  bounds_inv st -> drain_frame fr st = Some st' ->
  bounds_inv st' /\ writers st' = writers st.
Proof.
  intros (Hh & Ht & Hpv & Hpc & Hp & Hw & Hr). unfold drain_frame.
  destruct st as [r h t ru fb fc pe pv pc e bf cf co pr ws]; cbn in *.
  destruct fb; cbn; [| discriminate]. destruct fc; cbn; [| discriminate].
  assert (Hadd : 0 <= add pc 1 < modulus)
    by (unfold add, wrap32; apply Z.mod_pos_bound; reflexivity).
  unfold console_echo; cbn. intros [= <-].
  destruct pe; cbn; [destruct (_ =? 0); cbn |];
    (split; [| reflexivity]); bnd.
Qed.

Lemma bounds_flush_sinks st st' :
  bounds_inv st -> flush_sinks st = Some st' ->
  bounds_inv st' /\ writers st' = writers st.
Proof.
  intros (Hh & Ht & Hpv & Hpc & Hp & Hw & Hr). unfold flush_sinks.
  destruct st as [r h t ru fb fc pe pv pc e bf cf co pr ws]; cbn in *.
  destruct fb; cbn; [| discriminate]. destruct fc; cbn; [| discriminate].
  intros [= <-]. split; [| reflexivity]. bnd.
Qed.

Lemma bounds_set_writers st ws :
  bounds_inv st -> Forall writer_pc_ok ws -> bounds_inv (set_writers ws st).
Proof.
  intros (Hh & Ht & Hpv & Hpc & Hp & Hw & Hr) Hws.
  destruct st; bnd.
Qed.

Lemma bounds_set_producer st pc :
  bounds_inv st -> producer_pc_ok pc -> bounds_inv (set_producer pc st).
Proof.
  intros (Hh & Ht & Hpv & Hpc & Hp & Hw & Hr) Hok.
  destruct st; bnd.
Qed.

Lemma bounds_set_tail st t :
  bounds_inv st -> idx t -> bounds_inv (set_tail t st).
Proof.
  intros (Hh & Ht & Hpv & Hpc & Hp & Hw & Hr) Hok.
  destruct st; bnd.
Qed.

Lemma bounds_set_head st h :
  bounds_inv st -> idx h -> bounds_inv (set_head h st).
Proof.
  intros (Hh & Ht & Hpv & Hpc & Hp & Hw & Hr) Hok.
  destruct st; bnd.
Qed.

Lemma bounds_set_running st b : bounds_inv st -> bounds_inv (set_running b st).
Proof.
  intros (Hh & Ht & Hpv & Hpc & Hp & Hw & Hr).
  destruct st; bnd.
Qed.

Lemma bounds_store_frame st st' h fr :
  bounds_inv st -> idx h -> store_frame h fr st = Some st' -> bounds_inv st'.
Proof.
  intros (Hh & Ht & Hpv & Hpc & Hp & Hw & Hr) Hok. unfold store_frame.
  destruct st as [r h0 t ru fb fc pe pv pc e bf cf co pr ws]; cbn in *.
  destruct r as [r |]; cbn; [| discriminate]. intros [= <-].
  bnd. intros r0 i fr0 [= <-] Hl.
  destruct (Z.eq_dec h i) as [<- | Hne]; [exact Hok |].
  rewrite lookup_insert_ne in Hl by assumption. now apply (Hr r i fr0).
Qed.

Lemma bounds_writer_step st pc st1 pc1 l1 :
  bounds_inv st -> writer_pc_ok pc ->
  writer_step st pc = Some (st1, pc1, l1) ->
  bounds_inv st1 /\ writer_pc_ok pc1 /\ writers st1 = writers st.
Proof.
  intros HB Hpc. pose proof HB as (Hh & Ht & _).
  destruct pc as [| | t | t h | |]; cbn [writer_step writer_pc_ok] in *.
  - intros [= <- <- _]. split; [exact HB |]. split; [| reflexivity].
    now destruct (running st).
  - intros [= <- <- _]. split; [exact HB |]. split; [exact Ht | reflexivity].
  - intros [= <- <- _]. split; [exact HB |]. split; [| reflexivity].
    split; assumption.
  - destruct Hpc as (Hti & Hhi). destruct (t =? h).
    + intros [= <- <- _]. split; [now apply bounds_set_tail |].
      split; [exact I | now destruct st].
    + destruct (ring st) as [r |]; cbn; [| discriminate].
      destruct (r !! t) as [fr |]; cbn; [| discriminate].
      destruct (drain_frame fr st) as [st2 |] eqn:Hd; cbn; [| discriminate].
      intros [= <- <- _]. destruct (bounds_drain_frame _ _ _ HB Hd) as (HB2 & Hw2).
      split; [exact HB2 |]. split; [| exact Hw2].
      split; [apply idx_next | exact Hhi].
  - destruct (flush_sinks st) as [st2 |] eqn:Hf; cbn; [| discriminate].
    intros [= <- <- _]. destruct (bounds_flush_sinks _ _ HB Hf) as (HB2 & Hw2).
    split; [exact HB2 |]. split; [exact I | exact Hw2].
  - discriminate.
Qed.

Lemma bounds_step st a st1 l1 :
  bounds_inv st -> step st a = Some (st1, l1) -> bounds_inv st1.
Proof.
  intros HB. pose proof HB as (Hh & Ht & _ & _ & Hp & Hw & _).
  destruct a as [sid nwords w0 w1 w2 w3 | | | i]; cbn [step].
  - unfold call_push. destruct (producer st); try discriminate.
    destruct (nwords =? 4); cbn [negb]; [| now intros [= <- _]].
    destruct (ring st).
    + cbn. intros [= <- _]. now apply bounds_set_producer.
    + destruct (start_consumer st) as [st2 |] eqn:Hs; cbn; [| discriminate].
      intros [= <- _]. pose proof (bounds_start_consumer _ _ HB Hs) as HB2.
      apply bounds_set_producer; [exact HB2 |]. apply HB2.
  - unfold call_close. destruct (producer st); try discriminate.
    intros [= <- _]. apply bounds_set_producer; [| exact I].
    now apply bounds_set_running.
  - unfold producer_step. destruct (producer st) as [| fr h | fr h t | fr h |].
    + discriminate.
    + intros [= <- _]. apply bounds_set_producer; [exact HB |]. split; assumption.
    + destruct Hp as (Hhi & Hti). destruct (rb_free h t =? 0).
      * intros [= <- _]. now apply bounds_set_producer.
      * destruct (store_frame h fr st) as [st2 |] eqn:Hs; cbn; [| discriminate].
        intros [= <- _]. apply bounds_set_producer; [| exact Hhi].
        exact (bounds_store_frame _ _ _ _ HB Hhi Hs).
    + intros [= <- _]. apply bounds_set_producer; [| exact I].
      apply bounds_set_head; [exact HB | apply idx_next].
    + intros [= <- _]. apply bounds_set_producer; [| exact I].
      now apply bounds_close_release.
  - destruct (writers st !! i) as [pc |] eqn:Hpc; cbn; [| discriminate].
    assert (Hok : writer_pc_ok pc).
    { rewrite Forall_lookup in Hw. exact (Hw i pc Hpc). }
    destruct (writer_step st pc) as [[[st2 pc2] l2] |] eqn:Hws; cbn; [| discriminate].
    intros [= <- _].
    destruct (bounds_writer_step _ _ _ _ _ HB Hok Hws) as (HB2 & Hok2 & Hw2).
    apply bounds_set_writers; [exact HB2 |].
    rewrite Hw2. apply Forall_insert; assumption.
Qed.

Lemma bounds_exec sched :
  forall st st' labs,
    bounds_inv st -> exec sched st = Some (st', labs) -> bounds_inv st'.
Proof.
  induction sched as [| a sched IH]; intros st st' labs HB; cbn [exec].
  - now intros [= <- _].
  - destruct (step st a) as [[st1 l1] |] eqn:Hs; cbn; [| discriminate].
    destruct (exec sched st1) as [[st2 l2] |] eqn:He; cbn; [| discriminate].
    intros [= <- _]. apply (IH st1 st2 l2); [| exact He].
    exact (bounds_step _ _ _ _ HB Hs).
Qed.

End Bounds.

(** X9. Whatever is called and however the threads are scheduled, closes and
    restarts included, [head] and [tail] stay inside the ring and no slot
    outside [0, RB_SIZE) is ever written: every access [ring[h]] and
    [ring[t]] is within the allocated array. *)
Theorem ring_accesses_in_bounds
    (e : Env) (sched : list Action) (st : State) (labs : list Label) :
  exec sched (init e) = Some (st, labs) ->
  idx (head st) /\ idx (tail st) /\
  (forall r i fr, ring st = Some r -> r !! i = Some fr -> idx i) /\
  Forall writer_pc_ok (writers st) /\ producer_pc_ok (producer st).
Proof.
  intros Hex.
  destruct (bounds_exec sched _ _ _ (bounds_init e) Hex)
    as (Hh & Ht & _ & _ & Hp & Hw & Hr).
  csplit; assumption.
Qed.

(** X10. The sampling period is never 0 and the print counter never leaves
    the 32-bit range, in any state of any execution: the remainder
    [print_count % print_every] of the loop body is always defined. *)
Theorem print_period_never_zero
    (e : Env) (sched : list Action) (st : State) (labs : list Label) :
  exec sched (init e) = Some (st, labs) ->
  1 <= print_every st < modulus /\ 0 <= print_count st < modulus.
Proof.
  intros Hex.
  destruct (bounds_exec sched _ _ _ (bounds_init e) Hex)
    as (_ & _ & Hpv & Hpc & _).
  split; assumption.
Qed.

Lemma ring_accesses_in_bounds_witness :
  exists st labs,
    exec restart_schedule (init example_env) = Some (st, labs) /\
    idx (head st) /\ idx (tail st).
Proof.
  destruct (exec restart_schedule (init example_env)) as [[st labs] |] eqn:Hex;
    [| vm_compute in Hex; discriminate Hex].
  exists st, labs. split; [reflexivity |].
  destruct (ring_accesses_in_bounds example_env restart_schedule st labs Hex)
    as (Hh & Ht & _).
  split; assumption.
Defined.

Lemma print_period_never_zero_witness :
  exists st labs,
    exec restart_schedule (init example_env) = Some (st, labs) /\
    1 <= print_every st < modulus.
Proof.
  destruct (exec restart_schedule (init example_env)) as [[st labs] |] eqn:Hex;
    [| vm_compute in Hex; discriminate Hex].
  exists st, labs. split; [reflexivity |].
  exact (proj1 (print_period_never_zero example_env restart_schedule st labs Hex)).
Defined.

(** ** Further properties of a session *)

(** X11. The two threads never meet on a slot. Whenever the producer is
    about to fill a slot, or has filled it and not yet stored [head], and the
    writer is about to read one, the two slots differ: the writer only reads
    slots whose frame has been published. *)
Theorem threads_never_share_a_slot
    (e : Env) (sched : list Action) (st : State) (labs : list Label)
    (fr : Frame) (h t h' : Z) :
  no_close sched = true ->
  exec sched (init e) = Some (st, labs) ->
  (producer st = PushPublish fr h \/ exists t0, producer st = PushCheck fr h t0) ->
  writers st = [WLoop t h'] -> t <> h' -> t <> h.
Proof. apply writer_reads_published_slots. Qed.

Lemma threads_never_share_a_slot_witness :
  no_close mid_push_schedule = true /\
  exists st labs,
    exec mid_push_schedule (init example_env) = Some (st, labs) /\
    producer st = PushCheck (mkFrame 2 0 0 0) 1 0 /\
    writers st = [WLoop 0 1] /\ 0 <> 1.
Proof.
  split; [reflexivity |].
  destruct (exec mid_push_schedule (init example_env)) as [[st labs] |] eqn:Hex;
    [| vm_compute in Hex; discriminate Hex].
  exists st, labs. split; [reflexivity |].
  assert (Hst : producer st = PushCheck (mkFrame 2 0 0 0) 1 0 /\
                writers st = [WLoop 0 1]).
  { vm_compute in Hex. injection Hex as <- <-. split; reflexivity. }
  destruct Hst as (Hp & Hw). split; [exact Hp |]. split; [exact Hw |].
  assert (Hne : 0 <> 1) by lia.
  exact (threads_never_share_a_slot example_env mid_push_schedule st labs
           (mkFrame 2 0 0 0) 1 0 1 eq_refl Hex
           (or_intror (ex_intro _ 0 Hp)) Hw Hne).
Defined.

(** X12. In a session the writer is never stuck: in every state reached
    without a close its next step is defined. It does not touch a null ring
    or a null [FILE*], and it does not read a slot that was never written. *)
Theorem writer_step_always_defined
    (e : Env) (sched : list Action) (st : State) (labs : list Label) :
  no_close sched = true ->
  exec sched (init e) = Some (st, labs) ->
  ring st <> None ->
  exists st1 l1, step st (Writer 0) = Some (st1, l1) /\ accepted l1 = [].
Proof.
  intros Hnc Hex Hring.
  destruct (reachable_inv e sched st labs Hnc Hex) as [HI | HI].
  - destruct HI as (Hr & _). contradiction.
  - destruct (writer_step_session _ _ _ HI)
      as (pc & st1 & l1 & _ & Hstep & Hacc & _).
    exists st1, l1. split; assumption.
Qed.

Lemma writer_step_always_defined_witness :
  no_close mid_push_schedule = true /\
  exists st labs,
    exec mid_push_schedule (init example_env) = Some (st, labs) /\
    ring st <> None /\
    exists st1 l1, step st (Writer 0) = Some (st1, l1) /\ accepted l1 = [].
Proof.
  split; [reflexivity |].
  destruct (exec mid_push_schedule (init example_env)) as [[st labs] |] eqn:Hex;
    [| vm_compute in Hex; discriminate Hex].
  exists st, labs. split; [reflexivity |].
  assert (Hring : ring st <> None).
  { vm_compute in Hex. injection Hex as <- <-. discriminate. }
  split; [exact Hring |].
  exact (writer_step_always_defined example_env mid_push_schedule st labs
           eq_refl Hex Hring).
Defined.

Section CloseExtras.

Lemma session_of_writer e sched st labs pc :
  no_close sched = true -> exec sched (init e) = Some (st, labs) ->
  writers st = [pc] ->
  session_inv st (accepted labs) (drained labs).
Proof.
  intros Hnc Hex Hw.
  destruct (reachable_inv e sched st labs Hnc Hex) as [HI | HI]; [| exact HI].
  destruct HI as (_ & Hw0 & _). congruence.
Qed.

End CloseExtras.

(** X13. A close drops what is in flight. If [sniffer_dpi_close] is called
    while the writer is between two passes, the writer finds [running]
    cleared and ends without another pass: the files get the records of the
    frames drained before the call and of no other, the handles and the ring
    are released, and [head] and [tail] stay where they were. *)
Theorem close_drops_frames_in_flight
    (e : Env) (sched : list Action) (st : State) (labs : list Label) :
  no_close sched = true ->
  exec sched (init e) = Some (st, labs) ->
  writers st = [WCheck] -> producer st = PIdle ->
  exists st',
    exec [CallClose; Writer 0; Producer] st = Some (st', [CloseRet]) /\
    bin_file st' = Some (bin_bytes (drained labs)) /\
    csv_file st' = Some (Fmt.csv_header +:+ csv_text (drained labs)) /\
    writers st' = [WExit] /\ ring st' = None /\
    fbin st' = None /\ fcsv st' = None /\
    head st' = head st /\ tail st' = tail st.
Proof.
  intros Hnc Hex Hw Hp.
  destruct (session_of_writer e sched st labs _ Hnc Hex Hw)
    as (r & pc & nt & Hring & _ & Hrun & _ & _ & _ & _ & _ & _ & _ & _ &
        (Hb & Hc) & _).
  set (sA := set_producer CloseSleep (set_running false st)).
  set (sB := set_writers [WExit] sA).
  assert (S1 : step st CallClose = Some (sA, [])).
  { cbn [step]. unfold call_close. now rewrite Hp. }
  assert (S2 : step sA (Writer 0) = Some (sB, [])).
  { cbn [step]. subst sB sA. st_simpl. rewrite Hw.
    cbn [lookup list_lookup mbind option_bind writer_step fst snd]. st_simpl.
    rewrite Hw. reflexivity. }
  assert (S3 : step sB Producer
               = Some (set_producer PIdle (close_release sB), [CloseRet])).
  { reflexivity. }
  exists (set_producer PIdle (close_release sB)).
  split.
  { rewrite (exec_cons _ _ _ _ _ S1), (exec_cons _ _ _ _ _ S2),
      (exec_cons _ _ _ _ _ S3). reflexivity. }
  subst sB sA. unfold close_release. st_simpl. rewrite Hb. st_simpl. rewrite Hc. st_simpl.
  rewrite Hring. st_simpl. repeat split.
Qed.

Lemma close_drops_frames_in_flight_witness :
  no_close undrained_schedule = true /\
  exists st labs,
    exec undrained_schedule (init example_env) = Some (st, labs) /\
    length (accepted labs) = 2%nat /\ drained labs = [] /\
    exists st',
      exec [CallClose; Writer 0; Producer] st = Some (st', [CloseRet]) /\
      bin_file st' = Some (bin_bytes (drained labs)).
Proof.
  split; [reflexivity |].
  destruct (exec undrained_schedule (init example_env)) as [[st labs] |] eqn:Hex;
    [| vm_compute in Hex; discriminate Hex].
  exists st, labs. split; [reflexivity |].
  assert (Hst : length (accepted labs) = 2%nat /\ drained labs = [] /\
                writers st = [WCheck] /\ producer st = PIdle).
  { vm_compute in Hex. injection Hex as <- <-. repeat split. }
  destruct Hst as (Hacc & Hdr & Hw & Hp).
  split; [exact Hacc |]. split; [exact Hdr |].
  destruct (close_drops_frames_in_flight example_env undrained_schedule st labs
              eq_refl Hex Hw Hp) as (st' & Hex' & Hb & _).
  exists st'. split; [exact Hex' | exact Hb].
Defined.

(** X14. The sleep in [sniffer_dpi_close] is not a join. If the ring and the
    files are released while the writer is inside a pass with a frame still
    to drain, the writer's next step reads the freed ring: nothing defines
    what it does. *)
Theorem release_during_pass_is_undefined
    (e : Env) (sched : list Action) (st : State) (labs : list Label) (t h : Z) :
  no_close sched = true ->
  exec sched (init e) = Some (st, labs) ->
  writers st = [WLoop t h] -> t <> h -> producer st = PIdle ->
  exec [CallClose; Producer; Writer 0] st = None.
Proof.
  intros Hnc Hex Hw Hne Hp.
  destruct (session_of_writer e sched st labs _ Hnc Hex Hw)
    as (r & pc & nt & Hring & _ & Hrun & _ & _ & _ & _ & _ & _ & _ & _ &
        (Hb & Hc) & _).
  apply Z.eqb_neq in Hne.
  set (sA := set_producer CloseSleep (set_running false st)).
  set (sB := set_producer PIdle (close_release sA)).
  assert (S1 : step st CallClose = Some (sA, [])).
  { cbn [step]. unfold call_close. now rewrite Hp. }
  assert (S2 : step sA Producer = Some (sB, [CloseRet])) by reflexivity.
  assert (HrB : ring sB = None /\ writers sB = [WLoop t h]).
  { subst sB sA. unfold close_release. st_simpl. rewrite Hb. st_simpl. rewrite Hc. st_simpl.
    rewrite Hring. st_simpl. split; [reflexivity | exact Hw]. }
  destruct HrB as (HrB & HwB).
  assert (S3 : step sB (Writer 0) = None).
  { cbn [step]. rewrite HwB. cbn [lookup list_lookup mbind option_bind writer_step].
    rewrite Hne, HrB. reflexivity. }
  rewrite (exec_cons _ _ _ _ _ S1), (exec_cons _ _ _ _ _ S2).
  cbn [exec]. rewrite S3. reflexivity.
Qed.

Lemma release_during_pass_is_undefined_witness :
  no_close mid_pass_schedule = true /\
  exists st labs,
    exec mid_pass_schedule (init example_env) = Some (st, labs) /\
    writers st = [WLoop 0 1] /\ 0 <> 1 /\ producer st = PIdle /\
    exec [CallClose; Producer; Writer 0] st = None.
Proof.
  split; [reflexivity |].
  destruct (exec mid_pass_schedule (init example_env)) as [[st labs] |] eqn:Hex;
    [| vm_compute in Hex; discriminate Hex].
  exists st, labs. split; [reflexivity |].
  assert (Hst : writers st = [WLoop 0 1] /\ producer st = PIdle).
  { vm_compute in Hex. injection Hex as <- <-. split; reflexivity. }
  destruct Hst as (Hw & Hp). assert (Hne : 0 <> 1) by lia.
  split; [exact Hw |]. split; [exact Hne |]. split; [exact Hp |].
  exact (release_during_pass_is_undefined example_env mid_pass_schedule st labs
           0 1 eq_refl Hex Hw Hne Hp).
Defined.

Section RestartExtras.

(** A step of the youngest writer thread. *)
Lemma step_last_writer st ws pc st1 pc1 l1 :
  writers st = ws ++ [pc] ->
  writer_step st pc = Some (st1, pc1, l1) ->
  writers st1 = writers st ->
  step st (Writer (length ws)) = Some (set_writers (ws ++ [pc1]) st1, l1).
Proof.
  intros Hw Hs Hw1. cbn [step]. rewrite Hw, list_lookup_middle by reflexivity.
  cbn [mbind option_bind]. rewrite Hs. cbn [mbind option_bind fst snd].
  rewrite Hw1, Hw. rewrite insert_app_r_alt by lia.
  rewrite Nat.sub_diag. reflexivity.
Qed.

Lemma step_last_writer_none st ws pc :
  writers st = ws ++ [pc] -> writer_step st pc = None ->
  step st (Writer (length ws)) = None.
Proof.
  intros Hw Hs. cbn [step]. rewrite Hw, list_lookup_middle by reflexivity.
  cbn [mbind option_bind]. rewrite Hs. reflexivity.
Qed.

End RestartExtras.

(** X15. A restart keeps the indices of the session before it. If a close
    left frames in flight ([head] differs from [tail]), the next push with
    four words is accepted into a freshly allocated ring, and the first pass
    of the new writer starts at the old [tail]: it reads a slot that has not
    been written since the allocation, so what it drains is not defined. *)
Theorem restart_reads_unwritten_slot
    (st : State) (stream_id w0 w1 w2 w3 : Z) :
  ring st = None -> running st = false ->
  malloc_ok (env st) = true -> fopen_bin_ok (env st) = true ->
  fopen_csv_ok (env st) = true ->
  idx (head st) -> idx (tail st) -> head st <> tail st ->
  rb_free (head st) (tail st) <> 0 ->
  exists st',
    sniffer_dpi_push st stream_id 4 w0 w1 w2 w3 = Some (st', 1) /\
    exec (replicate 4 (Writer (length (writers st)))) st' = None.
Proof.
  intros Hring Hrun Hm Hb Hc Hh Ht Hne Hfree.
  destruct (start_consumer_spec st Hrun Hm Hb Hc)
    as (st1 & Hstart & Sr & Sb & Sc & _ & _ & Srun & Sw & Sh & St & _).
  set (fr := mkFrame w0 w1 w2 w3).
  set (st' := set_head (rb_next (head st))
                (set_ring (Some (<[head st := fr]> ∅)) st1)).
  exists st'. split.
  { unfold sniffer_dpi_push. cbn [Z.eqb Pos.eqb negb]. rewrite Hring, Hstart.
    cbn [mbind option_bind]. rewrite Sh, St.
    apply Z.eqb_neq in Hfree. rewrite Hfree. unfold store_frame. rewrite Sr.
    reflexivity. }
  set (ws := writers st).
  assert (W0 : writers st' = ws ++ [WCheck]) by (subst st'; st_simpl; exact Sw).
  assert (R0 : running st' = true) by (subst st'; st_simpl; exact Srun).
  assert (T0 : tail st' = tail st) by (subst st'; st_simpl; exact St).
  assert (H0 : head st' = rb_next (head st)) by reflexivity.
  assert (G0 : ring st' = Some (<[head st := fr]> ∅)) by reflexivity.
  set (sA := set_writers (ws ++ [WLoadTail]) st').
  set (sB := set_writers (ws ++ [WLoadHead (tail st)]) sA).
  set (sC := set_writers (ws ++ [WLoop (tail st) (rb_next (head st))]) sB).
  assert (S1 : step st' (Writer (length ws)) = Some (sA, [])).
  { apply (step_last_writer st' ws WCheck st' WLoadTail []);
      [exact W0 | cbn [writer_step]; now rewrite R0 | reflexivity]. }
  assert (S2 : step sA (Writer (length ws)) = Some (sB, [])).
  { apply (step_last_writer sA ws WLoadTail sA (WLoadHead (tail st)) []);
      [reflexivity | cbn [writer_step]; subst sA; st_simpl; now rewrite T0
       | reflexivity]. }
  assert (S3 : step sB (Writer (length ws)) = Some (sC, [])).
  { apply (step_last_writer sB ws (WLoadHead (tail st)) sB
             (WLoop (tail st) (rb_next (head st))) []);
      [reflexivity | cbn [writer_step]; subst sB sA; st_simpl; now rewrite H0
       | reflexivity]. }
  assert (Hnext : (tail st =? rb_next (head st)) = false).
  { apply Z.eqb_neq. apply idx_range in Hh, Ht.
    rewrite rb_free_val, rb_used_mod in Hfree. rewrite rb_next_mod.
    revert Hfree. dm. }
  assert (S4 : step sC (Writer (length ws)) = None).
  { apply (step_last_writer_none sC ws (WLoop (tail st) (rb_next (head st))));
      [reflexivity |].
    cbn [writer_step]. rewrite Hnext. subst sC sB sA. st_simpl. rewrite G0.
    cbn [mbind option_bind]. rewrite lookup_insert_ne by assumption.
    rewrite lookup_empty. reflexivity. }
  cbn [replicate]. rewrite (exec_cons _ _ _ _ _ S1), (exec_cons _ _ _ _ _ S2),
    (exec_cons _ _ _ _ _ S3). cbn [exec]. rewrite S4. reflexivity.
Qed.

Lemma restart_reads_unwritten_slot_witness :
  let st := set_head 2 (set_writers [WExit] (init example_env)) in
  ring st = None /\ head st <> tail st /\
  exists st',
    sniffer_dpi_push st 0 4 1 2 3 4 = Some (st', 1) /\
    exec (replicate 4 (Writer (length (writers st)))) st' = None.
Proof.
  intros st.
  assert (Hh : idx (head st)) by (apply idx_range; cbn; lia).
  assert (Ht : idx (tail st)) by (apply idx_range; cbn; lia).
  assert (Hne : head st <> tail st) by (cbn; lia).
  assert (Hf : rb_free (head st) (tail st) <> 0) by (vm_compute; discriminate).
  split; [reflexivity |]. split; [exact Hne |].
  exact (restart_reads_unwritten_slot st 0 1 2 3 4 eq_refl eq_refl eq_refl eq_refl
           eq_refl Hh Ht Hne Hf).
Defined.

Section Columns.

Lemma count_char_app c (s t : string) :
  count_char c (s +:+ t) = (count_char c s + count_char c t)%nat.
Proof.
  induction s as [| a s IH]; [reflexivity |].
  rewrite str_app_cons. cbn [count_char].
  destruct (Ascii.eqb a c); rewrite IH; reflexivity.
Qed.

Lemma digit_char_not_comma d : 0 <= d < 16 -> Fmt.digit_char d <> ","%char.
Proof.
  intros Hd. unfold Fmt.digit_char.
  assert (C : d = 0 \/ d = 1 \/ d = 2 \/ d = 3 \/ d = 4 \/ d = 5 \/ d = 6 \/ d = 7 \/
              d = 8 \/ d = 9 \/ d = 10 \/ d = 11 \/ d = 12 \/ d = 13 \/ d = 14 \/
              d = 15) by lia.
  repeat (destruct C as [-> | C]; [vm_compute; discriminate |]).
  subst d. vm_compute. discriminate.
Qed.

Lemma count_comma_digits base fuel n acc :
  2 <= base <= 16 ->
  count_char "," (Fmt.digits base fuel n acc) = count_char "," acc.
Proof.
  intros Hb. revert n acc.
  induction fuel as [| fuel IH]; intros n acc; [reflexivity |].
  cbn [Fmt.digits].
  assert (Hd : count_char "," (String (Fmt.digit_char (n mod base)) acc)
               = count_char "," acc).
  { cbn [count_char].
    destruct (Ascii.eqb_spec (Fmt.digit_char (n mod base)) ","%char) as [E | _];
      [| reflexivity].
    exfalso. revert E. apply digit_char_not_comma.
    pose proof (Z.mod_pos_bound n base). lia. }
  destruct (n / base =? 0); [exact Hd |].
  rewrite IH. exact Hd.
Qed.

Lemma count_comma_fmt_u n : count_char "," (Fmt.fmt_u n) = O.
Proof. unfold Fmt.fmt_u. rewrite count_comma_digits by lia. reflexivity. Qed.

Lemma count_comma_fmt_X n : count_char "," (Fmt.fmt_X n) = O.
Proof. unfold Fmt.fmt_X. rewrite count_comma_digits by lia. reflexivity. Qed.

Lemma count_comma_zeros k : count_char "," (Fmt.zeros k) = O.
Proof. induction k as [| k IH]; [reflexivity |]. cbn. exact IH. Qed.

Lemma count_comma_fmt_0X w n : count_char "," (Fmt.fmt_0X w n) = O.
Proof.
  unfold Fmt.fmt_0X. rewrite count_char_app, count_comma_zeros, count_comma_fmt_X.
  reflexivity.
Qed.

End Columns.

(** X16. Every CSV record has the shape of the header: eight commas, hence
    nine columns, whatever the frame, and exactly one newline, at its end;
    a digit string never contains a separator. *)
Theorem csv_record_has_nine_columns (f : Fields) :
  count_char "," (Fmt.csv_record f) = count_char "," Fmt.csv_header /\
  count_char "," (Fmt.csv_record f) = 8%nat /\
  Fmt.count_lines (Fmt.csv_record f) = 1%nat /\
  exists body, Fmt.csv_record f = body +:+ Fmt.nl /\ Fmt.count_lines body = O.
Proof.
  assert (H8 : count_char "," (Fmt.csv_record f) = 8%nat).
  { unfold Fmt.csv_record.
    rewrite !count_char_app, !count_comma_fmt_u, !count_comma_fmt_0X,
      count_comma_fmt_X. reflexivity. }
  split; [rewrite H8; reflexivity |]. split; [exact H8 |].
  split; [apply count_lines_csv_record |].
  unfold Fmt.csv_record. eexists. split.
  - rewrite <- !str_app_assoc. reflexivity.
  - rewrite !count_lines_app, !count_lines_fmt_u, !count_lines_fmt_0X,
      count_lines_fmt_X. reflexivity.
Qed.

(** * The files on disk *)

(** The step of the writer that ends a pass: both streams are flushed. *)
Lemma flush_step st A D :
  session_inv st A D -> writers st = [WFlush] ->
  exists st',
    step st (Writer 0) = Some (st', []) /\
    bin_file st' = Some (bin_bytes D) /\
    csv_file st' = Some (Fmt.csv_header +:+ csv_text D) /\
    fbin st' = fbin st /\ fcsv st' = fcsv st /\
    writers st' = [WCheck] /\ head st' = head st /\ tail st' = tail st /\
    ring st' = ring st /\ running st' = running st.
Proof.
  intros (r & pc & nt & _ & _ & _ & _ & _ & _ & _ & _ & _ & _ & _ & (Hb & Hc) & _) Hw.
  eexists. split.
  { unfold step. rewrite Hw.
    cbn [lookup list_lookup mbind option_bind writer_step].
    unfold flush_sinks. rewrite Hb, Hc.
    cbn [mbind option_bind fst snd]. st_simpl. rewrite Hw. reflexivity. }
  st_simpl. repeat split.
Qed.

(** Once everything is drained, a further writer step drains nothing. *)
Lemma quiet_all_drained A st k st' D' :
  quiet A st A k st' D' -> D' = A.
Proof.
  intros (labs & _ & _ & -> & HI & _).
  destruct HI as (r & pc & nt & _ & _ & _ & _ & _ & Hord & _).
  rewrite length_app in Hord.
  destruct (drained labs); [now rewrite app_nil_r |].
  cbn [length] in Hord. lia.
Qed.

(** Left alone, the writer drains every accepted frame and ends the pass. *)
Lemma writer_reaches_flush A st D :
  session_inv st A D ->
  exists k st', quiet A st D k st' A /\ writers st' = [WFlush].
Proof.
  intros HI.
  destruct (to_fresh_pass A st D HI) as (k1 & st1 & D1 & t & Hq1 & Hw1).
  destruct (loop_catch_up A (Z.to_nat (rb_used (head st1) t)) st1 D1 t (head st1)
              (quiet_inv _ _ _ _ _ _ Hq1) Hw1)
    as (st2 & D2 & Hq2 & Hw2).
  { pose proof (rb_used_range (head st1) t). lia. }
  assert (HD2 : D2 = A).
  { pose proof (quiet_head _ _ _ _ _ _ Hq2) as Hh2.
    destruct (quiet_inv _ _ _ _ _ _ Hq2)
      as (r & pc & nt & _ & Hw & _ & Hh & _ & Hord & Hcap & Hpre & _ & Hwi & _).
    rewrite Hw2 in Hw. injection Hw as <-.
    destruct Hwi as (Ht & _).
    rewrite <- Hh2, Hh in Ht. apply slot_inj in Ht; [| lia | lia].
    rewrite Hpre, <- Ht. apply firstn_all. }
  subst D2.
  destruct (quiet_step A st2 A _ (quiet_inv _ _ _ _ _ _ Hq2) Hw2)
    as (st3 & D3 & Hq3 & Hw3).
  cbn [next_pc] in Hw3. rewrite Z.eqb_refl in Hw3.
  pose proof (quiet_all_drained _ _ _ _ _ Hq3) as ->.
  exists (k1 + Z.to_nat (rb_used (head st1) t) + 1)%nat, st3.
  split; [| exact Hw3].
  exact (quiet_trans _ _ _ _ _ _ _ _ _
           (quiet_trans _ _ _ _ _ _ _ _ _ Hq1 Hq2) Hq3).
Qed.

(** X19. Each pass ends with the files up to date. Whenever, within a
    session, the writer stands before the two [fflush] calls that end a
    pass, its step leaves in both files the records of every frame drained
    so far, the CSV file after its header line; the streams, the ring and
    the indices are as before. *)
Theorem pass_end_files_current
    (e : Env) (sched : list Action) (st : State) (labs : list Label) :
  no_close sched = true ->
  exec sched (init e) = Some (st, labs) ->
  writers st = [WFlush] ->
  exists st',
    step st (Writer 0) = Some (st', []) /\
    bin_file st' = Some (bin_bytes (drained labs)) /\
    csv_file st' = Some (Fmt.csv_header +:+ csv_text (drained labs)) /\
    writers st' = [WCheck] /\
    head st' = head st /\ tail st' = tail st /\ ring st' = ring st.
Proof.
  intros Hnc Hex Hw.
  destruct (flush_step st _ _ (session_of_writer e sched st labs _ Hnc Hex Hw) Hw)
    as (st' & Hs & Hb & Hc & _ & _ & Hw' & Hh & Ht & Hr & _).
  exists st'. repeat split; assumption.
Qed.

Lemma pass_end_files_current_witness :
  no_close pass_end_schedule = true /\
  exists st labs,
    exec pass_end_schedule (init example_env) = Some (st, labs) /\
    writers st = [WFlush] /\ drained labs = [mkFrame 1 0 0 0] /\
    bin_file st = Some [] /\
    exists st',
      step st (Writer 0) = Some (st', []) /\
      bin_file st' = Some (bin_bytes (drained labs)).
Proof.
  split; [reflexivity |].
  destruct (exec pass_end_schedule (init example_env)) as [[st labs] |] eqn:Hex;
    [| vm_compute in Hex; discriminate Hex].
  exists st, labs. split; [reflexivity |].
  assert (Hst : writers st = [WFlush] /\ drained labs = [mkFrame 1 0 0 0] /\
                bin_file st = Some []).
  { vm_compute in Hex. injection Hex as <- <-. repeat split. }
  destruct Hst as (Hw & Hd & Hf).
  split; [exact Hw |]. split; [exact Hd |]. split; [exact Hf |].
  destruct (pass_end_files_current example_env pass_end_schedule st labs
              eq_refl Hex Hw) as (st' & Hs & Hb & _).
  exists st'. split; [exact Hs | exact Hb].
Defined.

(** X20. Every accepted frame reaches the files. From any state of a
    session, the writer left to run on its own comes, after finitely many
    steps, to the end of a pass at which the ring is empty and both files
    hold the records of all the frames accepted so far, in the order of
    their pushes. *)
Theorem accepted_frames_reach_the_files
    (e : Env) (sched : list Action) (st : State) (labs : list Label) :
  no_close sched = true ->
  exec sched (init e) = Some (st, labs) ->
  ring st <> None ->
  exists k st' labs',
    exec (replicate k (Writer 0)) st = Some (st', labs') /\
    accepted labs' = [] /\
    drained labs ++ drained labs' = accepted labs /\
    bin_file st' = Some (bin_bytes (accepted labs)) /\
    csv_file st' = Some (Fmt.csv_header +:+ csv_text (accepted labs)) /\
    rb_used (head st') (tail st') = 0.
Proof.
  intros Hnc Hex Hring.
  destruct (reachable_inv e sched st labs Hnc Hex) as [HI | HI].
  { destruct HI as (Hr & _). contradiction. }
  destruct (writer_reaches_flush _ _ _ HI) as (k & st1 & Hq & Hw1).
  pose proof (quiet_inv _ _ _ _ _ _ Hq) as HI1.
  destruct (flush_step _ _ _ HI1 Hw1)
    as (st2 & Hs & Hb & Hc & _ & _ & _ & Hh & Ht & _).
  destruct Hq as (l1 & Hex1 & Hacc1 & HD & _).
  exists (k + 1)%nat, st2, l1.
  split.
  { rewrite replicate_add, exec_app, Hex1. cbn [mbind option_bind fst snd].
    cbn [replicate]. rewrite (exec_cons _ _ _ _ _ Hs). cbn.
    now rewrite app_nil_r. }
  split; [exact Hacc1 |]. split; [now symmetry |].
  split; [exact Hb |]. split; [exact Hc |].
  destruct HI1 as (r & pc & nt & _ & Hw & _ & Hh1 & Ht1 & Hord & _ & _ & _ & Hwi & _).
  rewrite Hw1 in Hw. injection Hw as <-. cbn [writer_inv] in Hwi. subst nt.
  rewrite Hh, Ht, Hh1, Ht1, rb_used_mod, Z.sub_diag. reflexivity.
Qed.

Lemma accepted_frames_reach_the_files_witness :
  no_close undrained_schedule = true /\
  exists st labs,
    exec undrained_schedule (init example_env) = Some (st, labs) /\
    ring st <> None /\
    accepted labs = [mkFrame 1 0 0 0; mkFrame 2 0 0 0] /\ drained labs = [] /\
    exists k st' labs',
      exec (replicate k (Writer 0)) st = Some (st', labs') /\
      bin_file st' = Some (bin_bytes (accepted labs)).
Proof.
  split; [reflexivity |].
  destruct (exec undrained_schedule (init example_env)) as [[st labs] |] eqn:Hex;
    [| vm_compute in Hex; discriminate Hex].
  exists st, labs. split; [reflexivity |].
  assert (Hst : ring st <> None /\
                accepted labs = [mkFrame 1 0 0 0; mkFrame 2 0 0 0] /\
                drained labs = []).
  { vm_compute in Hex. injection Hex as <- <-.
    split; [discriminate | split; reflexivity]. }
  destruct Hst as (Hring & Hacc & Hdr).
  split; [exact Hring |]. split; [exact Hacc |]. split; [exact Hdr |].
  destruct (accepted_frames_reach_the_files example_env undrained_schedule st labs
              eq_refl Hex Hring) as (k & st' & labs' & Hex' & _ & _ & Hb & _).
  exists k, st', labs'. split; [exact Hex' | exact Hb].
Defined.

(** ** The two variants of the unit *)

Section Variants.

Ltac sim_open :=
  unfold same_binary_path, resources_ok in *; cbn in *.

Lemma sim_start st rt :
  same_binary_path st rt -> resources_ok (env st) ->
  exists st', start_consumer st = Some st' /\
              same_binary_path st' (Rtl.start_consumer rt) /\
              env st' = env st.
Proof.
  intros HS HR. unfold start_consumer, Rtl.start_consumer.
  destruct st as [r h t ru fb fc pe pv pc e bf cf co pr ws].
  destruct rt as [r' h' t' ru' fo e' fl pr' ws'].
  sim_open.
  destruct HS as (-> & -> & -> & -> & -> & -> & -> & -> & -> & Hiff).
  destruct HR as (Hm & Hb & Hc).
  destruct ru'; cbn.
  - eexists; split; [reflexivity |]. cbn. tauto.
  - rewrite Hm, Hb, Hc; cbn.
    destruct (print_requested e'); cbn;
      destruct (print_every_requested e' =? 0); cbn;
      (eexists; split; [reflexivity |]); cbn;
      repeat split; try reflexivity; discriminate.
Qed.

Lemma sim_close_release st rt :
  same_binary_path st rt ->
  same_binary_path (close_release st) (Rtl.close_release rt).
Proof.
  intros HS. unfold close_release, Rtl.close_release.
  destruct st as [r h t ru fb fc pe pv pc e bf cf co pr ws].
  destruct rt as [r' h' t' ru' fo e' fl pr' ws'].
  sim_open.
  destruct HS as (-> & -> & -> & -> & -> & -> & -> & -> & -> & Hiff).
  destruct fo, fc, r'; cbn; repeat split; try reflexivity; try tauto;
    try discriminate; intros H; try discriminate H;
    try (destruct Hiff as (Hi1 & Hi2); first [now apply Hi1 | now apply Hi2]).
Qed.

Lemma sim_set_producer st rt pc :
  same_binary_path st rt ->
  same_binary_path (set_producer pc st) (Rtl.set_producer pc rt).
Proof.
  destruct st, rt. sim_open. intros (-> & -> & -> & -> & -> & -> & -> & -> & -> & H).
  repeat split; try reflexivity; apply H.
Qed.

Lemma sim_set_running st rt b :
  same_binary_path st rt ->
  same_binary_path (set_running b st) (Rtl.set_running b rt).
Proof.
  destruct st, rt. sim_open. intros (-> & -> & -> & -> & -> & -> & -> & -> & -> & H).
  repeat split; try reflexivity; apply H.
Qed.

Lemma sim_set_head st rt h :
  same_binary_path st rt ->
  same_binary_path (set_head h st) (Rtl.set_head h rt).
Proof.
  destruct st, rt. sim_open. intros (-> & -> & -> & -> & -> & -> & -> & -> & -> & H).
  repeat split; try reflexivity; apply H.
Qed.

Lemma sim_set_tail st rt t :
  same_binary_path st rt ->
  same_binary_path (set_tail t st) (Rtl.set_tail t rt).
Proof.
  destruct st, rt. sim_open. intros (-> & -> & -> & -> & -> & -> & -> & -> & -> & H).
  repeat split; try reflexivity; apply H.
Qed.

Lemma sim_set_writers st rt ws :
  same_binary_path st rt ->
  same_binary_path (set_writers ws st) (Rtl.set_writers ws rt).
Proof.
  destruct st, rt. sim_open. intros (-> & -> & -> & -> & -> & -> & -> & -> & -> & H).
  repeat split; try reflexivity; apply H.
Qed.

Lemma sim_store_frame st rt h fr :
  same_binary_path st rt ->
  match store_frame h fr st, Rtl.store_frame h fr rt with
  | Some st', Some rt' => same_binary_path st' rt'
  | None, None => True
  | _, _ => False
  end.
Proof.
  unfold store_frame, Rtl.store_frame.
  destruct st as [r h0 t ru fb fc pe pv pc e bf cf co pr ws].
  destruct rt as [r' h' t' ru' fo e' fl pr' ws'].
  sim_open. intros (-> & -> & -> & -> & -> & -> & -> & -> & -> & H).
  destruct r'; cbn; [| exact I]. repeat split; try reflexivity; apply H.
Qed.

Lemma sim_drain_frame st rt fr :
  same_binary_path st rt ->
  match drain_frame fr st, Rtl.drain_frame fr rt with
  | Some st', Some rt' => same_binary_path st' rt'
  | None, None => True
  | _, _ => False
  end.
Proof.
  unfold drain_frame, Rtl.drain_frame.
  destruct st as [r h t ru fb fc pe pv pc e bf cf co pr ws].
  destruct rt as [r' h' t' ru' fo e' fl pr' ws'].
  sim_open. intros (-> & -> & -> & -> & -> & -> & -> & -> & -> & H).
  destruct fo as [b |]; cbn.
  - destruct fc as [c |]; cbn.
    + unfold console_echo; cbn. destruct pe; cbn; [destruct (_ =? 0); cbn |];
        repeat split; try reflexivity; discriminate.
    + destruct H as (_ & H). discriminate (H eq_refl).
  - exact I.
Qed.

Lemma sim_flush_sinks st rt :
  same_binary_path st rt ->
  match flush_sinks st, Rtl.flush_sinks rt with
  | Some st', Some rt' => same_binary_path st' rt'
  | None, None => True
  | _, _ => False
  end.
Proof.
  unfold flush_sinks, Rtl.flush_sinks.
  destruct st as [r h t ru fb fc pe pv pc e bf cf co pr ws].
  destruct rt as [r' h' t' ru' fo e' fl pr' ws'].
  sim_open. intros (-> & -> & -> & -> & -> & -> & -> & -> & -> & H).
  destruct fo as [b |]; cbn.
  - destruct fc as [c |]; cbn.
    + repeat split; try reflexivity; discriminate.
    + destruct H as (_ & H). discriminate (H eq_refl).
  - exact I.
Qed.

Lemma rtl_writer_step_env rt pc rt' pc' l :
  Rtl.writer_step rt pc = Some (rt', pc', l) ->
  Rtl.env rt' = Rtl.env rt /\ Rtl.writers rt' = Rtl.writers rt.
Proof.
  destruct rt as [r' h' t' ru' fo e' fl pr' ws'].
  destruct pc as [| | t | t h | |]; cbn.
  - now intros [= <- _ _].
  - now intros [= <- _ _].
  - now intros [= <- _ _].
  - destruct (t =? h); [now intros [= <- _ _] |].
    destruct r' as [r' |]; cbn; [| discriminate].
    destruct (r' !! t); cbn; [| discriminate].
    unfold Rtl.drain_frame; cbn. destruct fo; cbn; [| discriminate].
    now intros [= <- _ _].
  - unfold Rtl.flush_sinks; cbn. destruct fo; cbn; [| discriminate].
    now intros [= <- _ _].
  - discriminate.
Qed.

Lemma rtl_step_env rt a rt' l :
  Rtl.step rt a = Some (rt', l) -> Rtl.env rt' = Rtl.env rt.
Proof.
  destruct a as [sid nwords w0 w1 w2 w3 | | | i]; cbn [Rtl.step].
  - unfold Rtl.call_push. destruct (Rtl.producer rt); try discriminate.
    destruct (nwords =? 4); cbn [negb]; [| now intros [= <- _]].
    intros [= <- _]. destruct rt as [r' h' t' ru' fo e' fl pr' ws'].
    unfold Rtl.start_consumer; cbn.
    destruct r'; cbn; [reflexivity |]. destruct ru'; cbn; [reflexivity |].
    destruct (fopen_bin_ok e'); reflexivity.
  - unfold Rtl.call_close. destruct (Rtl.producer rt); try discriminate.
    intros [= <- _]. now destruct rt.
  - unfold Rtl.producer_step.
    destruct rt as [r' h' t' ru' fo e' fl pr' ws']; cbn.
    destruct pr' as [| fr h | fr h t | fr h |]; cbn.
    + discriminate.
    + now intros [= <- _].
    + destruct (rb_free h t =? 0); [now intros [= <- _] |].
      unfold Rtl.store_frame; cbn. destruct r'; cbn; [| discriminate].
      now intros [= <- _].
    + now intros [= <- _].
    + intros [= <- _]. unfold Rtl.close_release; cbn.
      destruct fo, r'; reflexivity.
  - destruct (Rtl.writers rt !! i) as [pc |]; cbn; [| discriminate].
    destruct (Rtl.writer_step rt pc) as [[[rt2 pc2] l2] |] eqn:Hs; cbn;
      [| discriminate].
    intros [= <- _]. destruct (rtl_writer_step_env _ _ _ _ _ Hs) as (He & _).
    destruct rt2; exact He.
Qed.

Lemma sim_writer_step st rt pc :
  same_binary_path st rt ->
  match writer_step st pc, Rtl.writer_step rt pc with
  | Some (st', pc1, l1), Some (rt', pc2, l2) =>
      same_binary_path st' rt' /\ pc1 = pc2 /\ l1 = l2
  | None, None => True
  | _, _ => False
  end.
Proof.
  intros HS. pose proof HS as (Hr & Hh & Ht & Hrun & _).
  destruct pc as [| | t | t h | |]; cbn [writer_step Rtl.writer_step].
  - rewrite Hrun. split; [exact HS | split; reflexivity].
  - rewrite Ht. split; [exact HS | split; reflexivity].
  - rewrite Hh. split; [exact HS | split; reflexivity].
  - destruct (t =? h).
    + split; [now apply sim_set_tail | split; reflexivity].
    + rewrite <- Hr. destruct (ring st) as [r |]; cbn; [| exact I].
      destruct (r !! t) as [fr |]; cbn; [| exact I].
      pose proof (sim_drain_frame st rt fr HS) as Hd.
      destruct (drain_frame fr st), (Rtl.drain_frame fr rt); cbn; try tauto.
  - pose proof (sim_flush_sinks st rt HS) as Hf.
    destruct (flush_sinks st), (Rtl.flush_sinks rt); cbn; try tauto.
  - exact I.
Qed.

Lemma sim_step st rt a :
  same_binary_path st rt -> resources_ok (env st) ->
  same_outcome (step st a) (Rtl.step rt a).
Proof.
  intros HS HR. pose proof HS as (Hr & Hh & Ht & Hrun & _ & _ & _ & Hp & Hw & _).
  destruct a as [sid nwords w0 w1 w2 w3 | | | i]; cbn [step Rtl.step].
  - unfold call_push, Rtl.call_push. rewrite <- Hp.
    destruct (producer st); try exact I.
    destruct (nwords =? 4); cbn [negb]; [| split; [exact HS | reflexivity]].
    rewrite <- Hr. destruct (ring st); cbn.
    + rewrite Hh. split; [now apply sim_set_producer | reflexivity].
    + destruct (sim_start st rt HS HR) as (st' & -> & HS' & _). cbn.
      pose proof HS' as (_ & -> & _).
      split; [now apply sim_set_producer | reflexivity].
  - unfold call_close, Rtl.call_close. rewrite <- Hp.
    destruct (producer st); try exact I. cbn.
    split; [| reflexivity]. apply sim_set_producer. now apply sim_set_running.
  - unfold producer_step, Rtl.producer_step. rewrite <- Hp.
    destruct (producer st) as [| fr h | fr h t | fr h |]; cbn.
    + exact I.
    + rewrite Ht. split; [now apply sim_set_producer | reflexivity].
    + destruct (rb_free h t =? 0); cbn.
      * split; [now apply sim_set_producer | reflexivity].
      * pose proof (sim_store_frame st rt h fr HS) as Hs.
        destruct (store_frame h fr st), (Rtl.store_frame h fr rt); cbn;
          try tauto.
        split; [now apply sim_set_producer | reflexivity].
    + split; [| reflexivity]. apply sim_set_producer. now apply sim_set_head.
    + split; [| reflexivity]. apply sim_set_producer. now apply sim_close_release.
  - rewrite <- Hw. destruct (writers st !! i) as [pc |]; cbn; [| exact I].
    pose proof (sim_writer_step st rt pc HS) as Hs.
    destruct (writer_step st pc) as [[[st1 pc1] l1] |],
             (Rtl.writer_step rt pc) as [[[rt1 pc2] l2] |]; cbn; try tauto.
    destruct Hs as (HS1 & -> & ->). split; [| reflexivity].
    pose proof HS1 as (_ & _ & _ & _ & _ & _ & _ & _ & <- & _).
    now apply sim_set_writers.
Qed.

Lemma sim_exec sched :
  forall st rt,
    same_binary_path st rt -> resources_ok (Rtl.env rt) ->
    same_outcome (exec sched st) (Rtl.exec sched rt).
Proof.
  induction sched as [| a sched IH]; intros st rt HS HR; cbn [exec Rtl.exec].
  - split; [exact HS | reflexivity].
  - assert (HR' : resources_ok (env st))
      by (destruct HS as (_ & _ & _ & _ & _ & _ & -> & _); exact HR).
    pose proof (sim_step st rt a HS HR') as Hs.
    destruct (step st a) as [[st1 l1] |] eqn:E1,
             (Rtl.step rt a) as [[rt1 l2] |] eqn:E2; cbn in *; try tauto.
    destruct Hs as (HS1 & ->).
    assert (HR1 : resources_ok (Rtl.env rt1))
      by (rewrite (rtl_step_env _ _ _ _ E2); exact HR).
    pose proof (IH st1 rt1 HS1 HR1) as Hrest.
    destruct (exec sched st1) as [[st2 l3] |],
             (Rtl.exec sched rt1) as [[rt2 l4] |]; cbn in *; try tauto.
    destruct Hrest as (HS2 & ->). split; [exact HS2 | reflexivity].
Qed.

End Variants.

(** X17. The two variants agree on the binary path. When [malloc] and the
    [fopen] calls succeed, under every schedule, closes and restarts
    included, the unit with the CSV and console sinks and the earlier unit
    with the binary sink alone either both have no defined behaviour, or
    return the same values to the same pushes, drain the same frames, and end
    with the same ring, indices, thread positions, binary stream and binary
    file. *)
Theorem variants_agree_on_binary_path (e : Env) (sched : list Action) :
  resources_ok e ->
  same_outcome (exec sched (init e)) (Rtl.exec sched (Rtl.init e)).
Proof.
  intros HR. apply sim_exec; [| exact HR].
  unfold same_binary_path. cbn. repeat split; reflexivity.
Qed.

Lemma variants_agree_on_binary_path_witness :
  resources_ok example_env /\
  exists st labs rt,
    exec restart_schedule (init example_env) = Some (st, labs) /\
    Rtl.exec restart_schedule (Rtl.init example_env) = Some (rt, labs) /\
    same_binary_path st rt.
Proof.
  assert (HR : resources_ok example_env) by (repeat split).
  split; [exact HR |].
  pose proof (variants_agree_on_binary_path example_env restart_schedule HR) as H.
  destruct (exec restart_schedule (init example_env)) as [[st labs] |] eqn:E1;
    [| vm_compute in E1; discriminate E1].
  destruct (Rtl.exec restart_schedule (Rtl.init example_env)) as [[rt rlabs] |];
    [| contradiction].
  destruct H as (HS & <-). exists st, labs, rt.
  split; [reflexivity |]. split; [reflexivity | exact HS].
Defined.

(** X18. The earlier variant does not check [fopen]. When the binary file
    cannot be opened it still accepts the first push, with no sink to drain
    it to, where the later variant stops the process. *)
Theorem rtl_accepts_without_sink (e : Env) (stream_id w0 w1 w2 w3 : Z) :
  malloc_ok e = true -> fopen_bin_ok e = false ->
  sniffer_dpi_push (init e) stream_id 4 w0 w1 w2 w3 = None /\
  exists rt,
    Rtl.sniffer_dpi_push (Rtl.init e) stream_id 4 w0 w1 w2 w3 = Some (rt, 1) /\
    Rtl.fout rt = None /\ Rtl.running rt = true /\
    Rtl.ring rt = Some {[ 0 := mkFrame w0 w1 w2 w3 ]} /\
    Rtl.exec [Writer 0; Writer 0; Writer 0; Writer 0] rt = None.
Proof.
  intros Hm Hb. split.
  - unfold sniffer_dpi_push, start_consumer. cbn. now rewrite Hm, Hb.
  - unfold Rtl.sniffer_dpi_push, Rtl.start_consumer. cbn. rewrite Hm, Hb. cbn.
    eexists. split; [reflexivity |]. cbn. repeat split.
Qed.

Lemma rtl_accepts_without_sink_witness :
  malloc_ok (mkEnv None None true false true) = true /\
  sniffer_dpi_push (init (mkEnv None None true false true)) 0 4 1 2 3 4 = None.
Proof.
  split; [reflexivity |].
  exact (proj1 (rtl_accepts_without_sink (mkEnv None None true false true)
                  0 1 2 3 4 eq_refl eq_refl)).
Defined.

(** * Reading the CSV sink back *)

Section ReadBack.

Lemma digit_val_char d : 0 <= d < 16 -> digit_val (Fmt.digit_char d) = d.
Proof.
  intros Hd.
  assert (C : d = 0 \/ d = 1 \/ d = 2 \/ d = 3 \/ d = 4 \/ d = 5 \/ d = 6 \/ d = 7 \/
              d = 8 \/ d = 9 \/ d = 10 \/ d = 11 \/ d = 12 \/ d = 13 \/ d = 14 \/
              d = 15) by lia.
  repeat (destruct C as [-> | C]; [reflexivity |]).
  subst d. reflexivity.
Qed.

Lemma str_val_app base v (s t : string) :
  str_val base v (s +:+ t) = str_val base (str_val base v s) t.
Proof.
  revert v. induction s as [| a s IH]; intros v; [reflexivity |].
  rewrite str_app_cons. cbn [str_val]. apply IH.
Qed.

(** [digits] prepends to [acc] a string whose value is [n]. *)
Lemma digits_val base fuel :
  2 <= base <= 16 ->
  forall n acc, 0 <= n < base ^ Z.of_nat fuel ->
    exists p, Fmt.digits base fuel n acc = p +:+ acc /\ str_val base 0 p = n.
Proof.
  intros Hb. induction fuel as [| fuel IH]; intros n acc Hn.
  - exists EmptyString. change (base ^ Z.of_nat 0) with 1 in Hn.
    split; [reflexivity |]. cbn [str_val]. lia.
  - cbn [Fmt.digits].
    pose proof (Z.mod_pos_bound n base ltac:(lia)) as Hm.
    pose proof (Z.div_mod n base ltac:(lia)) as Hdm.
    destruct (Z.eqb_spec (n / base) 0) as [E | E].
    + exists (String (Fmt.digit_char (n mod base)) EmptyString).
      split; [reflexivity |].
      cbn [str_val]. rewrite digit_val_char by lia. lia.
    + destruct (IH (n / base) (String (Fmt.digit_char (n mod base)) acc))
        as (p & Hp & Hv).
      { split; [apply Z.div_pos; lia |].
        apply Z.div_lt_upper_bound; [lia |].
        rewrite Nat2Z.inj_succ, Z.pow_succ_r in Hn by lia. lia. }
      exists (p +:+ String (Fmt.digit_char (n mod base)) EmptyString).
      split; [rewrite Hp, str_app_assoc; reflexivity |].
      rewrite str_val_app, Hv. cbn [str_val].
      rewrite digit_val_char by lia. lia.
Qed.

Lemma fmt_u_val n : is_u32 n -> str_val 10 0 (Fmt.fmt_u n) = n.
Proof.
  intros Hn. unfold Fmt.fmt_u.
  destruct (digits_val 10 10 ltac:(lia) n EmptyString) as (p & -> & Hv).
  { unfold is_u32, modulus in Hn. change (10 ^ Z.of_nat 10) with 10000000000. lia. }
  now rewrite str_app_nil_r.
Qed.

Lemma fmt_X_val n : is_u32 n -> str_val 16 0 (Fmt.fmt_X n) = n.
Proof.
  intros Hn. unfold Fmt.fmt_X.
  destruct (digits_val 16 8 ltac:(lia) n EmptyString) as (p & -> & Hv).
  { unfold is_u32, modulus in Hn. change (16 ^ Z.of_nat 8) with 4294967296. lia. }
  now rewrite str_app_nil_r.
Qed.

Lemma zeros_val base k : str_val base 0 (Fmt.zeros k) = 0.
Proof.
  induction k as [| k IH]; [reflexivity |].
  cbn [Fmt.zeros str_val]. change (digit_val "0") with 0.
  now rewrite Z.mul_0_l.
Qed.

(** The padding of [%08X] does not change the value. *)
Lemma fmt_0X_val w n : is_u32 n -> str_val 16 0 (Fmt.fmt_0X w n) = n.
Proof.
  intros Hn. unfold Fmt.fmt_0X.
  now rewrite str_val_app, zeros_val, fmt_X_val.
Qed.

Lemma fmt_u_inj a b : is_u32 a -> is_u32 b -> Fmt.fmt_u a = Fmt.fmt_u b -> a = b.
Proof.
  intros Ha Hb E. rewrite <- (fmt_u_val a Ha), <- (fmt_u_val b Hb). now rewrite E.
Qed.

Lemma fmt_X_inj a b : is_u32 a -> is_u32 b -> Fmt.fmt_X a = Fmt.fmt_X b -> a = b.
Proof.
  intros Ha Hb E. rewrite <- (fmt_X_val a Ha), <- (fmt_X_val b Hb). now rewrite E.
Qed.

Lemma fmt_0X_inj w a b :
  is_u32 a -> is_u32 b -> Fmt.fmt_0X w a = Fmt.fmt_0X w b -> a = b.
Proof.
  intros Ha Hb E. rewrite <- (fmt_0X_val w a Ha), <- (fmt_0X_val w b Hb).
  now rewrite E.
Qed.

(** A text is cut at its first separator in one way only. *)
Lemma split_at_char c (s1 s2 r1 r2 : string) :
  count_char c s1 = O -> count_char c s2 = O ->
  s1 +:+ String c r1 = s2 +:+ String c r2 -> s1 = s2 /\ r1 = r2.
Proof.
  revert s2. induction s1 as [| a s1 IH]; intros [| b s2] H1 H2 E;
    rewrite ?str_app_cons, ?str_app_nil_l in E; cbn [count_char] in H1, H2.
  - injection E as <-. split; reflexivity.
  - injection E as <- _. rewrite Ascii.eqb_refl in H2. discriminate.
  - injection E as -> _. rewrite Ascii.eqb_refl in H1. discriminate.
  - injection E as <- E.
    destruct (Ascii.eqb a c); [discriminate |].
    destruct (IH s2 H1 H2 E) as [-> ->]. split; reflexivity.
Qed.

Lemma count_lines_char (s : string) :
  count_char (ascii_of_nat 10) s = Fmt.count_lines s.
Proof.
  induction s as [| a s IH]; [reflexivity |].
  cbn [count_char Fmt.count_lines]. now rewrite IH.
Qed.

End ReadBack.

(** X21. The CSV record determines the nine fields: two records of field
    values within their widths are the same text only if the values are the
    same, so the CSV sink keeps every decoded field and can be read back
    column by column. *)
Theorem csv_record_inj (f1 f2 : Fields) :
  wf_fields f1 -> wf_fields f2 ->
  Fmt.csv_record f1 = Fmt.csv_record f2 -> f1 = f2.
Proof.
  intros (Hs1 & Hq1 & Hp1 & Ha1 & Hd1 & Hb1 & Hw1 & Hv1 & Hg1)
         (Hs2 & Hq2 & Hp2 & Ha2 & Hd2 & Hb2 & Hw2 & Hv2 & Hg2) E.
  unfold Fmt.csv_record, Fmt.nl in E.
  cbn [String.append] in E.
  apply split_at_char in E as [E1 E]; [| apply count_comma_fmt_u ..].
  apply split_at_char in E as [E2 E]; [| apply count_comma_fmt_u ..].
  apply split_at_char in E as [E3 E]; [| apply count_comma_fmt_u ..].
  injection E as E.
  apply split_at_char in E as [E4 E]; [| apply count_comma_fmt_0X ..].
  injection E as E.
  apply split_at_char in E as [E5 E]; [| apply count_comma_fmt_0X ..].
  apply split_at_char in E as [E6 E]; [| apply count_comma_fmt_X ..].
  apply split_at_char in E as [E7 E]; [| apply count_comma_fmt_u ..].
  apply split_at_char in E as [E8 E]; [| apply count_comma_fmt_u ..].
  apply split_at_char in E as [E9 _];
    [| rewrite count_lines_char; apply count_lines_fmt_u ..].
  unfold is_u32, modulus in *.
  apply fmt_u_inj in E1, E2, E3, E7, E8, E9;
    try (unfold is_u32, modulus; lia).
  apply fmt_0X_inj in E4, E5; try (unfold is_u32, modulus; lia).
  apply fmt_X_inj in E6; try (unfold is_u32, modulus; lia).
  destruct f1, f2; cbn in *. congruence.
Qed.

Lemma csv_record_inj_witness :
  wf_fields (mkFields 10 7 7 0x100 0xFF 15 1 1 0) /\
  wf_fields (mkFields (5 + 5) 7 7 (16 * 16) 255 15 1 1 0) /\
  mkFields 10 7 7 0x100 0xFF 15 1 1 0
  = mkFields (5 + 5) 7 7 (16 * 16) 255 15 1 1 0.
Proof.
  assert (H1 : wf_fields (mkFields 10 7 7 0x100 0xFF 15 1 1 0))
    by (unfold wf_fields, is_u32, modulus; cbn; lia).
  assert (H2 : wf_fields (mkFields (5 + 5) 7 7 (16 * 16) 255 15 1 1 0))
    by (unfold wf_fields, is_u32, modulus; cbn; lia).
  split; [exact H1 |]. split; [exact H2 |].
  apply (csv_record_inj _ _ H1 H2). reflexivity.
Defined.

(** * The records in the two files *)

Section Records.

(** The sixteen bytes that [fwrite] takes from a frame, by value. *)
Lemma frame_bytes_arith fr :
  Fmt.frame_bytes fr
  = [w0 fr mod 256; w0 fr / 256 mod 256;
     w0 fr / 65536 mod 256; w0 fr / 16777216 mod 256;
     w1 fr mod 256; w1 fr / 256 mod 256;
     w1 fr / 65536 mod 256; w1 fr / 16777216 mod 256;
     w2 fr mod 256; w2 fr / 256 mod 256;
     w2 fr / 65536 mod 256; w2 fr / 16777216 mod 256;
     w3 fr mod 256; w3 fr / 256 mod 256;
     w3 fr / 65536 mod 256; w3 fr / 16777216 mod 256].
Proof. unfold Fmt.frame_bytes. rewrite !word_bytes_arith. reflexivity. Qed.

Lemma bin_bytes_flat_map D :
  bin_bytes D
  = flat_map (fun fr =>
      [w0 fr mod 256; w0 fr / 256 mod 256;
       w0 fr / 65536 mod 256; w0 fr / 16777216 mod 256;
       w1 fr mod 256; w1 fr / 256 mod 256;
       w1 fr / 65536 mod 256; w1 fr / 16777216 mod 256;
       w2 fr mod 256; w2 fr / 256 mod 256;
       w2 fr / 65536 mod 256; w2 fr / 16777216 mod 256;
       w3 fr mod 256; w3 fr / 256 mod 256;
       w3 fr / 65536 mod 256; w3 fr / 16777216 mod 256]) D.
Proof.
  induction D as [| fr D IH]; [reflexivity |].
  unfold bin_bytes in *. cbn [map concat flat_map].
  now rewrite IH, frame_bytes_arith.
Qed.

Lemma csv_text_foldr D :
  csv_text D
  = foldr (fun fr s => Fmt.csv_record (decode_to_fields fr) +:+ s) EmptyString D.
Proof.
  induction D as [| fr D IH]; [reflexivity |].
  cbn [csv_text foldr]. now rewrite IH.
Qed.

Lemma str_length_app (s t : string) :
  String.length (s +:+ t) = (String.length s + String.length t)%nat.
Proof.
  induction s as [| a s IH]; [reflexivity |].
  rewrite str_app_cons. cbn [String.length]. now rewrite IH.
Qed.

Lemma str_length_zeros k : String.length (Fmt.zeros k) = k.
Proof. induction k as [| k IH]; [reflexivity |]. cbn. now rewrite IH. Qed.

Lemma str_length_digits base fuel n acc :
  (String.length (Fmt.digits base fuel n acc) <= fuel + String.length acc)%nat.
Proof.
  revert n acc. induction fuel as [| fuel IH]; intros n acc; [cbn; lia |].
  cbn [Fmt.digits]. destruct (n / base =? 0).
  - cbn [String.length]. lia.
  - etransitivity; [apply IH |]. cbn [String.length]. lia.
Qed.

(** [%08X] of a 32-bit value is eight characters wide. *)
Lemma str_length_fmt_0X n : String.length (Fmt.fmt_0X 8 n) = 8%nat.
Proof.
  unfold Fmt.fmt_0X. rewrite str_length_app, str_length_zeros.
  pose proof (str_length_digits 16 8 n EmptyString) as H.
  unfold Fmt.fmt_X. cbn [String.length] in H. lia.
Qed.

(** What a frame of four 32-bit words decodes to is printed in full. *)
Lemma decoded_fields_u32 fr :
  wf_frame fr ->
  is_u32 (src (decode_to_fields fr)) /\ is_u32 (req_ts (decode_to_fields fr)) /\
  is_u32 (resp_ts (decode_to_fields fr)) /\ is_u32 (addr (decode_to_fields fr)) /\
  is_u32 (data (decode_to_fields fr)) /\ is_u32 (be (decode_to_fields fr)) /\
  is_u32 (we (decode_to_fields fr)) /\ is_u32 (valid (decode_to_fields fr)) /\
  is_u32 (gnt (decode_to_fields fr)).
Proof.
  intros Hwf. pose proof (decode_bounds fr Hwf) as H. cbv zeta in H.
  destruct H as (Hs & Hp & Hb & Hw & Hv & Hg & Hq & Ha & Hd).
  unfold is_u32, modulus in *. change (2 ^ 32) with 4294967296 in *.
  repeat split; lia.
Qed.

End Records.

(** C8, amended. Within a session, each time the writer ends a pass with its
    two [fflush] calls, having drained [N] accepted frames, the binary file
    holds exactly [16 * N] bytes: the frames drained, which are the first [N]
    accepted in the order of their pushes, each as its four words in order,
    each word with its least significant byte first. The text file holds
    exactly [N + 1] lines: the header line naming the nine columns, then for
    each frame one line of nine columns separated by commas, which read back
    as the nine decoded fields, the address and the data as eight hexadecimal
    digits after [0x]. Up to that flush the same bytes and text are in the
    buffers of the two streams. *)
Theorem sinks_hold_one_record_per_frame
    (e : Env) (sched : list Action) (st : State) (labs : list Label) :
  no_close sched = true ->
  exec sched (init e) = Some (st, labs) ->
  writers st = [WFlush] ->
  exists st' bytes text,
    step st (Writer 0) = Some (st', []) /\
    bin_file st' = Some bytes /\ csv_file st' = Some text /\
    fbin st = Some bytes /\ fcsv st = Some text /\
    drained labs = take (length (drained labs)) (accepted labs) /\
    bytes
    = flat_map (fun fr =>
        [w0 fr mod 256; w0 fr / 256 mod 256;
         w0 fr / 65536 mod 256; w0 fr / 16777216 mod 256;
         w1 fr mod 256; w1 fr / 256 mod 256;
         w1 fr / 65536 mod 256; w1 fr / 16777216 mod 256;
         w2 fr mod 256; w2 fr / 256 mod 256;
         w2 fr / 65536 mod 256; w2 fr / 16777216 mod 256;
         w3 fr mod 256; w3 fr / 256 mod 256;
         w3 fr / 65536 mod 256; w3 fr / 16777216 mod 256]) (drained labs) /\
    length bytes = (16 * length (drained labs))%nat /\
    text
    = ("src,req_ts,resp_ts,address,data,be,we,valid,gnt" +:+ Fmt.nl) +:+
      foldr (fun fr s => Fmt.csv_record (decode_to_fields fr) +:+ s)
        EmptyString (drained labs) /\
    Fmt.count_lines text = S (length (drained labs)) /\
    forall fr, In fr (drained labs) -> wf_frame fr ->
      exists c1 c2 c3 c4 c5 c6 c7 c8 c9 : string,
        Fmt.csv_record (decode_to_fields fr)
        = c1 +:+ "," +:+ c2 +:+ "," +:+ c3 +:+ ",0x" +:+ c4 +:+ ",0x" +:+
          c5 +:+ "," +:+ c6 +:+ "," +:+ c7 +:+ "," +:+ c8 +:+ "," +:+
          c9 +:+ Fmt.nl /\
        Forall (fun c => count_char "," c = O /\ Fmt.count_lines c = O)
          [c1; c2; c3; c4; c5; c6; c7; c8; c9] /\
        str_val 10 0 c1 = src (decode_to_fields fr) /\
        str_val 10 0 c2 = req_ts (decode_to_fields fr) /\
        str_val 10 0 c3 = resp_ts (decode_to_fields fr) /\
        str_val 16 0 c4 = addr (decode_to_fields fr) /\
        String.length c4 = 8%nat /\
        str_val 16 0 c5 = data (decode_to_fields fr) /\
        String.length c5 = 8%nat /\
        str_val 16 0 c6 = be (decode_to_fields fr) /\
        str_val 10 0 c7 = we (decode_to_fields fr) /\
        str_val 10 0 c8 = valid (decode_to_fields fr) /\
        str_val 10 0 c9 = gnt (decode_to_fields fr).
Proof.
  intros Hnc Hex Hw.
  pose proof (session_of_writer e sched st labs _ Hnc Hex Hw) as HI.
  destruct (flush_step st _ _ HI Hw)
    as (st' & Hs & Hbf & Hcf & _).
  destruct HI as (r & pc & nt & _ & _ & _ & _ & _ & _ & _ & Hpre & _ & _ & _ &
                  (Hb & Hc) & _).
  exists st', (bin_bytes (drained labs)),
    (Fmt.csv_header +:+ csv_text (drained labs)).
  split; [exact Hs |]. split; [exact Hbf |]. split; [exact Hcf |].
  split; [exact Hb |]. split; [exact Hc |]. split; [exact Hpre |].
  split; [apply bin_bytes_flat_map |]. split; [apply length_bin_bytes |].
  split; [rewrite csv_text_foldr; reflexivity |].
  split; [rewrite count_lines_app, count_lines_csv_text; reflexivity |].
  intros fr _ Hwf.
  destruct (decoded_fields_u32 fr Hwf)
    as (Hs0 & Hq & Hp & Ha & Hd & Hbe & Hwe & Hv & Hg).
  exists (Fmt.fmt_u (src (decode_to_fields fr))),
    (Fmt.fmt_u (req_ts (decode_to_fields fr))),
    (Fmt.fmt_u (resp_ts (decode_to_fields fr))),
    (Fmt.fmt_0X 8 (addr (decode_to_fields fr))),
    (Fmt.fmt_0X 8 (data (decode_to_fields fr))),
    (Fmt.fmt_X (be (decode_to_fields fr))),
    (Fmt.fmt_u (we (decode_to_fields fr))),
    (Fmt.fmt_u (valid (decode_to_fields fr))),
    (Fmt.fmt_u (gnt (decode_to_fields fr))).
  split; [reflexivity |].
  split.
  { repeat (apply Forall_cons; split;
            [split;
             first [apply count_comma_fmt_u | apply count_comma_fmt_0X
                   | apply count_comma_fmt_X | apply count_lines_fmt_u
                   | apply count_lines_fmt_0X | apply count_lines_fmt_X] |]).
    apply Forall_nil. exact I. }
  rewrite !fmt_u_val, !fmt_0X_val, fmt_X_val, !str_length_fmt_0X by assumption.
  repeat split.
Qed.

Lemma sinks_hold_one_record_per_frame_witness :
  no_close pass_end_schedule = true /\
  exists st labs,
    exec pass_end_schedule (init example_env) = Some (st, labs) /\
    writers st = [WFlush] /\
    drained labs = [mkFrame 1 0 0 0] /\ bin_file st = Some [] /\
    exists st',
      step st (Writer 0) = Some (st', []) /\
      bin_file st' = Some [1; 0; 0; 0; 0; 0; 0; 0; 0; 0; 0; 0; 0; 0; 0; 0] /\
      exists text,
        csv_file st' = Some text /\ Fmt.count_lines text = 2%nat.
Proof.
  split; [reflexivity |].
  destruct (exec pass_end_schedule (init example_env)) as [[st labs] |] eqn:Hex;
    [| vm_compute in Hex; discriminate Hex].
  exists st, labs. split; [reflexivity |].
  assert (Hst : writers st = [WFlush] /\ drained labs = [mkFrame 1 0 0 0] /\
                bin_file st = Some []).
  { vm_compute in Hex. injection Hex as <- <-. repeat split. }
  destruct Hst as (Hw & Hd & Hf).
  split; [exact Hw |]. split; [exact Hd |]. split; [exact Hf |].
  destruct (sinks_hold_one_record_per_frame example_env pass_end_schedule st labs
              eq_refl Hex Hw)
    as (st' & bytes & text & Hs & Hbf & Hcf & _ & _ & _ & Hbytes & _ & _ & Hn & _).
  exists st'. split; [exact Hs |].
  rewrite Hd in Hbytes, Hn. split; [rewrite Hbf, Hbytes; reflexivity |].
  exists text. split; [exact Hcf | exact Hn].
Defined.

(** C8 as first worded, read of the files, fails between the write of a
    record and the flush that ends the pass: here one accepted frame has been
    drained and its sixteen bytes and its line are in the buffers of the two
    streams, while the binary file holds no byte, not 16, and the text file
    holds no line, not 2. *)
Lemma drained_record_not_yet_in_files :
  no_close pass_end_schedule = true /\
  exists st labs,
    exec pass_end_schedule (init example_env) = Some (st, labs) /\
    accepted labs = [mkFrame 1 0 0 0] /\ drained labs = [mkFrame 1 0 0 0] /\
    tail st = 1 /\ head st = 1 /\
    fbin st = Some [1; 0; 0; 0; 0; 0; 0; 0; 0; 0; 0; 0; 0; 0; 0; 0] /\
    (exists text, fcsv st = Some text /\ Fmt.count_lines text = 2%nat) /\
    bin_file st = Some [] /\ csv_file st = Some EmptyString.
Proof.
  split; [reflexivity |].
  destruct (exec pass_end_schedule (init example_env)) as [[st labs] |] eqn:Hex;
    [| vm_compute in Hex; discriminate Hex].
  exists st, labs. split; [reflexivity |].
  vm_compute in Hex. injection Hex as <- <-.
  repeat split. eexists. split; reflexivity.
Qed.
